(** * hippo: the pharmacy-claims pipeline of [scripts/read_data.py]

    A shallow embedding of the [DataProcessor] class: the schema validator
    ([load_and_validate_csv], [load_and_validate_json]), the directory
    loader ([process_folder]), the referential filter of
    [process_datasets], and the three analyses ([perform_analysis],
    [calculate_top_prescribed_quantities], [calculate_top_chains]).

    Modelling decisions, all stated once here:
    - a pandas DataFrame is a column list and a list of labelled rows; a
      row is a finite map from column names to cells, and a column absent
      from a row reads as NaN, which is how pandas fills it;
    - cells are Python values: [None], NaN, integers, floats, strings.
      Numbers are idealised: floats are exact rationals and integers are
      unbounded, so that a sum neither rounds nor wraps around at 64 bits.
      Python's [str] of a float and [float] of a string are library
      functions taken as parameters;
    - column dtypes are not stored.  Where pandas decides by dtype (the
      common dtype of [concat], the key check of [merge]) the dtype of a
      column is the one pandas infers from its cells: numbers only, or
      object;
    - DataFrames handed to the analyses live in a store and are passed by
      reference, because two of the analyses assign to columns of their
      arguments;
    - the file system is a record source that is read and a sink that
      records, call by call, what the program hands to [save_file] and to
      [to_json]; log records are collected likewise.  Whether [save_file]
      then writes is decided in [save_file] and is in the log it keeps; a
      missing directory or a full disk are outside the model. *)

From Stdlib Require Import QArith Qreduction Sorted Ascii.
From stdpp Require Import gmap strings list fin_maps pretty.

Set Warnings "-clear-no-such-hyp".

#[global] Instance Q_eq_dec : EqDecision Q.
Proof. solve_decision. Defined.

(** ** Cells *)

Inductive value :=
  | VNone
  | VNaN
  | VInt (z : Z)
  | VFloat (q : Q)
  | VStr (s : string).

#[global] Instance value_eq_dec : EqDecision value.
Proof. solve_decision. Defined.

#[global] Instance value_inhabited : Inhabited value := populate VNaN.

(** [pd.isna]: both [None] and NaN are missing values. *)
Definition isna (v : value) : bool :=
  match v with
  | VNone | VNaN => true
  | _ => false
  end.

Definition notna (v : value) : bool := negb (isna v).

(** The cells of a numeric column, and those of an integer column. *)
Definition is_numeric (v : value) : bool :=
  match v with
  | VInt _ | VFloat _ | VNaN => true
  | _ => false
  end.

Definition is_int (v : value) : bool :=
  match v with
  | VInt _ => true
  | _ => false
  end.

(** An integer stored in a column of floats. *)
Definition upcast (v : value) : value :=
  match v with
  | VInt z => VFloat (inject_Z z)
  | _ => v
  end.

(** The numeric reading of a cell, where it has one. *)
Definition num_of (v : value) : option Q :=
  match v with
  | VInt z => Some (inject_Z z)
  | VFloat q => Some q
  | _ => None
  end.

(** Python equality of two cells that are not missing: numbers compare by
    value ([1 == 1.0]), strings by content, a number never equals a
    string.  NaN equals nothing, itself included. *)
Definition cell_eqb (a b : value) : bool :=
  match a, b with
  | VStr s, VStr t => bool_decide (s = t)
  | VInt _, (VInt _ | VFloat _) | VFloat _, (VInt _ | VFloat _) =>
      match num_of a, num_of b with
      | Some x, Some y => Qeq_bool x y
      | _, _ => false
      end
  | _, _ => false
  end.

(** The order pandas sorts group keys in: numbers by value, strings by code
    point, numbers before strings.  Missing cells are never group keys. *)
Definition cell_leb (a b : value) : bool :=
  match a, b with
  | VStr s, VStr t => String.leb s t
  | VStr _, _ => false
  | _, VStr _ => true
  | _, _ =>
      match num_of a, num_of b with
      | Some x, Some y => Qle_bool x y
      | None, _ => true
      | _, None => false
      end
  end.

(** ** Rows, series and frames *)

Abbreviation row := (gmap string value).

Definition cell (r : row) (c : string) : value := default VNaN (r !! c).

(** A Series: cells with their index labels. *)
Abbreviation series := (list (nat * value)).

Record DataFrame := mkDF {
  columns : list string;
  body : list (nat * row)
}.

#[global] Instance DataFrame_eq_dec : EqDecision DataFrame.
Proof. solve_decision. Defined.

(** [pd.DataFrame()]: no columns, no rows. *)
Definition empty_frame : DataFrame := mkDF [] [].

(** [len(df)] and [df.empty]. *)
Definition len (df : DataFrame) : nat := length (body df).
Definition is_empty (df : DataFrame) : bool :=
  bool_decide (columns df = []) || bool_decide (body df = []).

Definition index (df : DataFrame) : list nat := (body df).*1.
Definition records (df : DataFrame) : list row := (body df).*2.

(** A fresh RangeIndex [0 .. n-1] over a list of rows. *)
Definition range_index (rs : list row) : list (nat * row) :=
  zip (seq 0 (length rs)) rs.

(** What a parser returns: a header and the records, indexed from 0. *)
Definition frame_of (cols : list string) (rs : list row) : DataFrame :=
  mkDF cols (range_index rs).

(** [df.reset_index(drop=True)] / [ignore_index=True]. *)
Definition reset_index (df : DataFrame) : DataFrame :=
  frame_of (columns df) (records df).

(** [df[mask]] for a boolean mask computed from the frame itself. *)
Fixpoint select_rows {A} (mask : list bool) (l : list A) : list A :=
  match mask, l with
  | b :: mask', x :: l' =>
      if b then x :: select_rows mask' l' else select_rows mask' l'
  | _, _ => []
  end.

Definition select (df : DataFrame) (mask : list bool) : DataFrame :=
  mkDF (columns df) (select_rows mask (body df)).

(** [df[col]]: the column as a series, [KeyError] when there is none. *)
Definition column_cells (df : DataFrame) (c : string) : series :=
  (λ ir, (ir.1, cell ir.2 c)) <$> body df.

(** [df[col] = s] for a series [s] computed from [df] itself, so that it
    carries the frame's own index and is aligned row by row.  A new column
    name is appended to the header. *)
Definition set_cells (c : string) (s : series) (rows : list (nat * row))
    : list (nat * row) :=
  zip_with (λ ir iv, (ir.1, <[c := iv.2]> ir.2)) rows s.

Definition setitem (df : DataFrame) (c : string) (s : series) : DataFrame :=
  mkDF (if bool_decide (c ∈ columns df) then columns df else columns df ++ [c])
       (set_cells c s (body df)).

(** [pd.concat(frames, ignore_index=True)]: the header is the union of the
    headers in order of first appearance, the rows follow one another, the
    index is renumbered. *)
Definition union_columns (acc new : list string) : list string :=
  acc ++ List.filter (λ c, negb (bool_decide (c ∈ acc))) new.

(** [pd.concat] leaves out the frames of shape (0, 0) when there is
    another. *)
Definition shapeless (df : DataFrame) : bool :=
  bool_decide (columns df = []) && bool_decide (body df = []).

(** Every column of the result has one dtype.  A column that holds numbers
    only is stored as floats as soon as one of its cells is not an integer
    (a float, or the NaN that fills the column in the rows of a frame
    without it) or one of the frames has not the column; its integers are
    then floats.  A column with a string or [None] is of dtype object and
    keeps its cells. *)
Definition float_column (frames : list DataFrame) (c : string) : bool :=
  forallb (λ r, is_numeric (cell r c)) (frames ≫= records)
  && (existsb (λ r, negb (is_int (cell r c))) (frames ≫= records)
      || existsb (λ df, negb (shapeless df)
                        && negb (bool_decide (c ∈ columns df))) frames).

Definition unify_row (frames : list DataFrame) (cols : list string) (r : row)
    : row :=
  foldr (λ c r, if float_column frames c then alter upcast c r else r) r cols.

Definition concat (frames : list DataFrame) : DataFrame :=
  let cols := foldl union_columns [] (columns <$> frames) in
  frame_of cols (unify_row frames cols <$> (frames ≫= records)).

(** [required.issubset(df.columns)]. *)
Definition issubset (required cols : list string) : bool :=
  forallb (λ c, bool_decide (c ∈ cols)) required.

(** [df.dropna(subset=required)]: keep the rows with no missing cell among
    the required columns; labels are kept. *)
Definition complete (required : list string) (r : row) : bool :=
  forallb (λ c, notna (cell r c)) required.

Definition dropna (df : DataFrame) (required : list string) : DataFrame :=
  select df ((λ ir, complete required ir.2) <$> body df).

(** [idx.isin(other)] on index labels. *)
Definition index_isin (idx other : list nat) : list bool :=
  (λ i, bool_decide (i ∈ other)) <$> idx.

(** [series.isin(values)]: membership by Python equality; a missing cell is
    a member when the values hold a missing cell. *)
Definition isin_cell (values : list value) (v : value) : bool :=
  existsb (λ x, cell_eqb x v || (isna x && isna v)) values.

Definition isin (s : series) (values : list value) : list bool :=
  (λ iv, isin_cell values iv.2) <$> s.

(** ** Results of the analyses *)

Record AggregateRow := mkAgg {
  agg_npi : value;
  agg_ndc : value;
  fills : Q;
  reverted : Q;
  avg_price : option Q;      (* [None] is NaN: no price in the group *)
  total_price : Q
}.

Record TopQuantityEntry := mkTopQ {
  tq_id : value;
  most_prescribed_quantity : list value
}.

Record ChainPrice := mkChain {
  name : value;
  chain_avg_price : option Q
}.

Record TopChainEntry := mkTopC {
  tc_ndc : value;
  tc_chain : list ChainPrice
}.

(** ** The world: store, sink and log *)

Inductive exn :=
  | KeyError (key : string)
  | ValueError
  | TypeError
  | MergeError
  | AttributeError
  | BadReference    (* an address outside the store; no Python name is one *)
  | Unmodelled.     (* a result without a counterpart here: a frame with one
                       column name twice, a sum or a product of strings *)

Inductive level := INFO | WARNING | ERROR.

(** What is handed to a sink: a table, or one of the three result lists. *)
Inductive payload :=
  | PFrame (df : DataFrame)
  | PAnalysis (rows : list AggregateRow)
  | PTopQuantities (rows : list TopQuantityEntry)
  | PTopChains (rows : list TopChainEntry).

Record world := mkWorld {
  heap : list DataFrame;
  sink : list (string * payload);
  logs : list (level * string)
}.

Definition ref := nat.

(** Computations: a result or a raised exception, and the world after. *)
Definition M (A : Type) : Type := world → (exn + A) * world.

#[global] Instance M_ret : MRet M := λ A x w, (inr x, w).
#[global] Instance M_bind : MBind M := λ A B f m w,
  match m w with
  | (inr x, w') => f x w'
  | (inl e, w') => (inl e, w')
  end.

Definition raise {A} (e : exn) : M A := λ w, (inl e, w).

Definition lift {A} (r : exn + A) : M A := λ w, (r, w).

Definition logging (l : level) (msg : string) : M unit := λ w,
  (inr (), mkWorld (heap w) (sink w) (logs w ++ [(l, msg)])).

Definition hand_over (path : string) (p : payload) : M unit := λ w,
  (inr (), mkWorld (heap w) (sink w ++ [(path, p)]) (logs w)).

(** A new object in the store. *)
Definition alloc (df : DataFrame) : M ref := λ w,
  (inr (length (heap w)), mkWorld (heap w ++ [df]) (sink w) (logs w)).

Definition deref (r : ref) : M DataFrame := λ w,
  match heap w !! r with
  | Some df => (inr df, w)
  | None => (inl BadReference, w)
  end.

(** In-place update of the object at [r]. *)
Definition assign (r : ref) (df : DataFrame) : M unit := λ w,
  (inr (), mkWorld (<[r := df]> (heap w)) (sink w) (logs w)).

(** [df[col]] through a reference-free frame, raising [KeyError]. *)
Definition getitem (df : DataFrame) (c : string) : exn + series :=
  if bool_decide (c ∈ columns df) then inr (column_cells df c)
  else inl (KeyError c).

(** ** Merge *)

Inductive how := LeftJoin | InnerJoin.

(** A row built from a list of column names: the cell [g c] under the name
    [f c], the first column of a name winning. *)
Definition row_of (f : string → string) (g : string → value)
    (names : list string) : row :=
  foldr (λ c acc, <[f c := g c]> acc) ∅ names.

(** The header of [left.merge(right, left_on, right_on, suffixes)]: when
    both keys have one name the key column appears once; a name present on
    both sides gets the suffix of its side. *)
Definition right_columns (left_on right_on : string) (right : DataFrame)
    : list string :=
  if bool_decide (left_on = right_on)
  then List.filter (λ c, negb (String.eqb c right_on)) (columns right)
  else columns right.

Definition rename_overlap (others : list string) (suffix c : string) : string :=
  if bool_decide (c ∈ others) then c +:+ suffix else c.

Record merge_plan := mkPlan {
  left_names : list string;
  right_names : list string;
  left_rename : string → string;
  right_rename : string → string
}.

Definition plan_merge (left right : DataFrame) (left_on right_on : string)
    (suffixes : string * string) : merge_plan :=
  let rcols := right_columns left_on right_on right in
  mkPlan (columns left) rcols
         (rename_overlap rcols suffixes.1)
         (rename_overlap (columns left) suffixes.2).

Definition merged_header (p : merge_plan) : list string :=
  (left_rename p <$> left_names p) ++ (right_rename p <$> right_names p).

(** One joined row: the left cells, then the right cells, or NaN in the
    right columns of a left row without a match. *)
Definition joined (p : merge_plan) (l : row) (r : option row) : row :=
  row_of (left_rename p) (cell l) (left_names p) ∪
  row_of (right_rename p)
         (match r with Some r => cell r | None => λ _, VNaN end)
         (right_names p).

(** Key cells match by Python equality; missing keys match one another. *)
Definition key_match (a b : value) : bool :=
  cell_eqb a b || (isna a && isna b).

Definition matches (right : DataFrame) (right_on : string) (k : value)
    : list row :=
  List.filter (λ r, key_match k (cell r right_on)) (records right).

Definition join_row (h : how) (p : merge_plan) (right : DataFrame)
    (left_on right_on : string) (l : row) : list row :=
  match matches right right_on (cell l left_on), h with
  | [], LeftJoin => [joined p l None]
  | ms, _ => (λ r, joined p l (Some r)) <$> ms
  end.

(** The cells of a key column. *)
Definition key_cells (df : DataFrame) (c : string) : list value :=
  (λ r, cell r c) <$> records df.

(** The check pandas makes on the two key columns before it joins: a
    column of numbers is not merged with an object column that holds no
    integer ("You are trying to merge on int64 and object columns").  The
    check is skipped when one side has no rows. *)
Definition string_like (ks : list value) : bool :=
  negb (forallb is_numeric ks) && negb (existsb is_int ks).

Definition keys_clash (lk rk : list value) : bool :=
  negb (bool_decide (lk = [])) && negb (bool_decide (rk = []))
  && ((forallb is_numeric lk && string_like rk)
      || (string_like lk && forallb is_numeric rk)).

(** The suffixes have made two columns of one side into one name. *)
Definition suffix_clash (p : merge_plan) : bool :=
  (bool_decide (NoDup (left_names p))
   && negb (bool_decide (NoDup (left_rename p <$> left_names p))))
  || (bool_decide (NoDup (right_names p))
      && negb (bool_decide (NoDup (right_rename p <$> right_names p)))).

(** [left.merge(right, left_on=.., right_on=.., how=.., suffixes=..)].
    Rows come in the order of the left frame, the matches of one left row
    in the order of the right frame, under a fresh index.  pandas raises
    [KeyError] for a key that is not a column, [ValueError] for key columns
    it will not compare, and [MergeError] when its suffixes give two
    columns of one side the same name.  It returns a frame with one name
    twice when the name comes from both sides: rows are maps here, and
    that frame has no counterpart. *)
Definition merge (left right : DataFrame) (left_on right_on : string)
    (h : how) (suffixes : string * string) : exn + DataFrame :=
  if negb (bool_decide (left_on ∈ columns left)) then inl (KeyError left_on)
  else if negb (bool_decide (right_on ∈ columns right)) then inl (KeyError right_on)
  else if keys_clash (key_cells left left_on) (key_cells right right_on)
  then inl ValueError
  else
    let p := plan_merge left right left_on right_on suffixes in
    if suffix_clash p then inl MergeError
    else if negb (bool_decide (NoDup (merged_header p))) then inl Unmodelled
    else inr (frame_of (merged_header p)
                (records left ≫= join_row h p right left_on right_on)).

(** ** Group by *)

(** The key of a row under [groupby(keys)]; a row with a missing key cell
    belongs to no group. *)
Definition key_of (keys : list string) (r : row) : list value :=
  cell r <$> keys.

Definition has_key (keys : list string) (r : row) : bool :=
  forallb notna (key_of keys r).

Fixpoint key_eqb (a b : list value) : bool :=
  match a, b with
  | [], [] => true
  | x :: a', y :: b' => cell_eqb x y && key_eqb a' b'
  | _, _ => false
  end.

(** Lexicographic order on keys. *)
Fixpoint key_leb (a b : list value) : bool :=
  match a, b with
  | [], _ => true
  | _ :: _, [] => false
  | x :: a', y :: b' =>
      if cell_eqb x y then key_leb a' b' else cell_leb x y
  end.

(** The distinct keys, each at its first occurrence. *)
Fixpoint distinct_keys (ks : list (list value)) : list (list value) :=
  match ks with
  | [] => []
  | k :: ks' => k :: List.filter (λ k', negb (key_eqb k k')) (distinct_keys ks')
  end.

Fixpoint insert_key (k : list value) (sorted : list (list value))
    : list (list value) :=
  match sorted with
  | [] => [k]
  | k' :: rest =>
      if key_leb k k' then k :: sorted else k' :: insert_key k rest
  end.

Definition sort_keys (ks : list (list value)) : list (list value) :=
  foldr insert_key [] ks.

(** [df.groupby(keys)]: the groups in sorted key order, each with its rows
    in frame order. *)
Definition group_rows {A} (keys : list string) (get : A → row)
    (k : list value) (rows : list A) : list A :=
  List.filter (λ x, has_key keys (get x) && key_eqb k (key_of keys (get x))) rows.

Definition group_keys (keys : list string) (rows : list row)
    : list (list value) :=
  sort_keys (distinct_keys (key_of keys <$> List.filter (has_key keys) rows)).

Definition groupby (df : DataFrame) (keys : list string)
    : exn + list (list value * list (nat * row)) :=
  match List.find (λ c, negb (bool_decide (c ∈ columns df))) keys with
  | Some c => inl (KeyError c)
  | None =>
      inr ((λ k, (k, group_rows keys snd k (body df)))
             <$> group_keys keys (records df))
  end.

(** ** Column arithmetic *)

Definition is_str (v : value) : bool :=
  match v with
  | VStr _ => true
  | _ => false
  end.

Definition Qsum (qs : list Q) : Q := foldr Qplus 0%Q qs.

(** [series.sum()]: missing cells are skipped and numbers are added.
    Python adds strings by joining them: a sum over strings is not a
    number and has no counterpart here. *)
Definition sum_cells (vs : list value) : exn + Q :=
  if existsb is_str vs then inl Unmodelled
  else inr (Qred (Qsum (omap num_of vs))).

(** The number of cells a mean divides by. *)
Definition count_cells (vs : list value) : nat :=
  length (List.filter notna vs).

(** [series.mean()]: NaN for a group without a price, [TypeError] for a
    column that holds a string. *)
Definition mean_cells (vs : list value) : exn + option Q :=
  if existsb is_str vs then inl TypeError
  else
    match count_cells vs with
    | O => inr None
    | S n => inr (Some (Qred (Qsum (omap num_of vs) / inject_Z (Z.of_nat (S n)))))
    end.

(** [a * b] on cells: NaN when either is missing.  A product with a
    string (a repetition or a [TypeError] in Python) has no counterpart
    here. *)
Definition mul_cells (a b : value) : exn + value :=
  match a, b with
  | VStr _, _ | _, VStr _ => inl Unmodelled
  | _, _ =>
      match num_of a, num_of b with
      | Some x, Some y => inr (VFloat (Qred (x * y)))
      | _, _ => inr VNaN
      end
  end.

(** [df.loc[i, col]] for one label. *)
Definition loc (df : DataFrame) (i : nat) (c : string) : value :=
  match List.find (λ ir, Nat.eqb ir.1 i) (body df) with
  | Some ir => cell ir.2 c
  | None => VNaN
  end.

(** Sequencing of results. *)
Definition bind_res {A B} (r : exn + A) (f : A → exn + B) : exn + B :=
  match r with
  | inl e => inl e
  | inr x => f x
  end.

Fixpoint map_res {A B} (f : A → exn + B) (l : list A) : exn + list B :=
  match l with
  | [] => inr []
  | x :: l' =>
      bind_res (f x) (λ y, bind_res (map_res f l') (λ ys, inr (y :: ys)))
  end.

(** ** Conversions of a series *)

Definition map_series (f : value → value) (s : series) : series :=
  prod_map id f <$> s.

(** [series.astype(str)] cell by cell; [float_repr] is Python's [str] of a
    float. *)
Definition astype_str (float_repr : Q → string) (v : value) : value :=
  match v with
  | VNone => VStr "None"
  | VNaN => VStr "nan"
  | VInt z => VStr (pretty z)
  | VFloat q => VStr (float_repr q)
  | VStr s => VStr s
  end.

(** [series.astype(float)] cell by cell: a missing cell becomes NaN, a
    string goes through Python's [float], which may raise. *)
Definition astype_float (parse_float : string → option Q) (v : value)
    : exn + value :=
  match v with
  | VNone | VNaN => inr VNaN
  | VInt z => inr (VFloat (Qred (inject_Z z)))
  | VFloat q => inr (VFloat (Qred q))
  | VStr s =>
      match parse_float s with
      | Some q => inr (VFloat (Qred q))
      | None => inl ValueError
      end
  end.

Definition astype_float_series (parse_float : string → option Q) (s : series)
    : exn + series :=
  map_res (λ iv, bind_res (astype_float parse_float iv.2) (λ v, inr (iv.1, v))) s.

(** ** [collections.Counter] *)

(** Equality of dictionary keys: Python equality, and [None] is itself.
    Two NaN cells of a list are two objects and two keys. *)
Definition dict_key_eqb (a b : value) : bool :=
  cell_eqb a b || (bool_decide (a = VNone) && bool_decide (b = VNone)).

(** One more occurrence of [x]: its count goes up where it is, or it is a
    new last key. *)
Fixpoint counter_add (x : value) (c : list (value * nat)) : list (value * nat) :=
  match c with
  | [] => [(x, 1)]
  | (k, n) :: c' =>
      if dict_key_eqb k x then (k, S n) :: c' else (k, n) :: counter_add x c'
  end.

(** [Counter(xs)]: keys in order of first occurrence, with their counts. *)
Definition Counter (xs : list value) : list (value * nat) :=
  foldl (λ c x, counter_add x c) [] xs.

(** A stable sort by decreasing count: an entry goes before the first one
    that does not beat it. *)
Fixpoint insert_by_count {A} (x : A * nat) (sorted : list (A * nat))
    : list (A * nat) :=
  match sorted with
  | [] => [x]
  | y :: rest =>
      if (x.2 <? y.2)%nat then y :: insert_by_count x rest else x :: sorted
  end.

Definition sort_by_count {A} (c : list (A * nat)) : list (A * nat) :=
  foldr insert_by_count [] c.

(** [counter.most_common(n)]: the [n] largest counts, equal counts in the
    order first encountered. *)
Definition most_common (n : nat) (c : list (value * nat)) : list (value * nat) :=
  take n (sort_by_count c).

(** ** Ranking chains *)

(** A row of the frame grouped by [ndc] and [chain]. *)
Record ChainGroup := mkGroup {
  g_ndc : value;
  g_chain : value;
  g_avg_price : option Q
}.

(** [a] goes strictly before [b] under
    [sort_values(by=["ndc", "avg_price"], ascending=[True, False])];
    a NaN price goes last within its [ndc]. *)
Definition price_gtb (a b : option Q) : bool :=
  match a, b with
  | Some x, Some y => negb (Qle_bool x y)
  | Some _, None => true
  | None, _ => false
  end.

Definition chain_before (a b : ChainGroup) : bool :=
  if cell_eqb (g_ndc a) (g_ndc b)
  then price_gtb (g_avg_price a) (g_avg_price b)
  else cell_leb (g_ndc a) (g_ndc b).

(** Stable insertion: [x], which came first, goes before the first row
    that is not strictly before it. *)
Fixpoint insert_chain (x : ChainGroup) (sorted : list ChainGroup)
    : list ChainGroup :=
  match sorted with
  | [] => [x]
  | y :: rest =>
      if chain_before y x then y :: insert_chain x rest else x :: sorted
  end.

Definition sort_values (rows : list ChainGroup) : list ChainGroup :=
  foldr insert_chain [] rows.

(** ** The record source *)

(** A parsed file: its header and its records.  [None] is a file that
    cannot be read or parsed: [pd.read_csv] or [json.load] raises. *)
Definition parsed := option (list string * list row).

Record source := mkSource {
  listdir : string → list string;
  read_csv : string → parsed;
  read_json : string → parsed
}.

(** [os.path.join] of a directory and a file name. *)
Definition path_join (dir file : string) : string := dir +:+ "/" +:+ file.

(** [s.endswith(suffix)]. *)
Definition endswith (s suffix : string) : bool :=
  let n := String.length s in
  let k := String.length suffix in
  (k <=? n)%nat && String.eqb (String.substring (n - k) k s) suffix.

(** ** Saving *)

(** [os.path.dirname(file_path)] is empty exactly when the path holds no
    separator. *)
Fixpoint has_separator (s : string) : bool :=
  match s with
  | EmptyString => false
  | String a s' => Ascii.eqb a "/"%char || has_separator s'
  end.

(** What the body of [save_file] raises, as the text of the exception:
    [os.makedirs] refuses the empty directory name of a bare file name,
    a list has no [to_csv], and [json.dump] does not serialise a
    DataFrame.  With a path of another extension nothing is written and
    nothing is raised. *)
Definition save_error (data : payload) (file_path : string) : option string :=
  if negb (has_separator file_path) then
    Some "[Errno 2] No such file or directory: ''"
  else if endswith file_path ".csv" then
    match data with
    | PFrame _ => None
    | _ => Some "'list' object has no attribute 'to_csv'"
    end
  else if endswith file_path ".json" then
    match data with
    | PFrame _ => Some "Object of type DataFrame is not JSON serializable"
    | _ => None
    end
  else None.

(** The log record [save_file] ends with. *)
Definition save_log (data : payload) (file_path : string) : level * string :=
  match save_error data file_path with
  | None => (INFO, "Data saved to " +:+ file_path)
  | Some e => (ERROR, "Error saving data to " +:+ file_path +:+ ": " +:+ e)
  end.

(** ** [DataProcessor] *)

Section DataProcessor.

(** Python's [str] of a float, and [float] of a string ([None] where it
    raises [ValueError]). *)
Variable float_repr : Q → string.
Variable parse_float : string → option Q.

(** The record source the processor reads from. *)
Variable src : source.

(** The time stamp of the module, part of the default result paths. *)
Variable todays_date : string.

(** The four directories of [__init__]. *)
Variable base_path : string.
Definition company_dir : string := path_join base_path "pharmacies".
Definition claims_dir : string := path_join base_path "claims".
Definition rollback_dir : string := path_join base_path "reverts".
Definition invalid_records_dir : string := path_join base_path "invalid_records".

(** The body shared by the two loaders once the file is parsed. *)
Definition validate (kind file_path : string) (required_columns : list string)
    (data : DataFrame) : M (option DataFrame * option DataFrame) :=
  if negb (issubset required_columns (columns data)) then
    logging WARNING ("File " +:+ file_path +:+
                     " does not comply with the expected schema.") ;;
    mret (None, Some data)
  else
    let valid_data := dropna data required_columns in
    let invalid_data :=
      select data (negb <$> index_isin (index data) (index valid_data)) in
    logging INFO (kind +:+ " file " +:+ file_path +:+ " loaded successfully with "
                  +:+ pretty (len valid_data) +:+ " valid rows and "
                  +:+ pretty (len invalid_data) +:+ " invalid rows.") ;;
    mret (Some valid_data, Some invalid_data).

Definition load_and_validate_csv (file_path : string)
    (required_columns : list string) : M (option DataFrame * option DataFrame) :=
  logging INFO ("Loading CSV file: " +:+ file_path) ;;
  match read_csv src file_path with
  | Some (cols, rs) => validate "CSV" file_path required_columns (frame_of cols rs)
  | None =>
      logging ERROR ("Error loading CSV " +:+ file_path) ;;
      mret (None, None)
  end.

Definition load_and_validate_json (file_path : string)
    (required_columns : list string) : M (option DataFrame * option DataFrame) :=
  logging INFO ("Loading JSON file: " +:+ file_path) ;;
  match read_json src file_path with
  | Some (cols, rs) => validate "JSON" file_path required_columns (frame_of cols rs)
  | None =>
      logging ERROR ("Error loading JSON " +:+ file_path) ;;
      mret (None, None)
  end.

(** [save_file]: the call is recorded in the sink with the data it was
    given.  Every exception of the body is caught and logged by the
    method, so it never raises; the log record tells whether the data
    were written. *)
Definition save_file (data : payload) (file_path : string) : M unit :=
  hand_over file_path data ;;
  logging (save_log data file_path).1 (save_log data file_path).2.

(** The loop of [process_folder] over the directory listing, with its two
    accumulators. *)
Fixpoint process_files (folder_path : string) (required_columns : list string)
    (file_type : string) (file_names : list string)
    (valid_dataframes invalid_dataframes : list DataFrame)
    : M (list DataFrame * list DataFrame) :=
  match file_names with
  | [] => mret (valid_dataframes, invalid_dataframes)
  | file_name :: rest =>
      let file_path := path_join folder_path file_name in
      let continue_with loaded :=
        '(valid_data, invalid_data) ← loaded;
        let valid_dataframes :=
          match valid_data with
          | Some v => valid_dataframes ++ [v]
          | None => valid_dataframes
          end in
        let invalid_dataframes :=
          match invalid_data with
          | Some i => invalid_dataframes ++ [i]
          | None => invalid_dataframes
          end in
        process_files folder_path required_columns file_type rest
                      valid_dataframes invalid_dataframes in
      if String.eqb file_type "csv" && endswith file_name ".csv" then
        continue_with (load_and_validate_csv file_path required_columns)
      else if String.eqb file_type "json" && endswith file_name ".json" then
        continue_with (load_and_validate_json file_path required_columns)
      else
        logging WARNING ("Skipping unsupported file: " +:+ file_name) ;;
        process_files folder_path required_columns file_type rest
                      valid_dataframes invalid_dataframes
  end.

Definition concat_or_empty (frames : list DataFrame) : DataFrame :=
  match frames with
  | [] => empty_frame
  | _ => concat frames
  end.

Definition process_folder (folder_path : string) (required_columns : list string)
    (file_type invalid_file_name : string) : M DataFrame :=
  logging INFO ("Processing folder: " +:+ folder_path) ;;
  '(valid_dataframes, invalid_dataframes) ←
    process_files folder_path required_columns file_type
                  (listdir src folder_path) [] [];
  let valid_data := concat_or_empty valid_dataframes in
  let invalid_data := concat_or_empty invalid_dataframes in
  save_file (PFrame invalid_data) invalid_file_name ;;
  logging INFO ("Finished processing folder " +:+ folder_path +:+ ".") ;;
  mret valid_data.

(** *** [process_datasets] *)

Definition pharmacies_required_columns : list string := ["chain"; "npi"].
Definition claims_required_columns : list string :=
  ["id"; "ndc"; "npi"; "quantity"; "price"; "timestamp"].
Definition reverts_required_columns : list string := ["id"; "claim_id"; "timestamp"].

(** Lines 148-150: the set of pharmacy identifiers as strings, the claims
    whose identifier as a string is in it, and the claims whose identifier
    as it stands is not in it. *)
Definition filter_claims (company_data claims_data : DataFrame)
    : exn + (DataFrame * DataFrame) :=
  bind_res (getitem company_data "npi") (λ company_npi,
  let valid_npi_set := (map_series (astype_str float_repr) company_npi).*2 in
  bind_res (getitem claims_data "npi") (λ claims_npi,
  let valid_claims :=
    select claims_data
           (isin (map_series (astype_str float_repr) claims_npi) valid_npi_set) in
  let invalid_claims :=
    select claims_data (negb <$> isin claims_npi valid_npi_set) in
  inr (valid_claims, invalid_claims))).

Definition process_datasets : M (ref * ref * ref) :=
  logging INFO "Starting dataset processing." ;;
  company_data ← process_folder company_dir pharmacies_required_columns
                                "csv" "invalid_company.csv";
  claims_data ← process_folder claims_dir claims_required_columns
                               "json" "invalid_claims.json";
  '(valid_claims, invalid_claims) ← lift (filter_claims company_data claims_data);
  let invalid_claims_path := path_join invalid_records_dir "invalid_claims.json" in
  hand_over invalid_claims_path (PFrame invalid_claims) ;;
  reverts_data ← process_folder rollback_dir reverts_required_columns "json"
                                "data/invalid_records/invalid_rollback.json";
  logging INFO "Dataset processing completed." ;;
  company ← alloc company_data;
  claims ← alloc valid_claims;
  reverts ← alloc reverts_data;
  mret (company, claims, reverts).

(** *** [perform_analysis] *)

Definition column_of (c : string) (rows : list (nat * row)) : list value :=
  (λ ir, cell ir.2 c) <$> rows.

(** The four named aggregations over one group of [combined_data]. *)
Definition aggregate (combined_data : DataFrame)
    (group : list value * list (nat * row)) : exn + AggregateRow :=
  let (k, rows) := group in
  bind_res (sum_cells (column_of "quantity" rows)) (λ fills,
  bind_res (sum_cells (column_of "rollback_flag" rows)) (λ reverted,
  bind_res (mean_cells (column_of "price" rows)) (λ avg_price,
  bind_res (map_res (λ ir, mul_cells (cell ir.2 "price")
                                     (loc combined_data ir.1 "quantity")) rows)
           (λ products,
  bind_res (sum_cells products) (λ total_price,
  inr (mkAgg (k !!! 0%nat) (k !!! 1%nat) fills reverted avg_price total_price)))))).

Definition rollback_flag (v : value) : value :=
  if notna v then VInt 1 else VInt 0.

Definition analysis (claims_data rollbacks_data : DataFrame)
    : exn + list AggregateRow :=
  bind_res (merge claims_data rollbacks_data "id" "claim_id" LeftJoin
                  ("", "_rollback")) (λ combined_data,
  bind_res (getitem combined_data "claim_id") (λ claim_id,
  let combined_data :=
    setitem combined_data "rollback_flag" (map_series rollback_flag claim_id) in
  bind_res (groupby combined_data ["npi"; "ndc"]) (λ groups,
  match List.find (λ c, negb (bool_decide (c ∈ columns combined_data)))
                  ["quantity"; "price"] with
  | Some c => inl (KeyError c)
  | None => map_res (aggregate combined_data) groups
  end))).

Definition analysis_path : string :=
  "results/analysis_result_" +:+ todays_date +:+ ".json".

Definition perform_analysis (pharmacy_data claims_data rollbacks_data : option ref)
    (save_path : string) : M (list AggregateRow) :=
  match claims_data, rollbacks_data, pharmacy_data with
  | Some claims_data, Some rollbacks_data, Some _ =>
      claims ← deref claims_data;
      rollbacks ← deref rollbacks_data;
      analysis_result ← lift (analysis claims rollbacks);
      save_file (PAnalysis analysis_result) save_path ;;
      mret analysis_result
  | _, _, _ =>
      logging INFO "Claims data, rollbacks data, or pharmacy data is missing." ;;
      mret []
  end.

(** *** [calculate_top_prescribed_quantities] *)

Definition top_quantities_path : string :=
  "results/top_prescribed_quantities_" +:+ todays_date +:+ ".json".

(** [claims_data[col] = claims_data[col].astype(str)], on the object the
    caller passed. *)
Definition column_to_str (data : ref) (c : string) : M unit :=
  df ← deref data;
  s ← lift (getitem df c);
  assign data (setitem df c (map_series (astype_str float_repr) s)).

Definition column_to_float (data : ref) (c : string) : M unit :=
  df ← deref data;
  s ← lift (getitem df c);
  s' ← lift (astype_float_series parse_float s);
  assign data (setitem df c s').

(** One entry of the result, from a row of [grouped_data]. *)
Definition top_quantity_entry (group : list value * list (nat * row))
    : TopQuantityEntry :=
  let product_id := group.1 !!! 0%nat in
  let quantities := column_of "quantity" group.2 in
  let quantity_counts := Counter quantities in
  let top_4_quantities := (most_common 4 quantity_counts).*1 in
  mkTopQ product_id top_4_quantities.

Definition calculate_top_prescribed_quantities (claims_data : ref)
    (save_path : string) : M (list TopQuantityEntry) :=
  df ← deref claims_data;
  match List.find (λ c, negb (bool_decide (c ∈ columns df))) ["npi"; "quantity"] with
  | Some c => raise (KeyError c)
  | None =>
      column_to_str claims_data "npi" ;;
      column_to_float claims_data "quantity" ;;
      df ← deref claims_data;
      grouped_data ← lift (groupby df ["npi"]);
      let result := top_quantity_entry <$> grouped_data in
      save_file (PTopQuantities result) save_path ;;
      mret result
  end.

(** *** [calculate_top_chains] *)

Definition top_chains_path : string :=
  "results/top_chains_" +:+ todays_date +:+ ".json".

(** [df[[c1, c2]]]: a new frame with these columns. *)
Definition project (df : DataFrame) (cols : list string) : exn + DataFrame :=
  match List.find (λ c, negb (bool_decide (c ∈ columns df))) cols with
  | Some c => inl (KeyError c)
  | None => inr (mkDF cols (prod_map id (λ r, row_of id (cell r) cols) <$> body df))
  end.

(** [merged_data.groupby(["ndc", "chain"]).agg(avg_price=("price", "mean"))]. *)
Definition chain_group (group : list value * list (nat * row))
    : exn + ChainGroup :=
  bind_res (mean_cells (column_of "price" group.2)) (λ avg,
  inr (mkGroup (group.1 !!! 0%nat) (group.1 !!! 1%nat) avg)).

Definition chain_groups (merged_data : DataFrame) : exn + list ChainGroup :=
  bind_res (groupby merged_data ["ndc"; "chain"]) (λ groups,
  if bool_decide ("price" ∈ columns merged_data)
  then map_res chain_group groups
  else inl (KeyError "price")).

(** The distinct [ndc] cells of the sorted rows, in their order. *)
Fixpoint ndc_keys (rows : list ChainGroup) : list value :=
  match rows with
  | [] => []
  | g :: rest =>
      g_ndc g :: List.filter (λ k, negb (cell_eqb (g_ndc g) k)) (ndc_keys rest)
  end.

Definition rows_of_ndc (k : value) (rows : list ChainGroup) : list ChainGroup :=
  List.filter (λ g, cell_eqb k (g_ndc g)) rows.

(** [.groupby("ndc").head(2)], then one dictionary for each [ndc]. *)
Definition rank_chains (sorted : list ChainGroup) : list TopChainEntry :=
  (λ k, mkTopC k ((λ g, mkChain (g_chain g) (g_avg_price g))
                    <$> take 2 (rows_of_ndc k sorted)))
    <$> ndc_keys sorted.

(** The frames of the analysis, from the two tables as they are after the
    three conversions. *)
Definition grouped_chains (pharmacy claims : DataFrame) : exn + list ChainGroup :=
  bind_res (project pharmacy ["npi"; "chain"]) (λ pharmacy_cols,
  bind_res (merge claims pharmacy_cols "npi" "npi" InnerJoin ("_x", "_y"))
           chain_groups).

Definition calculate_top_chains (pharmacy_data claims_data : ref)
    (save_path : string) : M (list TopChainEntry) :=
  column_to_str pharmacy_data "npi" ;;
  column_to_str claims_data "npi" ;;
  column_to_str claims_data "ndc" ;;
  pharmacy ← deref pharmacy_data;
  claims ← deref claims_data;
  grouped_data ← lift (grouped_chains pharmacy claims);
  let top_chains := sort_values grouped_data in
  (* with no group at all, [groupby.apply] gives a DataFrame, which has no
     [tolist] *)
  match top_chains with
  | [] => raise AttributeError
  | _ =>
      let result := rank_chains top_chains in
      save_file (PTopChains result) save_path ;;
      mret result
  end.

(** *** [run] *)

Definition run : M unit :=
  logging INFO "Starting..." ;;
  '(company_data, claims_data, revert_data) ← process_datasets;
  perform_analysis (Some company_data) (Some claims_data) (Some revert_data)
                   analysis_path ;;
  calculate_top_chains company_data claims_data top_chains_path ;;
  calculate_top_prescribed_quantities claims_data top_quantities_path ;;
  logging INFO "Concluded!!!".

End DataProcessor.

(** * Vocabulary of the statements *)

(** The frame with [f] applied to every cell of the column [c], and
    nothing else changed. *)
Definition with_column (f : value → value) (c : string) (df : DataFrame)
    : DataFrame :=
  mkDF (columns df) ((λ ir, (ir.1, <[c := f (cell ir.2 c)]> ir.2)) <$> body df).

(** The float a cell converts to, where it converts. *)
Definition to_float (parse_float : string → option Q) (v : value) : value :=
  match astype_float parse_float v with
  | inr x => x
  | inl _ => v
  end.

Definition convertible (parse_float : string → option Q) (v : value) : Prop :=
  ∃ x, astype_float parse_float v = inr x.

(** The claims table as [calculate_top_prescribed_quantities] leaves it. *)
Definition normalised_claims (float_repr : Q → string)
    (parse_float : string → option Q) (df : DataFrame) : DataFrame :=
  with_column (to_float parse_float) "quantity"
              (with_column (astype_str float_repr) "npi" df).

(** *** The left join of the summary aggregation, claim by claim *)

(** The rows the join finds for a claim, and how many joined rows the
    claim gives. *)
Definition joined_count (rollbacks : DataFrame) (l : row) : nat :=
  length (matches rollbacks "claim_id" (cell l "id")).

Definition joined_copies (rollbacks : DataFrame) (l : row) : nat :=
  Nat.max 1 (joined_count rollbacks l).

(** The reverted-flags of the joined rows of a claim. *)
Definition joined_flags (rollbacks : DataFrame) (l : row) : list value :=
  match matches rollbacks "claim_id" (cell l "id") with
  | [] => [VInt 0]
  | ms => (λ r, if notna (cell r "claim_id") then VInt 1 else VInt 0) <$> ms
  end.

(** The claims of one (npi, ndc) group, in table order. *)
Definition claims_of_group (k : list value) (claims : DataFrame) : list row :=
  List.filter (λ l, has_key ["npi"; "ndc"] l
                    && key_eqb k (key_of ["npi"; "ndc"] l))
              (records claims).

(** The aggregate of a group when each of its claims is counted [joined_copies]
    times. *)
Definition joined_aggregate (claims rollbacks : DataFrame) (k : list value)
    : exn + AggregateRow :=
  let group := claims_of_group k claims in
  let fanned := group ≫= λ l, replicate (joined_copies rollbacks l) l in
  bind_res (sum_cells ((λ l, cell l "quantity") <$> fanned)) (λ fills,
  bind_res (sum_cells (group ≫= joined_flags rollbacks)) (λ reverted,
  bind_res (mean_cells ((λ l, cell l "price") <$> fanned)) (λ avg_price,
  bind_res (map_res (λ l, mul_cells (cell l "price") (cell l "quantity")) fanned)
           (λ products,
  bind_res (sum_cells products) (λ total_price,
  inr (mkAgg (k !!! 0%nat) (k !!! 1%nat) fills reverted avg_price total_price)))))).

(** *** The fan-out, in the words of the specification *)











(** A joined row with its reverted-flag, and the rows of [combined_data]
    that one claim gives. *)
Definition flagged (y : row) : row :=
  <["rollback_flag" := rollback_flag (cell y "claim_id")]> y.

Definition joined_rows (claims rollbacks : DataFrame) (l : row) : list row :=
  flagged <$> join_row LeftJoin
                (plan_merge claims rollbacks "id" "claim_id" ("", "_rollback"))
                rollbacks "id" "claim_id" l.

(** The rows of [combined_data] once the flag column is set. *)
Definition combined_body (claims rollbacks : DataFrame) : list (nat * row) :=
  (λ ir, (ir.1, flagged ir.2))
    <$> range_index
          (records claims
             ≫= join_row LeftJoin
                  (plan_merge claims rollbacks "id" "claim_id" ("", "_rollback"))
                  rollbacks "id" "claim_id").

(** *** The inner join of top-chains, by pairs of a claim and a pharmacy *)

(** The pharmacy rows that carry the [npi] of a claim. *)
Definition partners (pharmacy : DataFrame) (l : row) : list row :=
  List.filter (λ r, key_match (cell l "npi") (cell r "npi")) (records pharmacy).

(** Every claim with every pharmacy row of its [npi]. *)
Definition pairs (pharmacy claims : DataFrame) : list (row * row) :=
  records claims ≫= λ l, (λ r, (l, r)) <$> partners pharmacy l.

(** The (ndc, chain) group of a pair. *)
Definition pair_key (lr : row * row) : list value :=
  [cell lr.1 "ndc"; cell lr.2 "chain"].

Definition pair_has_key (lr : row * row) : bool := forallb notna (pair_key lr).

Definition in_chain_group (k : list value) (lr : row * row) : bool :=
  pair_has_key lr && key_eqb k (pair_key lr).

Definition chain_keys (pharmacy claims : DataFrame) : list (list value) :=
  sort_keys (distinct_keys
               (pair_key <$> List.filter pair_has_key (pairs pharmacy claims))).

(** How many times a claim is in the group [k]: once for each pharmacy
    row of its [npi] that puts it there. *)
Definition times (pharmacy : DataFrame) (k : list value) (l : row) : nat :=
  length (List.filter (λ r, in_chain_group k (l, r)) (partners pharmacy l)).

Definition chain_average (pharmacy claims : DataFrame) (k : list value)
    : exn + ChainGroup :=
  bind_res (mean_cells (records claims
                          ≫= λ l, replicate (times pharmacy k l) (cell l "price")))
           (λ avg, inr (mkGroup (k !!! 0%nat) (k !!! 1%nat) avg)).

(** The row of [merged_data] for a claim and a pharmacy row of its [npi]. *)
Definition chain_row (pharmacy claims : DataFrame) (lr : row * row) : row :=
  joined (plan_merge claims
            (mkDF ["npi"; "chain"]
               (prod_map id (λ r, row_of id (cell r) ["npi"; "chain"])
                  <$> body pharmacy))
            "npi" "npi" ("_x", "_y"))
         lr.1 (Some (row_of id (cell lr.2) ["npi"; "chain"])).

(** *** The ranking of top-quantities, in the words of the specification *)

(** The distinct values of a list, each at its first occurrence. *)
Fixpoint first_occurrences (l : list value) : list value :=
  match l with
  | [] => []
  | x :: l' =>
      x :: List.filter (λ y, negb (bool_decide (y = x))) (first_occurrences l')
  end.

(** How often a value occurs in a list. *)
Definition occurrences (x : value) (l : list value) : nat :=
  length (List.filter (λ y, bool_decide (y = x)) l).

(** The number a quantity stands for: the number it is, or the number
    Python's [float] reads in the string it is. *)
Definition quantity_value (parse_float : string → option Q) (v : value)
    : option Q :=
  match v with
  | VInt z => Some (inject_Z z)
  | VFloat q => Some q
  | VStr s => parse_float s
  | VNone | VNaN => None
  end.

Definition has_number (parse_float : string → option Q) (v : value) : Prop :=
  is_Some (quantity_value parse_float v).

(** A float in its one representation. *)
Definition canonical (v : value) : Prop := ∃ q, v = VFloat (Qred q).

(** The quantity as a float. *)
Definition as_float (parse_float : string → option Q) (v : value) : value :=
  match quantity_value parse_float v with
  | Some q => VFloat (Qred q)
  | None => VNaN
  end.

(** The quantities, as floats, of the claims whose [npi] as a string is
    [v], in table order. *)
Definition quantities_of (float_repr : Q → string)
    (parse_float : string → option Q) (df : DataFrame) (v : value)
    : list value :=
  (λ ir, as_float parse_float (cell ir.2 "quantity"))
    <$> List.filter
          (λ ir, bool_decide (astype_str float_repr (cell ir.2 "npi") = v))
          (body df).

(** A key made of one string. *)
Definition str_key (k : list value) : Prop := ∃ s, k = [VStr s].

(** *** What a directory gives, file by file *)

(** The table of a parsed file. *)
Definition table_of (p : parsed) : option DataFrame :=
  (λ cr, frame_of cr.1 cr.2) <$> p.

(** The table a file of the directory is read to: none for a file whose
    name has not the extension of the file type, and none for a file the
    parser refuses. *)
Definition parsed_file (src : source) (folder_path file_type file_name : string)
    : option DataFrame :=
  if String.eqb file_type "csv" && endswith file_name ".csv" then
    table_of (read_csv src (path_join folder_path file_name))
  else if String.eqb file_type "json" && endswith file_name ".json" then
    table_of (read_json src (path_join folder_path file_name))
  else None.

Definition parsed_files (src : source) (folder_path file_type : string)
    : list DataFrame :=
  omap (parsed_file src folder_path file_type) (listdir src folder_path).

(** The two tables the validator makes of a batch. *)
Definition valid_part (required : list string) (data : DataFrame)
    : option DataFrame :=
  if issubset required (columns data) then Some (dropna data required) else None.

Definition invalid_part (required : list string) (data : DataFrame) : DataFrame :=
  if issubset required (columns data)
  then select data (negb <$> index_isin (index data)
                                        (index (dropna data required)))
  else data.

(** The rows of a batch that pass, and those that do not. *)
Definition valid_rows (required : list string) (data : DataFrame) : list row :=
  if issubset required (columns data)
  then List.filter (complete required) (records data) else [].

Definition invalid_rows (required : list string) (data : DataFrame) : list row :=
  if issubset required (columns data)
  then List.filter (λ r, negb (complete required r)) (records data)
  else records data.

(** *** The referential filter, row by row *)

(** The claim row carries the [npi] of some pharmacy row, both read as
    strings. *)
Definition references (float_repr : Q → string) (company : DataFrame)
    (claim : row) : Prop :=
  ∃ p, p ∈ records company
       ∧ astype_str float_repr (cell claim "npi")
         = astype_str float_repr (cell p "npi").

(** The claim row carries, as it stands, the string of some pharmacy row. *)
Definition references_as_is (float_repr : Q → string) (company : DataFrame)
    (claim : row) : Prop :=
  ∃ p, p ∈ records company
       ∧ cell claim "npi" = astype_str float_repr (cell p "npi").

(** *** What [pd.concat] stores *)

(** A cell and what the concatenated table holds for it: the cell itself,
    or the float of the integer it is, when its column has become a column
    of floats. *)
Definition kept (a b : value) : Prop := b = a ∨ b = upcast a.

Definition row_kept (r r' : row) : Prop := ∀ c, kept (cell r c) (cell r' c).

(** *** What [process_folder] makes of a directory *)

(** The tables of the files of a listing that are read. *)
Definition tables_of (src : source) (folder_path file_type : string)
    (file_names : list string) : list DataFrame :=
  omap (parsed_file src folder_path file_type) file_names.

(** The table it returns and the table it hands to the sink. *)
Definition loaded_table (src : source) (folder_path : string)
    (required : list string) (file_type : string) : DataFrame :=
  concat_or_empty (omap (valid_part required)
                        (parsed_files src folder_path file_type)).

Definition quarantined_table (src : source) (folder_path : string)
    (required : list string) (file_type : string) : DataFrame :=
  concat_or_empty (invalid_part required
                     <$> parsed_files src folder_path file_type).

(** The directory holds a file that is read and has the required columns. *)
Definition has_compliant_file (src : source) (folder_path : string)
    (required : list string) (file_type : string) : Prop :=
  ∃ df, df ∈ parsed_files src folder_path file_type ∧ required ⊆ columns df.

(** *** Reversals that name no claim *)

(** The reversal row names a claim of the table: its [claim_id] is the
    [id] of some claim. *)
Definition names_a_claim (claims : DataFrame) (r : row) : bool :=
  existsb (λ l, key_match (cell l "id") (cell r "claim_id")) (records claims).

(** The reversals table without the rows that name no claim. *)
Definition known_reversals (claims rollbacks : DataFrame) : DataFrame :=
  mkDF (columns rollbacks)
       (List.filter (λ ir, names_a_claim claims ir.2) (body rollbacks)).

(** *** The ranking of top-chains *)

(** A group whose [ndc] is a string, as every group of top-chains is once
    the [ndc] column is converted. *)
Definition str_ndc (g : ChainGroup) : Prop := ∃ s, g_ndc g = VStr s.

(** [b] does not go strictly before [a] in the sorted frame. *)
Definition not_after (a b : ChainGroup) : Prop := chain_before b a = false.

(** The average price of [b] is not above that of [a]; a NaN average is
    below every number. *)
Definition price_not_above (a b : ChainGroup) : Prop :=
  price_gtb (g_avg_price b) (g_avg_price a) = false.

(** The groups of one [ndc]. *)
Definition groups_of (v : value) (groups : list ChainGroup) : list ChainGroup :=
  List.filter (λ g, bool_decide (g_ndc g = v)) groups.

(** The entry of the result for a group. *)
Definition chain_price (g : ChainGroup) : ChainPrice :=
  mkChain (g_chain g) (g_avg_price g).

(** The two tables as top-chains converts them. *)
Definition converted_pharmacy (float_repr : Q → string) (pharmacy : DataFrame)
    : DataFrame :=
  with_column (astype_str float_repr) "npi" pharmacy.

Definition converted_claims (float_repr : Q → string) (claims : DataFrame)
    : DataFrame :=
  with_column (astype_str float_repr) "ndc"
              (with_column (astype_str float_repr) "npi" claims).

(** *** The rows of the summary aggregation *)

(** The (npi, ndc) pair of a row of the result. *)
Definition agg_key (a : AggregateRow) : list value := [agg_npi a; agg_ndc a].

(** Two keys that Python equality does not tell apart. *)
Definition same_key (a b : list value) : Prop := key_eqb a b = true.

(** *** What an analysis hands to the sink *)

(** The sink after a call that returned [r]: the result under [save_path]
    when there is one, and nothing more when the call raised. *)
Definition saved {A} (wrap : A → payload) (save_path : string) (r : exn + A)
    (before : list (string * payload)) : list (string * payload) :=
  match r with
  | inr result => before ++ [(save_path, wrap result)]
  | inl _ => before
  end.

(** *** The two rankings, one after the other *)

(** The result of top-quantities, from the claims table as the two
    conversions leave it. *)
Definition top_quantities_of (df : DataFrame) : list TopQuantityEntry :=
  top_quantity_entry
    <$> ((λ k, (k, group_rows ["npi"] snd k (body df)))
           <$> group_keys ["npi"] (records df)).

(** The row with [f] applied to its cell [c]. *)
Definition with_cell (f : value → value) (c : string) (r : row) : row :=
  <[c := f (cell r c)]> r.

(** *** The summary aggregation after top-chains *)

(** The (npi, ndc) pair of a claim, read as strings. *)
Definition str_pair (float_repr : Q → string) (l : row) : list value :=
  [astype_str float_repr (cell l "npi"); astype_str float_repr (cell l "ndc")].

(** *** The average price of a chain, in the words of the specification *)

(** The pharmacy rows that carry the [npi] of a claim, both read as
    strings. *)
Definition pharmacies_of (float_repr : Q → string) (pharmacy : DataFrame)
    (l : row) : list row :=
  List.filter (λ r, bool_decide (astype_str float_repr (cell r "npi")
                                 = astype_str float_repr (cell l "npi")))
              (records pharmacy).

(** How many times a claim stands in the group of the drug [d] and the
    chain [c]: once for each pharmacy row of its [npi] that is of that
    chain, when the claim is of that drug. *)
Definition stands (float_repr : Q → string) (pharmacy : DataFrame)
    (d c : value) (l : row) : nat :=
  if bool_decide (astype_str float_repr (cell l "ndc") = d)
  then length (List.filter (λ r, bool_decide (cell r "chain" = c))
                           (pharmacies_of float_repr pharmacy l))
  else 0.

(** The prices of the group: the price of every claim, once for each time
    the claim stands in the group; a claim without a price gives none. *)
Definition prices_of (float_repr : Q → string) (pharmacy claims : DataFrame)
    (d c : value) : list Q :=
  records claims ≫= λ l,
    match num_of (cell l "price") with
    | Some q => replicate (stands float_repr pharmacy d c l) q
    | None => []
    end.

(** The arithmetic mean of a list of prices; none (NaN) for no price. *)
Definition mean_of (qs : list Q) : option Q :=
  match qs with
  | [] => None
  | _ => Some (Qred (Qsum qs / inject_Z (Z.of_nat (length qs))))
  end.

(** The world with another store. *)
Definition with_heap (h : list DataFrame) (w : world) : world :=
  mkWorld h (sink w) (logs w).

(** * Sample data

    The tables of [tests/test_data_processor.py], and a few files around
    them, used to run the definitions. *)

Module Sample.

Definition pharmacy_row (chain : string) (npi : value) : row :=
  {[ "chain" := VStr chain; "npi" := npi ]}.

Definition claim_row (id ndc : string) (npi : value) (quantity price : Z)
    (timestamp : string) : row :=
  {[ "id" := VStr id; "ndc" := VStr ndc; "npi" := npi;
     "quantity" := VInt quantity; "price" := VInt price;
     "timestamp" := VStr timestamp ]}.

Definition revert_row (id claim_id timestamp : string) : row :=
  {[ "id" := VStr id; "claim_id" := VStr claim_id;
     "timestamp" := VStr timestamp ]}.

Definition claims_header : list string :=
  ["id"; "ndc"; "npi"; "quantity"; "price"; "timestamp"].

(** [pharmacy1.csv]: [read_csv] reads the digits of [npi] as integers. *)
Definition pharmacy_rows : list row :=
  [pharmacy_row "CVS" (VInt 123); pharmacy_row "Walgreens" (VInt 456)].

(** [claim1.json]: [npi] is a JSON string. *)
Definition claims_rows : list row :=
  [claim_row "1" "drug1" (VStr "123") 30 50 "2023-01-01";
   claim_row "2" "drug2" (VStr "456") 60 100 "2023-01-02"].

Definition reverts_rows : list row := [revert_row "r1" "1" "2023-01-02"].

Definition pharmacy : DataFrame := frame_of ["chain"; "npi"] pharmacy_rows.
Definition claims : DataFrame := frame_of claims_header claims_rows.
Definition reverts : DataFrame := frame_of ["id"; "claim_id"; "timestamp"] reverts_rows.

(** A pharmacy file without the [npi] column. *)
Definition no_npi_rows : list row :=
  [{[ "chain" := VStr "CVS" ]}; {[ "chain" := VStr "Walgreens" ]}].

(** A pharmacy file whose second record has no [npi]. *)
Definition partial_rows : list row :=
  [pharmacy_row "CVS" (VInt 123); pharmacy_row "Rite Aid" VNaN;
   pharmacy_row "Walgreens" (VInt 456)].

Definition files : source := {|
  listdir dir :=
    if String.eqb dir "data/pharmacies" then ["pharmacy1.csv"]
    else if String.eqb dir "data/claims" then ["claim1.json"]
    else if String.eqb dir "data/reverts" then ["revert1.json"]
    else if String.eqb dir "broken/pharmacies" then ["no_npi.csv"]
    else [];
  read_csv path :=
    if String.eqb path "data/pharmacies/pharmacy1.csv"
    then Some (["chain"; "npi"], pharmacy_rows)
    else if String.eqb path "broken/pharmacies/no_npi.csv"
    then Some (["chain"], no_npi_rows)
    else if String.eqb path "partial.csv"
    then Some (["chain"; "npi"], partial_rows)
    else None;
  read_json path :=
    if String.eqb path "data/claims/claim1.json"
    then Some (claims_header, claims_rows)
    else if String.eqb path "data/reverts/revert1.json"
    then Some (["id"; "claim_id"; "timestamp"], reverts_rows)
    else None
|}.

(** Python's [str] of a float and [float] of a string, on the few values
    the samples need. *)
Definition float_repr (q : Q) : string := pretty (Qnum q) +:+ ".0".
Definition parse_float (s : string) : option Q := None.

Definition start : world := mkWorld [] [] [].

(** The claims with [npi] as JSON numbers. *)
Definition numeric_claims : DataFrame :=
  frame_of claims_header
    [claim_row "1" "drug1" (VInt 123) 30 50 "2023-01-01";
     claim_row "2" "drug2" (VInt 456) 60 100 "2023-01-02"].


(** A pharmacy table in which the [npi] 123 is under two chains. *)
Definition shared_npi : DataFrame :=
  frame_of ["chain"; "npi"]
    [pharmacy_row "CVS" (VInt 123); pharmacy_row "Walgreens" (VInt 123);
     pharmacy_row "Rite Aid" (VInt 456)].

(** Claims of one [npi] whose quantities repeat: 30 and 60 twice, then
    10, 20 and 40 once. *)
Definition repeated_claims : DataFrame :=
  frame_of claims_header
    [claim_row "1" "drug1" (VStr "123") 30 50 "2023-01-01";
     claim_row "2" "drug1" (VStr "123") 60 50 "2023-01-02";
     claim_row "3" "drug1" (VStr "123") 30 50 "2023-01-03";
     claim_row "4" "drug1" (VStr "123") 60 50 "2023-01-04";
     claim_row "5" "drug1" (VStr "123") 10 50 "2023-01-05";
     claim_row "6" "drug1" (VStr "123") 20 50 "2023-01-06";
     claim_row "7" "drug1" (VStr "123") 40 50 "2023-01-07"].

(** The three tables in the store, at the addresses 0, 1 and 2. *)
Definition loaded (claims : DataFrame) : world :=
  mkWorld [pharmacy; claims; reverts] [] [].

(** A claims table that kept its header and lost every row. *)
Definition no_rows : DataFrame := mkDF claims_header [].

(** The sample directories with an empty [claims] directory. *)
Definition no_claims : source := {|
  listdir dir :=
    if String.eqb dir "data/claims" then [] else listdir files dir;
  read_csv := read_csv files;
  read_json := read_json files
|}.

End Sample.

(** * Further sample directories *)

Module Cases.

(** The sample directories with an empty [reverts] directory. *)
Definition no_reverts : source := {|
  listdir dir :=
    if String.eqb dir "data/reverts" then [] else listdir Sample.files dir;
  read_csv := read_csv Sample.files;
  read_json := read_json Sample.files
|}.

(** The sample directories with another pharmacy file: none of the claims
    names one of its pharmacies. *)
Definition strangers : source := {|
  listdir := listdir Sample.files;
  read_csv path :=
    if String.eqb path "data/pharmacies/pharmacy1.csv"
    then Some (["chain"; "npi"], [Sample.pharmacy_row "Boots" (VInt 999)])
    else read_csv Sample.files path;
  read_json := read_json Sample.files
|}.

End Cases.

(** * Further sample tables *)

Module Tables.

(** Claims whose second quantity was typed in words. *)
Definition worded_quantity : DataFrame :=
  frame_of Sample.claims_header
    [Sample.claim_row "1" "drug1" (VInt 123) 30 50 "2023-01-01";
     <["quantity" := VStr "sixty"]>
       (Sample.claim_row "2" "drug2" (VInt 456) 60 100 "2023-01-02")].

(** The reversal of the claim 1, and a reversal of a claim 77 that the
    sample claims do not hold. *)
Definition stray_reverts : DataFrame :=
  frame_of ["id"; "claim_id"; "timestamp"]
    [Sample.revert_row "r1" "1" "2023-01-02";
     Sample.revert_row "r9" "77" "2023-01-05"].

End Tables.

(** * A sample for the ranking of chains *)

Module Ranking.

(** Three pharmacies, each of its own chain. *)
Definition pharmacies : DataFrame :=
  frame_of ["chain"; "npi"]
    [Sample.pharmacy_row "CVS" (VInt 123);
     Sample.pharmacy_row "Walgreens" (VInt 456);
     Sample.pharmacy_row "Rite Aid" (VInt 789)].

(** One drug, sold by the three pharmacies at 50, 100 and 70. *)
Definition claims : DataFrame :=
  frame_of Sample.claims_header
    [Sample.claim_row "1" "drug1" (VStr "123") 30 50 "2023-01-01";
     Sample.claim_row "2" "drug1" (VStr "456") 30 100 "2023-01-02";
     Sample.claim_row "3" "drug1" (VStr "789") 30 70 "2023-01-03"].

End Ranking.

(** * A sample without a match *)

Module Unmatched.

(** A pharmacy that none of the sample claims names. *)
Definition pharmacies : DataFrame :=
  frame_of ["chain"; "npi"] [Sample.pharmacy_row "Boots" (VInt 999)].

End Unmatched.

(** * A sample with a missing cell *)

Module Gaps.

(** Two claims, the second without its [ndc]. *)
Definition claims : DataFrame :=
  frame_of Sample.claims_header
    [Sample.claim_row "1" "drug1" (VInt 123) 30 50 "2023-01-01";
     <["ndc" := VNaN]>
       (Sample.claim_row "2" "drug2" (VInt 456) 60 100 "2023-01-02")].

End Gaps.

(** * A directory of three pharmacy files *)

Module Mixed.

(** [late.csv]: the first record has no [npi], so that [read_csv] reads
    the column as floats. *)
Definition late_rows : list row :=
  [Sample.pharmacy_row "Rite Aid" VNaN; Sample.pharmacy_row "Boots" (VFloat 789)].

(** A compliant file, a file without the [npi] column, and a compliant
    file with an incomplete record. *)
Definition files : source := {|
  listdir dir :=
    if String.eqb dir "mixed" then ["good.csv"; "no_npi.csv"; "late.csv"] else [];
  read_csv path :=
    if String.eqb path "mixed/good.csv"
    then Some (["chain"; "npi"], Sample.pharmacy_rows)
    else if String.eqb path "mixed/no_npi.csv"
    then Some (["chain"], Sample.no_npi_rows)
    else if String.eqb path "mixed/late.csv"
    then Some (["chain"; "npi"], late_rows)
    else None;
  read_json path := None
|}.

End Mixed.

(** * Properties *)

(** ** Frames *)

Lemma select_rows_map {A} (f : A → bool) (l : list A) :
  select_rows (f <$> l) l = List.filter f l.
Proof.
  induction l as [|x l IH]; csimpl; [done|].
  destruct (f x); by rewrite IH.
Qed.

Lemma filter_bool_elem {A} (f : A → bool) (l : list A) (x : A) :
  x ∈ List.filter f l ↔ x ∈ l ∧ f x = true.
Proof. rewrite !list_elem_of_In. apply filter_In. Qed.

Lemma filter_bool_split {A} (f : A → bool) (l : list A) :
  List.filter f l ++ List.filter (λ x, negb (f x)) l ≡ₚ l.
Proof.
  induction l as [|x l IH]; simpl; [done|].
  destruct (f x); simpl.
  - by f_equiv.
  - rewrite <- Permutation_middle. by f_equiv.
Qed.

Lemma filter_bool_all {A} (f : A → bool) (l : list A) :
  (∀ x, x ∈ l → f x = true) → List.filter f l = l.
Proof.
  induction l as [|x l IH]; simpl; intros H; [done|].
  rewrite H by left. f_equal. apply IH. intros y Hy. apply H. by right.
Qed.

Lemma range_index_fst (rs : list row) : (range_index rs).*1 = seq 0 (length rs).
Proof. unfold range_index. apply fst_zip. by rewrite length_seq. Qed.

Lemma range_index_snd (rs : list row) : (range_index rs).*2 = rs.
Proof. unfold range_index. apply snd_zip. by rewrite length_seq. Qed.

Lemma range_index_length (rs : list row) : length (range_index rs) = length rs.
Proof.
  unfold range_index. rewrite length_zip, length_seq. lia.
Qed.

Lemma range_index_NoDup (rs : list row) : NoDup (range_index rs).*1.
Proof. rewrite range_index_fst. apply NoDup_seq. Qed.

Lemma label_unique {A B} (l : list (A * B)) x y1 y2 :
  NoDup l.*1 → (x, y1) ∈ l → (x, y2) ∈ l → y1 = y2.
Proof.
  induction l as [|[a b] l IH]; csimpl; intros Hnd H1 H2.
  - by apply elem_of_nil in H1.
  - apply NoDup_cons in Hnd as [Hna Hnd].
    apply elem_of_cons in H1 as [H1|H1], H2 as [H2|H2]; simplify_eq; auto.
    + destruct Hna. apply list_elem_of_fmap. by exists (a, y2).
    + destruct Hna. apply list_elem_of_fmap. by exists (a, y1).
Qed.

(** With distinct labels, a label is among those of the selected rows
    exactly when its own row is selected. *)
Lemma label_of_filtered (f : nat * row → bool) (rows : list (nat * row)) ir :
  NoDup rows.*1 → ir ∈ rows →
  (ir.1 ∈ (List.filter f rows).*1 ↔ f ir = true).
Proof.
  intros Hnd Hin. split.
  - intros (jr & Heq & Hjr)%list_elem_of_fmap.
    apply filter_bool_elem in Hjr as [Hjr Hf].
    assert (ir = jr) as ->; [|done].
    destruct ir as [i r], jr as [j r']; simpl in *; subst j.
    f_equal. eapply label_unique; eauto.
  - intros Hf. apply list_elem_of_fmap. exists ir. split; [done|].
    by apply filter_bool_elem.
Qed.

(** The rows outside [dropna]'s result, found through the index as the
    loaders do, are the rows with a missing required cell. *)
Lemma complement_by_index (f : nat * row → bool) (rows : list (nat * row)) :
  NoDup rows.*1 →
  select_rows (negb <$> index_isin rows.*1 (List.filter f rows).*1) rows
  = List.filter (λ ir, negb (f ir)) rows.
Proof.
  intros Hnd. unfold index_isin.
  rewrite <- !list_fmap_compose.
  transitivity (select_rows ((λ ir, negb (f ir)) <$> rows) rows);
    [|apply select_rows_map].
  f_equal. apply list_fmap_ext; intros k ir Hin%list_elem_of_lookup_2. simpl.
  pose proof (label_of_filtered f rows ir Hnd Hin) as Hlab.
  destruct (f ir); case_bool_decide; simpl; try done.
  - exfalso. tauto.
  - exfalso. apply Hlab in H. done.
Qed.

(** ** The schema validator *)

Section Validator.

Variable src : source.

Lemma issubset_spec (required cols : list string) :
  issubset required cols = true ↔ required ⊆ cols.
Proof.
  unfold issubset. rewrite forallb_forall. split.
  - intros H c Hc. apply list_elem_of_In, H in Hc. by apply bool_decide_eq_true in Hc.
  - intros H c Hc. apply bool_decide_eq_true, H. by apply list_elem_of_In.
Qed.

Lemma complete_spec (required : list string) (r : row) :
  complete required r = true ↔ ∀ c, c ∈ required → isna (cell r c) = false.
Proof.
  unfold complete, notna. rewrite forallb_forall. split.
  - intros H c Hc. apply list_elem_of_In, H in Hc. by apply negb_true_iff.
  - intros H c Hc. apply negb_true_iff, H. by apply list_elem_of_In.
Qed.

Lemma incomplete_spec (required : list string) (r : row) :
  complete required r = false ↔ ∃ c, c ∈ required ∧ isna (cell r c) = true.
Proof.
  unfold complete, notna. induction required as [|c cs IH]; simpl.
  - split; [done|]. intros (c & Hc & _). by apply elem_of_nil in Hc.
  - rewrite andb_false_iff, IH, negb_false_iff. split.
    + intros [H|(c' & Hc' & H)]; [exists c | exists c']; split; auto; by constructor.
    + intros (c' & [->|Hc']%elem_of_cons & H); [by left | right; eauto].
Qed.

(** What [validate] returns on a batch that has every required column. *)
Lemma validate_compliant kind file_path required (data : DataFrame) w :
  issubset required (columns data) = true → NoDup (index data) →
  ∃ w',
    validate kind file_path required data w
    = (inr (Some (mkDF (columns data)
                   (List.filter (λ ir, complete required ir.2) (body data))),
            Some (mkDF (columns data)
                   (List.filter (λ ir, negb (complete required ir.2)) (body data)))),
       w')
    ∧ heap w' = heap w ∧ sink w' = sink w.
Proof.
  intros Hsub Hnd. unfold validate. rewrite Hsub. simpl.
  unfold dropna, select, index. simpl.
  rewrite select_rows_map, complement_by_index by done.
  eexists. split; [reflexivity|]. done.
Qed.

(** C4.  A batch whose header has every required field is split by the
    validator into two tables that are disjoint and together hold every
    row of the batch once, with its content; a row is valid exactly when
    none of its required cells is missing, and invalid otherwise. *)
Theorem validator_partitions_batch (file_path : string)
    (required cols : list string) (rs : list row) (w : world) :
  read_csv src file_path = Some (cols, rs) →
  issubset required cols = true →
  ∃ valid invalid w',
    load_and_validate_csv src file_path required w
    = (inr (Some valid, Some invalid), w')
    ∧ columns valid = cols ∧ columns invalid = cols
    ∧ body valid ++ body invalid ≡ₚ body (frame_of cols rs)
    ∧ len valid + len invalid = length rs
    ∧ (∀ ir, ir ∈ body valid → ir ∉ body invalid)
    ∧ (∀ ir, ir ∈ body (frame_of cols rs) →
         (ir ∈ body valid ↔ ∀ c, c ∈ required → isna (cell ir.2 c) = false)
         ∧ (ir ∈ body invalid ↔ ∃ c, c ∈ required ∧ isna (cell ir.2 c) = true)).
Proof.
  intros Hread Hsub.
  destruct (validate_compliant "CSV" file_path required (frame_of cols rs)
              (mkWorld (heap w) (sink w)
                 (logs w ++ [(INFO, "Loading CSV file: " +:+ file_path)])))
    as (w' & Hrun & _); [done | apply range_index_NoDup |].
  do 3 eexists. split.
  { unfold load_and_validate_csv. rewrite Hread.
    unfold mbind, M_bind, logging at 1. exact Hrun. }
  simpl. split; [done|]. split; [done|].
  pose proof (filter_bool_split (λ ir : nat * row, complete required ir.2)
                (range_index rs)) as Hperm.
  split; [done|]. split.
  { unfold len. simpl. rewrite <- length_app, Hperm. apply range_index_length. }
  split.
  { intros ir [_ H1]%filter_bool_elem [_ H2]%filter_bool_elem.
    rewrite H1 in H2. done. }
  intros ir Hin. rewrite !filter_bool_elem, negb_true_iff.
  rewrite <- complete_spec, <- incomplete_spec. tauto.
Qed.


Lemma union_columns_nil (cols : list string) : union_columns [] cols = cols.
Proof.
  unfold union_columns. simpl. apply filter_bool_all.
  by intros c _.
Qed.

End Validator.

(** The validator on [partial.csv], whose second record has no [npi]. *)
Lemma validator_partitions_batch_witness :
  read_csv Sample.files "partial.csv" = Some (["chain"; "npi"], Sample.partial_rows)
  ∧ issubset ["chain"; "npi"] ["chain"; "npi"] = true
  ∧ ∃ valid invalid w',
      load_and_validate_csv Sample.files "partial.csv" ["chain"; "npi"] Sample.start
      = (inr (Some valid, Some invalid), w')
      ∧ columns valid = ["chain"; "npi"] ∧ columns invalid = ["chain"; "npi"]
      ∧ body valid ++ body invalid
        ≡ₚ body (frame_of ["chain"; "npi"] Sample.partial_rows)
      ∧ len valid + len invalid = length Sample.partial_rows
      ∧ (∀ ir, ir ∈ body valid → ir ∉ body invalid)
      ∧ (∀ ir, ir ∈ body (frame_of ["chain"; "npi"] Sample.partial_rows) →
           (ir ∈ body valid
            ↔ ∀ c, c ∈ ["chain"; "npi"] → isna (cell ir.2 c) = false)
           ∧ (ir ∈ body invalid
              ↔ ∃ c, c ∈ ["chain"; "npi"] ∧ isna (cell ir.2 c) = true)).
Proof.
  split; [reflexivity|]. split; [reflexivity|].
  apply (validator_partitions_batch Sample.files "partial.csv"
           ["chain"; "npi"] ["chain"; "npi"] Sample.partial_rows Sample.start);
    reflexivity.
Defined.

(** ** The summary aggregation *)

(** C1.  On the pharmacy, claims and reversal tables of the test fixture
    the summary aggregation returns two rows: (123, drug1) with fills 30,
    reverted 1, average price 50 and total price 1500, and (456, drug2)
    with fills 60, reverted 0, average price 100 and total price 6000;
    the same whether the claims carry their [npi] as strings or numbers. *)
Theorem perform_analysis_sample :
  (perform_analysis (Some 0) (Some 1) (Some 2) "analysis.json"
                    (Sample.loaded Sample.claims)).1
  = inr [mkAgg (VStr "123") (VStr "drug1") 30 1 (Some 50%Q) 1500;
         mkAgg (VStr "456") (VStr "drug2") 60 0 (Some 100%Q) 6000]
  ∧ (perform_analysis (Some 0) (Some 1) (Some 2) "analysis.json"
                      (Sample.loaded Sample.numeric_claims)).1
    = inr [mkAgg (VInt 123) (VStr "drug1") 30 1 (Some 50%Q) 1500;
           mkAgg (VInt 456) (VStr "drug2") 60 0 (Some 100%Q) 6000].
Proof. split; vm_compute; reflexivity. Qed.

(** C7.  When any of the three tables passed to the summary aggregation is
    [None], it returns the empty list without raising, writes one log
    record saying so, and touches neither the store nor the sink. *)
Theorem perform_analysis_missing_input
    (pharmacy_data claims_data rollbacks_data : option ref)
    (save_path : string) (w : world) :
  pharmacy_data = None ∨ claims_data = None ∨ rollbacks_data = None →
  perform_analysis pharmacy_data claims_data rollbacks_data save_path w
  = (inr [],
     mkWorld (heap w) (sink w)
       (logs w ++ [(INFO, "Claims data, rollbacks data, or pharmacy data is missing.")])).
Proof.
  intros H. unfold perform_analysis.
  destruct claims_data, rollbacks_data, pharmacy_data;
    try reflexivity.
  destruct H as [H|[H|H]]; discriminate.
Qed.

Lemma perform_analysis_missing_input_witness :
  (@None ref = None ∨ Some 1 = @None ref ∨ Some 2 = @None ref)
  ∧ perform_analysis None (Some 1) (Some 2) "analysis.json"
                     (Sample.loaded Sample.claims)
    = (inr [],
       mkWorld [Sample.pharmacy; Sample.claims; Sample.reverts] []
         [(INFO, "Claims data, rollbacks data, or pharmacy data is missing.")]).
Proof.
  split; [by left|].
  apply (perform_analysis_missing_input None (Some 1) (Some 2) "analysis.json"
           (Sample.loaded Sample.claims)).
  by left.
Defined.

(** ** The referential filter *)

Section ReferentialFilter.

Variable float_repr : Q → string.

(** The two outputs of lines 148-150 as filters of the claims rows. *)
Lemma filter_claims_spec (company_data claims_data : DataFrame) :
  "npi" ∈ columns company_data → "npi" ∈ columns claims_data →
  let valid_npi_set :=
    (λ ir, astype_str float_repr (cell ir.2 "npi")) <$> body company_data in
  filter_claims float_repr company_data claims_data
  = inr (mkDF (columns claims_data)
           (List.filter (λ ir, isin_cell valid_npi_set
                                 (astype_str float_repr (cell ir.2 "npi")))
                        (body claims_data)),
         mkDF (columns claims_data)
           (List.filter (λ ir, negb (isin_cell valid_npi_set (cell ir.2 "npi")))
                        (body claims_data))).
Proof.
  intros Hc Hk. unfold filter_claims, getitem.
  rewrite !bool_decide_eq_true_2 by done. simpl.
  unfold select, isin, map_series, column_cells.
  rewrite <- !list_fmap_compose.
  rewrite <- (select_rows_map _ (body claims_data)).
  rewrite <- (select_rows_map (λ ir, negb _) (body claims_data)).
  reflexivity.
Qed.

(** Where every claim carries its [npi] as a string the two outputs do
    partition the claims: the conversion to string changes nothing. *)
Lemma filter_claims_string_npi (company_data claims_data : DataFrame) :
  "npi" ∈ columns company_data → "npi" ∈ columns claims_data →
  (∀ ir, ir ∈ body claims_data → ∃ s, cell ir.2 "npi" = VStr s) →
  ∃ valid invalid,
    filter_claims float_repr company_data claims_data = inr (valid, invalid)
    ∧ body valid ++ body invalid ≡ₚ body claims_data
    ∧ ∀ ir, ir ∈ body valid → ir ∉ body invalid.
Proof.
  intros Hc Hk Hstr. rewrite filter_claims_spec by done.
  do 2 eexists. split; [reflexivity|]. simpl.
  set (S := _ <$> body company_data).
  assert (Heq :
    List.filter (λ ir : nat * row,
                   isin_cell S (astype_str float_repr (cell ir.2 "npi")))
                (body claims_data)
    = List.filter (λ ir : nat * row, isin_cell S (cell ir.2 "npi"))
                  (body claims_data)).
  { apply filter_ext_in. intros ir Hin%list_elem_of_In.
    destruct (Hstr ir Hin) as [x ->]. done. }
  rewrite Heq. split.
  - apply filter_bool_split.
  - intros ir [_ H1]%filter_bool_elem [_ H2]%filter_bool_elem.
    rewrite H1 in H2. done.
Qed.

(** C2.  The code at the failing input: with the pharmacy [npi] read from
    the CSV as the integers 123 and 456 and the claims carrying [npi] as the
    JSON numbers 123 and 456, both claims are in the in-universe output and
    both are in the orphaned output as well. *)
Theorem filter_claims_numeric_npi_in_both :
  ∃ valid invalid,
    filter_claims float_repr Sample.pharmacy Sample.numeric_claims
    = inr (valid, invalid)
    ∧ body valid = body Sample.numeric_claims
    ∧ body invalid = body Sample.numeric_claims.
Proof.
  do 2 eexists. split; [|split]; [vm_compute; reflexivity| |]; reflexivity.
Qed.

End ReferentialFilter.

(** ** The store *)

Lemma bind_run {A B} (m : M A) (f : A → M B) (w w' : world) (x : A) :
  m w = (inr x, w') → (m ≫= f) w = f x w'.
Proof. intros H. unfold mbind, M_bind. by rewrite H. Qed.

Lemma bind_raise {A B} (m : M A) (f : A → M B) (w w' : world) (e : exn) :
  m w = (inl e, w') → (m ≫= f) w = (inl e, w').
Proof. intros H. unfold mbind, M_bind. by rewrite H. Qed.

Lemma save_file_run (data : payload) (file_path : string) (w : world) :
  save_file data file_path w
  = (inr (), mkWorld (heap w) (sink w ++ [(file_path, data)])
                     (logs w ++ [save_log data file_path])).
Proof.
  unfold save_file, mbind, M_bind, hand_over, logging. cbn [heap sink logs].
  by destruct (save_log data file_path).
Qed.

Lemma deref_run (r : ref) (df : DataFrame) (w : world) :
  heap w !! r = Some df → deref r w = (inr df, w).
Proof. intros H. unfold deref. by rewrite H. Qed.

Lemma with_heap_same (w : world) : with_heap (heap w) w = w.
Proof. by destruct w. Qed.

Lemma append_empty_r (s : string) : s +:+ "" = s.
Proof.
  induction s as [|a s IH]; [done|].
  change (String a s +:+ "") with (String a (s +:+ "")). by rewrite IH.
Qed.

Lemma find_present (cols required : list string) :
  (∀ c, c ∈ required → c ∈ cols) →
  List.find (λ c, negb (bool_decide (c ∈ cols))) required = None.
Proof.
  induction required as [|c cs IH]; simpl; intros H; [done|].
  rewrite bool_decide_eq_true_2 by (apply H; left). simpl.
  apply IH. intros c' Hc'. apply H. by right.
Qed.

Lemma set_cells_map (f : value → value) (c : string) (rows : list (nat * row)) :
  set_cells c (prod_map id f <$> ((λ ir, (ir.1, cell ir.2 c)) <$> rows)) rows
  = (λ ir, (ir.1, <[c := f (cell ir.2 c)]> ir.2)) <$> rows.
Proof.
  unfold set_cells. induction rows as [|ir rows IH]; csimpl; [done|].
  by rewrite IH.
Qed.

(** Assigning a converted column back changes that column only. *)
Lemma setitem_map (f : value → value) (c : string) (df : DataFrame) :
  c ∈ columns df →
  setitem df c (map_series f (column_cells df c)) = with_column f c df.
Proof.
  intros Hc. unfold setitem, with_column, map_series, column_cells.
  rewrite bool_decide_eq_true_2 by done. by rewrite set_cells_map.
Qed.

(** [data[c] = data[c].astype(str)] rewrites the object at [data]. *)
Lemma column_to_str_run float_repr (data : ref) (c : string)
    (df : DataFrame) (w : world) :
  heap w !! data = Some df → c ∈ columns df →
  column_to_str float_repr data c w
  = (inr (), with_heap (<[data := with_column (astype_str float_repr) c df]>
                          (heap w)) w).
Proof.
  intros Hd Hc. unfold column_to_str.
  rewrite (bind_run _ _ w w df) by by apply deref_run.
  unfold lift, getitem. rewrite bool_decide_eq_true_2 by done.
  rewrite <- setitem_map by done. reflexivity.
Qed.

Lemma column_to_str_missing float_repr (data : ref) (c : string)
    (df : DataFrame) (w : world) :
  heap w !! data = Some df → c ∉ columns df →
  column_to_str float_repr data c w = (inl (KeyError c), w).
Proof.
  intros Hd Hc. unfold column_to_str.
  rewrite (bind_run _ _ w w df) by by apply deref_run.
  unfold lift, getitem. rewrite bool_decide_eq_false_2 by done.
  reflexivity.
Qed.

Lemma column_to_float_run parse_float (data : ref) (c : string)
    (df : DataFrame) (s' : series) (w : world) :
  heap w !! data = Some df → c ∈ columns df →
  astype_float_series parse_float (column_cells df c) = inr s' →
  column_to_float parse_float data c w
  = (inr (), with_heap (<[data := setitem df c s']> (heap w)) w).
Proof.
  intros Hd Hc Hs. unfold column_to_float.
  rewrite (bind_run _ _ w w df) by by apply deref_run.
  unfold lift, getitem. rewrite bool_decide_eq_true_2 by done.
  unfold mbind, M_bind. rewrite Hs. reflexivity.
Qed.

(** ** The header of a join *)

Lemma left_in_merged_header (left right : DataFrame) (left_on right_on rs c : string) :
  c ∈ columns left →
  c ∈ merged_header (plan_merge left right left_on right_on ("", rs)).
Proof.
  intros Hc. unfold merged_header, plan_merge. simpl.
  apply elem_of_app. left. apply list_elem_of_fmap. exists c. split; [|done].
  unfold rename_overlap. case_bool_decide; [by rewrite append_empty_r | done].
Qed.

Lemma claim_id_in_merged_header (left right : DataFrame) :
  "claim_id" ∈ columns right →
  "claim_id" ∈ merged_header
                 (plan_merge left right "id" "claim_id" ("", "_rollback")).
Proof.
  intros Hc. destruct (decide ("claim_id" ∈ columns left)) as [Hl|Hl].
  { by apply left_in_merged_header. }
  unfold merged_header, plan_merge. simpl.
  apply elem_of_app. right. apply list_elem_of_fmap. exists "claim_id".
  split; [|done]. unfold rename_overlap. by rewrite bool_decide_eq_false_2.
Qed.

Lemma issubset_elem (required cols : list string) (c : string) :
  issubset required cols = true → c ∈ required → c ∈ cols.
Proof. intros H Hc. by apply (proj1 (issubset_spec required cols) H). Qed.

(** ** Tables without rows *)

(** C3, the code at the failing inputs.  With a claims directory that
    holds no file, the claims table is [pd.DataFrame()], which has no
    column: the run stops with [KeyError: 'npi'] in the referential
    filter, after the two quarantine tables and before any analysis.  With
    claims that all name an unknown pharmacy, the claims table keeps its
    columns and has no row: the referential filter and the summary
    aggregation run and give empty outputs, then top-chains raises
    [AttributeError] and the run stops; top-quantities is never reached
    and no ranking is saved.  Top-chains raises the same on any claims
    table that has its columns and no row. *)
Theorem empty_tables_abort_the_run :
  (∃ w', run Sample.float_repr Sample.parse_float Sample.no_claims "today"
             "data" Sample.start
         = (inl (KeyError "npi"), w')
         ∧ heap w' = []
         ∧ (sink w').*1 = ["invalid_company.csv"; "invalid_claims.json"])
  ∧ (∃ w', run Sample.float_repr Sample.parse_float Cases.strangers "today"
               "data" Sample.start
           = (inl AttributeError, w')
           ∧ (λ df, (columns df, body df)) <$> heap w' !! 1
             = Some (Sample.claims_header, [])
           ∧ (sink w').*1
             = ["invalid_company.csv"; "invalid_claims.json";
                "data/invalid_records/invalid_claims.json";
                "data/invalid_records/invalid_rollback.json";
                "results/analysis_result_today.json"]
           ∧ (sink w').*2 !! 4 = Some (PAnalysis []))
  ∧ (calculate_top_chains Sample.float_repr 0 1 "results/top_chains.json"
       (Sample.loaded Sample.no_rows)).1
    = inl AttributeError.
Proof.
  split; [|split].
  - eexists. split; [vm_compute; reflexivity|]. split; reflexivity.
  - eexists. split; [vm_compute; reflexivity|]. repeat split; reflexivity.
  - vm_compute. reflexivity.
Qed.

(** ** What the analyses do to the tables of their caller *)

Section CallerTables.

Variable float_repr : Q → string.
Variable parse_float : string → option Q.

Lemma astype_float_series_ok (s : series) :
  Forall (λ iv, convertible parse_float iv.2) s →
  astype_float_series parse_float s = inr (map_series (to_float parse_float) s).
Proof.
  unfold astype_float_series, map_series.
  induction 1 as [|[i v] s [x Hx] _ IH]; csimpl; [done|].
  simpl in Hx. rewrite Hx. simpl. rewrite IH. simpl.
  unfold to_float. by rewrite Hx.
Qed.

Lemma with_column_columns f c df : columns (with_column f c df) = columns df.
Proof. done. Qed.

Lemma with_column_index f c df : index (with_column f c df) = index df.
Proof.
  unfold index, with_column. simpl. rewrite <- list_fmap_compose.
  by apply list_fmap_ext.
Qed.

(** The other columns keep their cells. *)
Lemma with_column_other f c c' df :
  c ≠ c' → column_cells (with_column f c df) c' = column_cells df c'.
Proof.
  intros Hne. unfold column_cells, with_column. simpl.
  rewrite <- list_fmap_compose. apply list_fmap_ext. intros i [l r] _. simpl.
  unfold cell. by rewrite lookup_insert_ne.
Qed.

(** The column itself holds the converted cells. *)
Lemma with_column_same f c df :
  column_cells (with_column f c df) c = map_series f (column_cells df c).
Proof.
  unfold column_cells, with_column, map_series. simpl.
  rewrite <- !list_fmap_compose. apply list_fmap_ext. intros i [l r] _. simpl.
  unfold cell. by rewrite lookup_insert_eq.
Qed.

Abbreviation normalised := (normalised_claims float_repr parse_float).

(** A run of top-quantities that passes the guard and the conversions:
    its result, and the world after. *)
Lemma top_quantities_run (claims_data : ref) (save_path : string)
    (df : DataFrame) (w : world) :
  heap w !! claims_data = Some df →
  "npi" ∈ columns df → "quantity" ∈ columns df →
  (∀ ir, ir ∈ body df → convertible parse_float (cell ir.2 "quantity")) →
  let result :=
    top_quantity_entry
      <$> ((λ k, (k, group_rows ["npi"] snd k (body (normalised df))))
             <$> group_keys ["npi"] (records (normalised df))) in
  calculate_top_prescribed_quantities float_repr parse_float claims_data
                                      save_path w
  = (inr result,
     mkWorld (<[claims_data := normalised df]> (heap w))
             (sink w ++ [(save_path, PTopQuantities result)])
             (logs w ++ [save_log (PTopQuantities result) save_path])).
Proof.
  intros Hd Hn Hq Hconv result.
  unfold calculate_top_prescribed_quantities.
  rewrite (bind_run _ _ w w df) by by apply deref_run.
  rewrite find_present
    by (intros c [->|[->|[]%elem_of_nil]%elem_of_cons]%elem_of_cons; done).
  pose proof (lookup_lt_Some _ _ _ Hd) as Hlt.
  set (df1 := with_column (astype_str float_repr) "npi" df).
  erewrite bind_run; [|by apply (column_to_str_run _ _ _ df)].
  fold df1.
  erewrite bind_run; last first.
  { apply (column_to_float_run _ _ _ df1
             (map_series (to_float parse_float) (column_cells df1 "quantity"))).
    - simpl. by apply list_lookup_insert_eq.
    - done.
    - apply astype_float_series_ok. unfold df1.
      rewrite with_column_other by done. unfold column_cells.
      apply Forall_fmap, Forall_forall. intros ir Hir. simpl. by apply Hconv. }
  rewrite setitem_map by done. simpl. rewrite list_insert_insert_eq.
  fold (normalised_claims float_repr parse_float df).
  erewrite bind_run; last first.
  { apply deref_run. simpl. by apply list_lookup_insert_eq. }
  unfold lift, groupby.
  rewrite find_present
    by (intros c [->|[]%elem_of_nil]%elem_of_cons; done).
  erewrite bind_run; [|reflexivity].
  erewrite bind_run; [|apply save_file_run].
  reflexivity.
Qed.

(** The summary aggregation never writes to the store. *)
Lemma perform_analysis_heap pharmacy_data claims_data rollbacks_data save_path w :
  heap (perform_analysis pharmacy_data claims_data rollbacks_data save_path w).2
  = heap w.
Proof.
  unfold perform_analysis.
  destruct claims_data as [c|], rollbacks_data as [r|], pharmacy_data as [p|];
    try reflexivity.
  unfold mbind, M_bind, deref, lift.
  destruct (heap w !! c); [|done]. destruct (heap w !! r); [|done].
  destruct (analysis _ _); reflexivity.
Qed.

(** Top-chains rewrites three columns of its two arguments, whatever
    comes of the rest of the analysis. *)
Lemma top_chains_heap (pharmacy_data claims_data : ref) (save_path : string)
    (pharmacy claims : DataFrame) (w : world) :
  pharmacy_data ≠ claims_data →
  heap w !! pharmacy_data = Some pharmacy →
  heap w !! claims_data = Some claims →
  "npi" ∈ columns pharmacy → "npi" ∈ columns claims → "ndc" ∈ columns claims →
  heap (calculate_top_chains float_repr pharmacy_data claims_data save_path w).2
  = <[claims_data := with_column (astype_str float_repr) "ndc"
                       (with_column (astype_str float_repr) "npi" claims)]>
      (<[pharmacy_data := with_column (astype_str float_repr) "npi" pharmacy]>
         (heap w)).
Proof.
  intros Hne Hp Hc Hpn Hcn Hcd. unfold calculate_top_chains.
  pose proof (lookup_lt_Some _ _ _ Hc) as Hlt.
  erewrite bind_run; [|by apply (column_to_str_run _ _ _ pharmacy)].
  erewrite bind_run; last first.
  { apply (column_to_str_run _ _ _ claims); [|done].
    simpl. by rewrite list_lookup_insert_ne. }
  erewrite bind_run; last first.
  { apply (column_to_str_run _ _ _
             (with_column (astype_str float_repr) "npi" claims)); [|done].
    simpl. apply list_lookup_insert_eq. by rewrite length_insert. }
  simpl. rewrite list_insert_insert_eq.
  erewrite bind_run; last first.
  { apply deref_run. simpl. rewrite list_lookup_insert_ne by done.
    apply list_lookup_insert_eq. by eapply lookup_lt_Some. }
  erewrite bind_run; last first.
  { apply deref_run. simpl. apply list_lookup_insert_eq.
    by rewrite length_insert. }
  unfold mbind, M_bind, lift.
  destruct (grouped_chains _ _) as [e|grouped_data]; [reflexivity|].
  destruct (sort_values grouped_data); reflexivity.
Qed.

(** C8, as the code has it.  The summary aggregation leaves every table of
    the store as it was.  Top-quantities and top-chains assign to columns
    of the tables they are given: top-quantities leaves the caller's claims
    table with [npi] as strings and [quantity] as floats, top-chains leaves
    the pharmacy table with [npi] as strings and the claims table with
    [npi] and [ndc] as strings.  The header, the index and every other
    column of these tables are unchanged, and so is every other table. *)
Theorem analyses_and_caller_tables :
  (∀ pharmacy_data claims_data rollbacks_data save_path w,
     heap (perform_analysis pharmacy_data claims_data rollbacks_data
                            save_path w).2 = heap w)
  ∧ (∀ claims_data save_path claims w,
       heap w !! claims_data = Some claims →
       "npi" ∈ columns claims → "quantity" ∈ columns claims →
       (∀ ir, ir ∈ body claims → convertible parse_float (cell ir.2 "quantity")) →
       heap (calculate_top_prescribed_quantities float_repr parse_float
               claims_data save_path w).2
       = <[claims_data := normalised claims]> (heap w))
  ∧ (∀ pharmacy_data claims_data save_path pharmacy claims w,
       pharmacy_data ≠ claims_data →
       heap w !! pharmacy_data = Some pharmacy →
       heap w !! claims_data = Some claims →
       "npi" ∈ columns pharmacy → "npi" ∈ columns claims →
       "ndc" ∈ columns claims →
       heap (calculate_top_chains float_repr pharmacy_data claims_data
                                  save_path w).2
       = <[claims_data := with_column (astype_str float_repr) "ndc"
                            (with_column (astype_str float_repr) "npi" claims)]>
           (<[pharmacy_data := with_column (astype_str float_repr) "npi"
                                 pharmacy]> (heap w)))
  ∧ (∀ f c df,
       columns (with_column f c df) = columns df
       ∧ index (with_column f c df) = index df
       ∧ column_cells (with_column f c df) c = map_series f (column_cells df c)
       ∧ ∀ c', c ≠ c' → column_cells (with_column f c df) c' = column_cells df c').
Proof.
  split; [|split; [|split]].
  - apply perform_analysis_heap.
  - intros r path df w Hd Hn Hq Hconv.
    by rewrite (top_quantities_run r path df w).
  - intros. by apply top_chains_heap.
  - intros f c df. split; [done|]. split; [apply with_column_index|].
    split; [apply with_column_same|]. intros c' Hne.
    by apply with_column_other.
Qed.

End CallerTables.

(** C8 as the claim states it fails: after top-quantities the caller's
    claims table holds its quantities as floats, and after top-chains the
    caller's pharmacy table holds its [npi] as strings. *)
Lemma analyses_overwrite_caller_columns :
  (λ df, (column_cells df "quantity").*2)
    <$> heap (Sample.loaded Sample.claims) !! 1
  = Some [VInt 30; VInt 60]
  ∧ (λ df, (column_cells df "quantity").*2)
      <$> heap (calculate_top_prescribed_quantities Sample.float_repr
                  Sample.parse_float 1 "out.json"
                  (Sample.loaded Sample.claims)).2 !! 1
    = Some [VFloat 30; VFloat 60]
  ∧ (λ df, (column_cells df "npi").*2)
      <$> heap (Sample.loaded Sample.claims) !! 0
    = Some [VInt 123; VInt 456]
  ∧ (λ df, (column_cells df "npi").*2)
      <$> heap (calculate_top_chains Sample.float_repr 0 1 "out.json"
                  (Sample.loaded Sample.claims)).2 !! 0
    = Some [VStr "123"; VStr "456"].
Proof. repeat split; vm_compute; reflexivity. Qed.

Lemma analyses_and_caller_tables_witness :
  heap (Sample.loaded Sample.claims) !! 1 = Some Sample.claims
  ∧ heap (calculate_top_prescribed_quantities Sample.float_repr
            Sample.parse_float 1 "out.json" (Sample.loaded Sample.claims)).2
    = [Sample.pharmacy;
       normalised_claims Sample.float_repr Sample.parse_float Sample.claims;
       Sample.reverts]
  ∧ heap (calculate_top_chains Sample.float_repr 0 1 "out.json"
            (Sample.loaded Sample.claims)).2
    = [with_column (astype_str Sample.float_repr) "npi" Sample.pharmacy;
       with_column (astype_str Sample.float_repr) "ndc"
         (with_column (astype_str Sample.float_repr) "npi" Sample.claims);
       Sample.reverts].
Proof.
  destruct (analyses_and_caller_tables Sample.float_repr Sample.parse_float)
    as (_ & Hquantities & Hchains & _).
  assert (Hin : ∀ c df, bool_decide (c ∈ columns df) = true → c ∈ columns df)
    by (intros c df; apply bool_decide_eq_true_1).
  split; [reflexivity|]. split.
  - rewrite (Hquantities 1 "out.json" Sample.claims (Sample.loaded Sample.claims)
               eq_refl (Hin "npi" Sample.claims eq_refl)
               (Hin "quantity" Sample.claims eq_refl)); [reflexivity|].
    intros ir Hir.
    apply (proj1 (Forall_forall
                    (λ ir, convertible Sample.parse_float (cell ir.2 "quantity"))
                    (body Sample.claims))); [|exact Hir].
    repeat constructor; eexists; reflexivity.
  - rewrite (Hchains 0 1 "out.json" Sample.pharmacy Sample.claims
               (Sample.loaded Sample.claims) ltac:(discriminate) eq_refl eq_refl
               (Hin "npi" Sample.pharmacy eq_refl)
               (Hin "npi" Sample.claims eq_refl)
               (Hin "ndc" Sample.claims eq_refl)).
    reflexivity.
Defined.

(** ** Joins *)

Lemma row_of_lookup (f : string → string) (g : string → value)
    (names : list string) (c : string) :
  NoDup (f <$> names) → c ∈ names → row_of f g names !! f c = Some (g c).
Proof.
  unfold row_of. induction names as [|a names IH]; csimpl; intros Hnd Hc.
  - by apply elem_of_nil in Hc.
  - apply NoDup_cons in Hnd as [Hna Hnd].
    apply elem_of_cons in Hc as [->|Hc]; [by rewrite lookup_insert_eq|].
    rewrite lookup_insert_ne; [by apply IH|].
    intros Heq. apply Hna. rewrite Heq. apply list_elem_of_fmap. eauto.
Qed.

Lemma row_of_lookup_None (f : string → string) (g : string → value)
    (names : list string) (k : string) :
  k ∉ f <$> names → row_of f g names !! k = None.
Proof.
  unfold row_of. induction names as [|a names IH]; csimpl; intros Hk; [done|].
  apply not_elem_of_cons in Hk as [Hne Hk].
  rewrite lookup_insert_ne by done. by apply IH.
Qed.

(** A joined row reads the left cells under the left names. *)
Lemma joined_left_cell (p : merge_plan) (l : row) (r : option row) (c : string) :
  NoDup (merged_header p) → c ∈ left_names p →
  cell (joined p l r) (left_rename p c) = cell l c.
Proof.
  intros [Hl _]%NoDup_app Hc. unfold cell, joined.
  erewrite lookup_union_Some_l; [done|]. by apply row_of_lookup.
Qed.

(** It reads the right cells under the right names, NaN without a match. *)
Lemma joined_right_cell (p : merge_plan) (l : row) (r : option row) (c : string) :
  NoDup (merged_header p) → c ∈ right_names p →
  cell (joined p l r) (right_rename p c)
  = match r with Some r => cell r c | None => VNaN end.
Proof.
  intros (_ & Hdisj & Hr)%NoDup_app Hc. unfold cell at 1, joined.
  rewrite lookup_union_r.
  - rewrite row_of_lookup by done. by destruct r.
  - apply row_of_lookup_None. intros Hin. apply (Hdisj _ Hin).
    apply list_elem_of_fmap. eauto.
Qed.

Lemma join_row_length_left (p : merge_plan) (right : DataFrame)
    (left_on right_on : string) (l : row) :
  length (join_row LeftJoin p right left_on right_on l)
  = Nat.max 1 (length (matches right right_on (cell l left_on))).
Proof.
  unfold join_row. destruct (matches _ _ _) as [|m ms]; [done|].
  rewrite length_fmap. simpl. lia.
Qed.

Lemma join_row_length_inner (p : merge_plan) (right : DataFrame)
    (left_on right_on : string) (l : row) :
  length (join_row InnerJoin p right left_on right_on l)
  = length (matches right right_on (cell l left_on)).
Proof.
  unfold join_row. destruct (matches _ _ _) as [|m ms]; [done|].
  by rewrite length_fmap.
Qed.

(** Headers without a repeated name give no clash of suffixes. *)
Lemma header_no_clash (p : merge_plan) :
  NoDup (merged_header p) → suffix_clash p = false.
Proof.
  intros (Hl & _ & Hr)%NoDup_app. unfold suffix_clash.
  by rewrite !(bool_decide_eq_true_2 (NoDup (_ <$> _))), !andb_false_r.
Qed.

(** A merge that passes the checks. *)
Lemma merge_run (left right : DataFrame) (left_on right_on : string) (h : how)
    (suffixes : string * string) :
  left_on ∈ columns left → right_on ∈ columns right →
  keys_clash (key_cells left left_on) (key_cells right right_on) = false →
  NoDup (merged_header (plan_merge left right left_on right_on suffixes)) →
  merge left right left_on right_on h suffixes
  = inr (frame_of (merged_header
                     (plan_merge left right left_on right_on suffixes))
           (records left
              ≫= join_row h (plan_merge left right left_on right_on suffixes)
                   right left_on right_on)).
Proof.
  intros Hl Hr Hk Hnd. unfold merge.
  rewrite (bool_decide_eq_true_2 _ Hl), (bool_decide_eq_true_2 _ Hr), Hk.
  cbn [negb]. rewrite (header_no_clash _ Hnd).
  by rewrite (bool_decide_eq_true_2 (NoDup _)).
Qed.

(** A merge that returns has passed the check of its keys. *)
Lemma merge_keys_ok (left right : DataFrame) (left_on right_on : string)
    (h : how) (suffixes : string * string) (df : DataFrame) :
  merge left right left_on right_on h suffixes = inr df →
  keys_clash (key_cells left left_on) (key_cells right right_on) = false.
Proof.
  unfold merge. repeat case_match; try done.
Qed.

(** Key columns of strings pass the check. *)
Lemma string_keys_ok (lk rk : list value) :
  Forall (λ v, is_str v = true) lk → Forall (λ v, is_str v = true) rk →
  keys_clash lk rk = false.
Proof.
  intros Hl Hr. unfold keys_clash.
  destruct lk as [|a lk]; [done|]. destruct rk as [|b rk]; [done|].
  apply Forall_cons in Hl as [Ha _]. apply Forall_cons in Hr as [Hb _].
  destruct a; try done. destruct b; try done.
  cbn [forallb is_numeric andb orb]. by rewrite !andb_false_r.
Qed.

(** ** Groups *)

Lemma filter_bool_bind {A B} (P : B → bool) (P' : A → bool) (g : A → list B)
    (xs : list A) :
  (∀ x y, x ∈ xs → y ∈ g x → P y = P' x) →
  List.filter P (xs ≫= g) = List.filter P' xs ≫= g.
Proof.
  induction xs as [|x xs IH]; csimpl; intros H; [done|].
  rewrite List.filter_app, IH by (intros; apply H; [by right|done]).
  destruct (P' x) eqn:Hx; csimpl; f_equal.
  - apply filter_bool_all. intros y Hy. rewrite (H x y); [done|by left|done].
  - assert (Hnone : ∀ l : list B, (∀ y, y ∈ l → P y = false) →
                    List.filter P l = []).
    { induction l as [|y l IHl]; simpl; intros Hl; [done|].
      rewrite Hl by left. apply IHl. intros. apply Hl. by right. }
    rewrite Hnone; [done|].
    intros y Hy. rewrite (H x y); [done|by left|done].
Qed.

Lemma filter_bool_snd {A B} (P : B → bool) (l : list (A * B)) :
  (List.filter (λ x, P x.2) l).*2 = List.filter P l.*2.
Proof.
  induction l as [|[a b] l IH]; csimpl; [done|].
  destruct (P b); csimpl; by rewrite IH.
Qed.

Lemma filter_bool_twice {A} (P : A → bool) (l : list A) :
  List.filter P (List.filter P l) = List.filter P l.
Proof.
  apply filter_bool_all. intros x Hx. by apply filter_bool_elem in Hx as [_ ?].
Qed.

Lemma fmap_constant {A B} (f : A → B) (k : B) (l : list A) :
  (∀ y, y ∈ l → f y = k) → f <$> l = replicate (length l) k.
Proof.
  induction l as [|y l IH]; csimpl; intros H; [done|].
  rewrite H by left. f_equal. apply IH. intros. apply H. by right.
Qed.

Lemma distinct_keys_replicate (k : list value) (n : nat) (ks : list (list value)) :
  key_eqb k k = true →
  distinct_keys (replicate (S n) k ++ ks)
  = k :: List.filter (λ k', negb (key_eqb k k')) (distinct_keys ks).
Proof.
  intros Hrefl. induction n as [|n IH]; [done|].
  change (replicate (S (S n)) k ++ ks) with (k :: (replicate (S n) k ++ ks)).
  cbn [distinct_keys]. rewrite IH. cbn [List.filter]. rewrite Hrefl. simpl.
  by rewrite filter_bool_twice.
Qed.

(** Rows that repeat the key of the row they come from do not change the
    distinct keys or their order. *)
Lemma distinct_keys_expand {A B} (key : A → list value) (key' : B → list value)
    (g : A → list B) (xs : list A) :
  (∀ x, x ∈ xs → key_eqb (key x) (key x) = true) →
  (∀ x, x ∈ xs → g x ≠ []) →
  (∀ x y, x ∈ xs → y ∈ g x → key' y = key x) →
  distinct_keys (key' <$> (xs ≫= g)) = distinct_keys (key <$> xs).
Proof.
  induction xs as [|x xs IH]; csimpl; intros Hrefl Hne Hkey; [done|].
  rewrite fmap_app.
  rewrite (fmap_constant key' (key x) (g x))
    by (intros; apply Hkey; [by left|done]).
  assert (IH' : distinct_keys (key' <$> (xs ≫= g)) = distinct_keys (key <$> xs)).
  { apply IH; intros; [apply Hrefl|apply Hne|eapply Hkey]; eauto; by right. }
  specialize (Hne x ltac:(by left)).
  destruct (g x) as [|y ys]; [done|].
  change (length (y :: ys)) with (S (length ys)).
  rewrite distinct_keys_replicate by (apply Hrefl; by left).
  by rewrite IH'.
Qed.

(** In a frame with distinct labels [loc] finds the row it is asked for. *)
Lemma loc_row (df : DataFrame) (i : nat) (r : row) (c : string) :
  NoDup (index df) → (i, r) ∈ body df → loc df i c = cell r c.
Proof.
  unfold loc, index. destruct df as [cols rows]. simpl.
  induction rows as [|[j r'] rows IH]; csimpl; intros Hnd Hin.
  - by apply elem_of_nil in Hin.
  - apply NoDup_cons in Hnd as [Hj Hnd].
    apply elem_of_cons in Hin as [[= -> ->]|Hin].
    + by rewrite Nat.eqb_refl.
    + destruct (Nat.eqb_spec j i) as [->|Hne]; [|by apply IH].
      destruct Hj. apply list_elem_of_fmap. by exists (i, r).
Qed.

Lemma cell_eqb_refl (v : value) : notna v = true → cell_eqb v v = true.
Proof.
  destruct v; simpl; try done; intros _.
  - apply Qeq_bool_refl.
  - apply Qeq_bool_refl.
  - by apply bool_decide_eq_true.
Qed.

Lemma key_eqb_refl (k : list value) : forallb notna k = true → key_eqb k k = true.
Proof.
  induction k as [|v k IH]; simpl; [done|].
  intros [Hv Hk]%andb_true_iff. by rewrite cell_eqb_refl, IH.
Qed.

Lemma fmap_bind {A B C} (f : B → C) (g : A → list B) (l : list A) :
  f <$> (l ≫= g) = l ≫= (λ x, f <$> g x).
Proof.
  induction l as [|x l IH]; csimpl; [done|]. by rewrite fmap_app, IH.
Qed.

Lemma bind_ext_elem {A B} (g g' : A → list B) (l : list A) :
  (∀ x, x ∈ l → g x = g' x) → l ≫= g = l ≫= g'.
Proof.
  induction l as [|x l IH]; csimpl; intros H; [done|].
  rewrite H by left. f_equal. apply IH. intros. apply H. by right.
Qed.

Lemma rename_empty_suffix (others : list string) (c : string) :
  rename_overlap others "" c = c.
Proof.
  unfold rename_overlap. case_bool_decide; [apply append_empty_r|done].
Qed.

Lemma map_res_fmap {A B C} (f : B → exn + C) (g : A → B) (l : list A) :
  map_res f (g <$> l) = map_res (λ x, f (g x)) l.
Proof. induction l as [|x l IH]; csimpl; [done|]. by rewrite IH. Qed.

Lemma map_res_ext {A B} (f g : A → exn + B) (l : list A) :
  (∀ x, x ∈ l → f x = g x) → map_res f l = map_res g l.
Proof.
  induction l as [|x l IH]; simpl; intros H; [done|].
  rewrite H by left. rewrite IH; [done|]. intros. apply H. by right.
Qed.

Lemma group_keys_expand (keys : list string) (g : row → list row)
    (rows : list row) :
  (∀ l, l ∈ rows → g l ≠ []) →
  (∀ l y, l ∈ rows → y ∈ g l → key_of keys y = key_of keys l) →
  group_keys keys (rows ≫= g) = group_keys keys rows.
Proof.
  intros Hne Hkey. unfold group_keys. f_equal.
  rewrite (filter_bool_bind _ (has_key keys)).
  - apply distinct_keys_expand.
    + intros l [_ Hl]%filter_bool_elem. by apply key_eqb_refl.
    + intros l [Hl _]%filter_bool_elem. by apply Hne.
    + intros l y [Hl _]%filter_bool_elem Hy. by apply Hkey.
  - intros l y Hl Hy. unfold has_key. by rewrite (Hkey l y).
Qed.

(** ** The fan-out of the summary aggregation *)

Section FanOut.

Variables claims rollbacks : DataFrame.

#[local] Abbreviation plan :=
  (plan_merge claims rollbacks "id" "claim_id" ("", "_rollback")).

Hypothesis header_ok : NoDup (merged_header plan).
Hypothesis claims_columns :
  issubset ["id"; "npi"; "ndc"; "quantity"; "price"] (columns claims) = true.
Hypothesis claim_id_right : "claim_id" ∈ columns rollbacks.
Hypothesis claim_id_not_left : "claim_id" ∉ columns claims.
Hypothesis keys_ok :
  keys_clash (key_cells claims "id") (key_cells rollbacks "claim_id") = false.

Lemma claims_column (c : string) :
  c ∈ ["id"; "npi"; "ndc"; "quantity"; "price"] → c ∈ columns claims.
Proof. by apply issubset_elem. Qed.

(** A joined row keeps the cells of its claim. *)
Lemma joined_claim_cell (l : row) (r : option row) (c : string) :
  c ∈ columns claims → cell (joined plan l r) c = cell l c.
Proof.
  intros Hc.
  rewrite <- (joined_left_cell plan l r c) by done.
  simpl. by rewrite rename_empty_suffix.
Qed.

Lemma joined_claim_id (l : row) (r : option row) :
  cell (joined plan l r) "claim_id"
  = match r with Some r => cell r "claim_id" | None => VNaN end.
Proof.
  rewrite <- (joined_right_cell plan l r "claim_id") by done.
  simpl. unfold rename_overlap. by rewrite bool_decide_eq_false_2.
Qed.

Lemma joined_rows_cell (l y : row) (c : string) :
  c ∈ ["npi"; "ndc"; "quantity"; "price"] → y ∈ joined_rows claims rollbacks l →
  cell y c = cell l c.
Proof.
  intros Hc (j & -> & Hj)%list_elem_of_fmap.
  assert (Hne : "rollback_flag" ≠ c) by set_solver.
  assert (Hcol : c ∈ columns claims) by (apply claims_column; set_solver).
  unfold flagged, cell at 1. rewrite lookup_insert_ne by done.
  fold (cell j c). unfold join_row in Hj.
  destruct (matches _ _ _) as [|m ms].
  - apply list_elem_of_singleton in Hj as ->. by apply joined_claim_cell.
  - apply list_elem_of_fmap in Hj as (r & -> & _). by apply joined_claim_cell.
Qed.

Lemma joined_rows_length (l : row) :
  length (joined_rows claims rollbacks l) = joined_copies rollbacks l.
Proof.
  unfold joined_rows. rewrite length_fmap. apply join_row_length_left.
Qed.

Lemma joined_rows_flags (l : row) :
  (λ y, cell y "rollback_flag") <$> joined_rows claims rollbacks l
  = joined_flags rollbacks l.
Proof.
  unfold joined_rows, joined_flags, join_row.
  destruct (matches _ _ _) as [|m ms].
  - csimpl. unfold flagged, cell at 1. rewrite lookup_insert_eq. simpl.
    by rewrite joined_claim_id.
  - rewrite <- !list_fmap_compose. apply list_fmap_ext. intros i r _. simpl.
    unfold flagged, cell at 1. rewrite lookup_insert_eq. simpl.
    by rewrite joined_claim_id.
Qed.

(** What a function of the four claim columns sees in the joined rows. *)
Lemma joined_rows_view {A} (v : row → A) (group : list row) :
  (∀ l y, y ∈ joined_rows claims rollbacks l → v y = v l) →
  v <$> (group ≫= joined_rows claims rollbacks)
  = v <$> (group ≫= λ l, replicate (joined_copies rollbacks l) l).
Proof.
  intros Hv. rewrite !fmap_bind. apply bind_ext_elem. intros l _.
  rewrite (fmap_constant v (v l)) by apply Hv.
  by rewrite joined_rows_length, fmap_replicate.
Qed.

#[local] Abbreviation combined_rows := (combined_body claims rollbacks).

Lemma combined_rows_records :
  combined_rows.*2 = records claims ≫= joined_rows claims rollbacks.
Proof.
  unfold combined_body, joined_rows. rewrite <- list_fmap_compose.
  set (R := records claims ≫= _).
  transitivity (flagged <$> (range_index R).*2).
  { rewrite <- list_fmap_compose. by apply list_fmap_ext. }
  rewrite range_index_snd. apply fmap_bind.
Qed.

Lemma combined_rows_index : NoDup combined_rows.*1.
Proof.
  unfold combined_body. rewrite <- list_fmap_compose.
  rewrite (list_fmap_ext _ fst _) by done. apply range_index_NoDup.
Qed.

Lemma merge_claims_rollbacks :
  merge claims rollbacks "id" "claim_id" LeftJoin ("", "_rollback")
  = inr (frame_of (merged_header plan)
           (records claims ≫= join_row LeftJoin plan rollbacks "id" "claim_id")).
Proof. apply merge_run; [apply claims_column; set_solver|done..]. Qed.

(** The keys and the rows of the groups of [combined_data] are those of
    the claims, each claim standing [joined_copies] times. *)
Lemma combined_group_keys :
  group_keys ["npi"; "ndc"] combined_rows.*2
  = group_keys ["npi"; "ndc"] (records claims).
Proof.
  rewrite combined_rows_records. apply group_keys_expand.
  - intros l _ Hnil. pose proof (joined_rows_length l) as Hlen.
    rewrite Hnil in Hlen. unfold joined_copies in Hlen. simpl in Hlen. lia.
  - intros l y _ Hy. unfold key_of. simpl.
    rewrite !(joined_rows_cell l y) by (done || set_solver). done.
Qed.

Lemma combined_group_rows (k : list value) :
  (group_rows ["npi"; "ndc"] snd k combined_rows).*2
  = claims_of_group k claims ≫= joined_rows claims rollbacks.
Proof.
  unfold group_rows, claims_of_group.
  rewrite (filter_bool_snd
             (λ y, has_key ["npi"; "ndc"] y
                   && key_eqb k (key_of ["npi"; "ndc"] y))).
  rewrite combined_rows_records. apply filter_bool_bind.
  intros l y _ Hy. unfold has_key, key_of. simpl.
  rewrite !(joined_rows_cell l y) by (done || set_solver). done.
Qed.

Lemma set_cells_from (f : value → value) (c c0 : string)
    (rows : list (nat * row)) :
  set_cells c (prod_map id f <$> ((λ ir, (ir.1, cell ir.2 c0)) <$> rows)) rows
  = (λ ir, (ir.1, <[c := f (cell ir.2 c0)]> ir.2)) <$> rows.
Proof.
  unfold set_cells. induction rows as [|ir rows IH]; csimpl; [done|].
  by rewrite IH.
Qed.

Lemma column_of_records (c : string) (rows : list (nat * row)) :
  column_of c rows = (λ y, cell y c) <$> rows.*2.
Proof. unfold column_of. by rewrite <- list_fmap_compose. Qed.

(** The aggregate of a group of [combined_data] is the aggregate of the
    claims of the group, each counted [joined_copies] times. *)
Lemma aggregate_fanned (cols : list string) (k : list value) :
  aggregate (mkDF cols combined_rows)
            (k, group_rows ["npi"; "ndc"] snd k combined_rows)
  = joined_aggregate claims rollbacks k.
Proof.
  unfold aggregate, joined_aggregate.
  set (G := group_rows ["npi"; "ndc"] snd k combined_rows).
  assert (Hprod :
    map_res (λ ir : nat * row,
               mul_cells (cell ir.2 "price")
                         (loc (mkDF cols combined_rows) ir.1 "quantity")) G
    = map_res (λ l, mul_cells (cell l "price") (cell l "quantity"))
              (claims_of_group k claims
                 ≫= λ l, replicate (joined_copies rollbacks l) l)).
  { rewrite (map_res_ext _ (λ ir, mul_cells (cell ir.2 "price")
                                            (cell ir.2 "quantity")) G).
    2:{ intros [i r] [Hin _]%filter_bool_elem. simpl.
        rewrite (loc_row _ i r); [done|apply combined_rows_index|done]. }
    rewrite <- (map_res_fmap (λ l, mul_cells (cell l "price") (cell l "quantity"))
                             snd G).
    unfold G. rewrite combined_group_rows.
    rewrite <- (map_res_fmap (λ x, x)
                  (λ l, mul_cells (cell l "price") (cell l "quantity"))).
    rewrite joined_rows_view.
    - by rewrite map_res_fmap.
    - intros l y Hy.
      by rewrite !(joined_rows_cell l y) by (done || set_solver). }
  rewrite Hprod. rewrite !column_of_records. unfold G.
  rewrite combined_group_rows.
  rewrite (joined_rows_view (λ y, cell y "quantity"))
    by (intros l y Hy; apply joined_rows_cell; [set_solver|done]).
  rewrite (joined_rows_view (λ y, cell y "price"))
    by (intros l y Hy; apply joined_rows_cell; [set_solver|done]).
  rewrite (fmap_bind (λ y, cell y "rollback_flag")).
  rewrite (bind_ext_elem _ (joined_flags rollbacks))
    by (intros; apply joined_rows_flags).
  reflexivity.
Qed.

(** The summary aggregation in terms of the claims alone. *)
Lemma analysis_fanned :
  analysis claims rollbacks
  = map_res (joined_aggregate claims rollbacks)
            (group_keys ["npi"; "ndc"] (records claims)).
Proof.
  unfold analysis. rewrite merge_claims_rollbacks. cbn [bind_res].
  unfold getitem. cbn [columns frame_of].
  rewrite (bool_decide_eq_true_2 ("claim_id" ∈ merged_header plan))
    by by apply claim_id_in_merged_header.
  cbn [bind_res]. unfold setitem, column_cells, map_series. cbn [columns body frame_of].
  rewrite set_cells_from.
  match goal with
  | |- context [mkDF _ ?b] => change b with (combined_body claims rollbacks)
  end.
  set (cols := if bool_decide ("rollback_flag" ∈ merged_header plan)
               then merged_header plan
               else merged_header plan ++ ["rollback_flag"]).
  assert (Hin : ∀ c, c ∈ ["npi"; "ndc"; "quantity"; "price"] → c ∈ cols).
  { intros c Hc. assert (c ∈ merged_header plan).
    { apply left_in_merged_header, claims_column. set_solver. }
    unfold cols. case_bool_decide; [done|]. apply elem_of_app. by left. }
  unfold groupby. cbn [columns body].
  rewrite find_present by (intros c Hc; apply Hin; set_solver).
  cbn [bind_res].
  rewrite find_present by (intros c Hc; apply Hin; set_solver).
  unfold records at 1. cbn [body]. rewrite combined_group_keys.
  rewrite map_res_fmap. apply map_res_ext. intros k _.
  apply aggregate_fanned.
Qed.

End FanOut.

(** A summary aggregation that returns has passed the check of the join. *)
Lemma analysis_keys_ok (claims rollbacks : DataFrame) (res : list AggregateRow) :
  analysis claims rollbacks = inr res →
  keys_clash (key_cells claims "id") (key_cells rollbacks "claim_id") = false.
Proof.
  unfold analysis. destruct (merge _ _ _ _ _ _) as [e|df] eqn:Hm; [done|].
  intros _. by eapply merge_keys_ok.
Qed.

Lemma perform_analysis_result (pharmacy_data claims_data rollbacks_data : ref)
    (save_path : string) (claims rollbacks : DataFrame) (w : world) :
  heap w !! claims_data = Some claims →
  heap w !! rollbacks_data = Some rollbacks →
  (perform_analysis (Some pharmacy_data) (Some claims_data)
                    (Some rollbacks_data) save_path w).1
  = analysis claims rollbacks.
Proof.
  intros Hc Hr. unfold perform_analysis.
  rewrite (bind_run _ _ w w claims) by by apply deref_run.
  rewrite (bind_run _ _ w w rollbacks) by by apply deref_run.
  unfold mbind, M_bind, lift. by destruct (analysis claims rollbacks).
Qed.


(** ** The inner join of top-chains *)

Lemma filter_bool_fmap {A B} (P : B → bool) (f : A → B) (l : list A) :
  List.filter P (f <$> l) = f <$> List.filter (λ x, P (f x)) l.
Proof.
  induction l as [|x l IH]; csimpl; [done|].
  destruct (P (f x)); csimpl; by rewrite IH.
Qed.

Lemma filter_bool_bind_inner {A B} (P : B → bool) (g : A → list B) (l : list A) :
  List.filter P (l ≫= g) = l ≫= λ x, List.filter P (g x).
Proof.
  induction l as [|x l IH]; csimpl; [done|]. by rewrite List.filter_app, IH.
Qed.

Lemma filter_bool_ext {A} (P Q : A → bool) (l : list A) :
  (∀ x, x ∈ l → P x = Q x) → List.filter P l = List.filter Q l.
Proof.
  intros H. apply filter_ext_in. intros x Hx. apply H. by apply list_elem_of_In.
Qed.

Lemma snd_prod_map {A B C} (f : B → C) (l : list (A * B)) :
  (prod_map id f <$> l).*2 = f <$> l.*2.
Proof. rewrite <- !list_fmap_compose. by apply list_fmap_ext. Qed.

Section ChainJoin.

Variables pharmacy claims : DataFrame.

#[local] Abbreviation sub :=
  (mkDF ["npi"; "chain"]
        (prod_map id (λ r, row_of id (cell r) ["npi"; "chain"]) <$> body pharmacy)).

#[local] Abbreviation plan := (plan_merge claims sub "npi" "npi" ("_x", "_y")).

Hypothesis pharmacy_columns : issubset ["npi"; "chain"] (columns pharmacy) = true.
Hypothesis claims_columns :
  issubset ["npi"; "ndc"; "price"] (columns claims) = true.
Hypothesis no_chain : "chain" ∉ columns claims.
Hypothesis claims_header : NoDup (columns claims).

Lemma project_pharmacy : project pharmacy ["npi"; "chain"] = inr sub.
Proof.
  unfold project. rewrite find_present; [done|].
  intros c Hc. by apply (issubset_elem ["npi"; "chain"]).
Qed.

Lemma projected_cell (r : row) (c : string) :
  c ∈ ["npi"; "chain"] → cell (row_of id (cell r) ["npi"; "chain"]) c = cell r c.
Proof.
  intros Hc. unfold cell at 1.
  pose proof (row_of_lookup id (cell r) ["npi"; "chain"] c) as Hlook.
  unfold id at 2 in Hlook. rewrite Hlook; [done| |done].
  apply (bool_decide_unpack _). vm_compute. exact I.
Qed.

Lemma left_rename_id (c : string) : c ∈ columns claims → left_rename plan c = c.
Proof.
  intros Hc. simpl. unfold rename_overlap.
  rewrite bool_decide_eq_false_2; [done|].
  intros [->|[]%elem_of_nil]%elem_of_cons. done.
Qed.

Lemma chain_header : merged_header plan = columns claims ++ ["chain"].
Proof.
  unfold merged_header. f_equal.
  - transitivity (id <$> columns claims); [|apply list_fmap_id].
    apply list_fmap_ext. intros i c Hc%list_elem_of_lookup_2.
    by apply left_rename_id.
  - simpl. unfold rename_overlap. by rewrite bool_decide_eq_false_2.
Qed.

Lemma chain_header_NoDup : NoDup (merged_header plan).
Proof.
  rewrite chain_header. apply NoDup_app. split; [done|]. split.
  - intros c Hc ->%list_elem_of_singleton. done.
  - apply NoDup_singleton.
Qed.

#[local] Abbreviation merged_row := (chain_row pharmacy claims).

(** The joined rows of a claim: one for each pharmacy row of its [npi]. *)
Lemma chain_join_row (l : row) :
  join_row InnerJoin plan sub "npi" "npi" l
  = (λ r, merged_row (l, r)) <$> partners pharmacy l.
Proof.
  unfold join_row, matches, partners, records. cbn [body].
  rewrite snd_prod_map, filter_bool_fmap.
  rewrite (filter_bool_ext _ (λ r, key_match (cell l "npi") (cell r "npi")))
    by (intros r _; rewrite projected_cell; [done|set_solver]).
  generalize (List.filter (λ r : row, key_match (cell l "npi") (cell r "npi"))
                (body pharmacy).*2) as ms.
  intros [|m ms]; [done|]. csimpl. f_equal. by rewrite <- list_fmap_compose.
Qed.

Lemma merged_records :
  records claims ≫= join_row InnerJoin plan sub "npi" "npi"
  = merged_row <$> pairs pharmacy claims.
Proof.
  unfold pairs. rewrite fmap_bind. apply bind_ext_elem. intros l _.
  rewrite chain_join_row. by rewrite <- list_fmap_compose.
Qed.

Lemma merged_claim_cell (lr : row * row) (c : string) :
  c ∈ columns claims → cell (merged_row lr) c = cell lr.1 c.
Proof.
  intros Hc. unfold chain_row.
  rewrite <- (joined_left_cell plan lr.1
                (Some (row_of id (cell lr.2) ["npi"; "chain"])) c);
    [|apply chain_header_NoDup|done].
  by rewrite left_rename_id.
Qed.

Lemma merged_chain_cell (lr : row * row) :
  cell (merged_row lr) "chain" = cell lr.2 "chain".
Proof.
  unfold chain_row.
  pose proof (joined_right_cell plan lr.1
                (Some (row_of id (cell lr.2) ["npi"; "chain"])) "chain"
                chain_header_NoDup) as H.
  cbv beta iota in H. rewrite projected_cell in H by set_solver.
  rewrite <- H by (simpl; set_solver).
  simpl. unfold rename_overlap. by rewrite bool_decide_eq_false_2.
Qed.

Lemma merged_key (lr : row * row) :
  key_of ["ndc"; "chain"] (merged_row lr) = pair_key lr.
Proof.
  unfold key_of, pair_key. csimpl.
  rewrite merged_claim_cell, merged_chain_cell; [done|].
  apply (issubset_elem ["npi"; "ndc"; "price"]); [done|set_solver].
Qed.

Lemma sub_key_cells : key_cells sub "npi" = key_cells pharmacy "npi".
Proof.
  unfold key_cells, records. cbn [body]. rewrite snd_prod_map.
  rewrite <- list_fmap_compose. apply list_fmap_ext. intros i r _. simpl.
  apply projected_cell. set_solver.
Qed.

Lemma merge_chain :
  merge claims sub "npi" "npi" InnerJoin ("_x", "_y")
  = if keys_clash (key_cells claims "npi") (key_cells pharmacy "npi")
    then inl ValueError
    else inr (frame_of (columns claims ++ ["chain"])
                (merged_row <$> pairs pharmacy claims)).
Proof.
  destruct (keys_clash _ _) eqn:Hk.
  - unfold merge.
    rewrite (bool_decide_eq_true_2 ("npi" ∈ columns claims))
      by (apply (issubset_elem ["npi"; "ndc"; "price"]); [done|set_solver]).
    rewrite (bool_decide_eq_true_2 ("npi" ∈ columns sub)) by (simpl; set_solver).
    by rewrite sub_key_cells, Hk.
  - rewrite merge_run.
    + by rewrite chain_header, merged_records.
    + apply (issubset_elem ["npi"; "ndc"; "price"]); [done|set_solver].
    + simpl. set_solver.
    + by rewrite sub_key_cells.
    + apply chain_header_NoDup.
Qed.

(** The prices averaged in the group [k]: the price of every claim, as
    many times as the claim is in the group. *)
Lemma chain_group_prices (k : list value) :
  (λ y, cell y "price")
    <$> List.filter (λ y, has_key ["ndc"; "chain"] y
                          && key_eqb k (key_of ["ndc"; "chain"] y))
                    (merged_row <$> pairs pharmacy claims)
  = records claims ≫= λ l, replicate (times pharmacy k l) (cell l "price").
Proof.
  rewrite filter_bool_fmap, <- list_fmap_compose.
  rewrite (filter_bool_ext _ (in_chain_group k)); last first.
  { intros lr _. unfold has_key, in_chain_group, pair_has_key.
    by rewrite merged_key. }
  unfold pairs. rewrite filter_bool_bind_inner, fmap_bind.
  apply bind_ext_elem. intros l _.
  rewrite filter_bool_fmap, <- list_fmap_compose.
  unfold times. apply fmap_constant. intros r _. simpl.
  apply merged_claim_cell.
  apply (issubset_elem ["npi"; "ndc"; "price"]); [done|set_solver].
Qed.

(** The frame grouped by [ndc] and [chain], by pairs. *)
Lemma grouped_chains_by_pairs :
  grouped_chains pharmacy claims
  = if keys_clash (key_cells claims "npi") (key_cells pharmacy "npi")
    then inl ValueError
    else map_res (chain_average pharmacy claims) (chain_keys pharmacy claims).
Proof.
  unfold grouped_chains. rewrite project_pharmacy. cbn [bind_res].
  rewrite merge_chain. destruct (keys_clash _ _); [done|].
  cbn [bind_res]. unfold chain_groups, groupby.
  cbn [columns frame_of body].
  assert (Hin : ∀ c, c ∈ ["ndc"; "chain"; "price"] →
                     c ∈ columns claims ++ ["chain"]).
  { intros c Hc. apply elem_of_app.
    destruct (decide (c = "chain")) as [->|Hne]; [right; set_solver|left].
    apply (issubset_elem ["npi"; "ndc"; "price"]); [done|set_solver]. }
  rewrite find_present by (intros c Hc; apply Hin; set_solver).
  cbn [bind_res]. rewrite bool_decide_eq_true_2 by (apply Hin; set_solver).
  unfold records, frame_of. cbn [body]. rewrite range_index_snd.
  rewrite map_res_fmap.
  assert (Hkeys : group_keys ["ndc"; "chain"] (merged_row <$> pairs pharmacy claims)
                  = chain_keys pharmacy claims).
  { unfold group_keys, chain_keys. do 2 f_equal.
    rewrite filter_bool_fmap, <- list_fmap_compose.
    rewrite (filter_bool_ext _ pair_has_key); last first.
    { intros lr _. unfold has_key, pair_has_key. by rewrite merged_key. }
    apply list_fmap_ext. intros i lr _. apply merged_key. }
  rewrite Hkeys. apply map_res_ext. intros k _.
  unfold chain_group, chain_average. cbn [fst snd].
  rewrite column_of_records. unfold group_rows.
  rewrite (filter_bool_snd
             (λ y, has_key ["ndc"; "chain"] y
                   && key_eqb k (key_of ["ndc"; "chain"] y))).
  rewrite range_index_snd. by rewrite chain_group_prices.
Qed.

End ChainJoin.

Section TopChains.

Variable float_repr : Q → string.

(** The result of top-chains, from the two tables as the conversions
    leave them. *)
Lemma top_chains_result (pharmacy_data claims_data : ref) (save_path : string)
    (pharmacy claims : DataFrame) (w : world) :
  pharmacy_data ≠ claims_data →
  heap w !! pharmacy_data = Some pharmacy →
  heap w !! claims_data = Some claims →
  "npi" ∈ columns pharmacy → "npi" ∈ columns claims → "ndc" ∈ columns claims →
  (calculate_top_chains float_repr pharmacy_data claims_data save_path w).1
  = bind_res (grouped_chains
                (with_column (astype_str float_repr) "npi" pharmacy)
                (with_column (astype_str float_repr) "ndc"
                   (with_column (astype_str float_repr) "npi" claims)))
             (λ grouped_data,
                match sort_values grouped_data with
                | [] => inl AttributeError
                | top_chains => inr (rank_chains top_chains)
                end).
Proof.
  intros Hne Hp Hc Hpn Hcn Hcd. unfold calculate_top_chains.
  pose proof (lookup_lt_Some _ _ _ Hc) as Hlt.
  erewrite bind_run; [|by apply (column_to_str_run _ _ _ pharmacy)].
  erewrite bind_run; last first.
  { apply (column_to_str_run _ _ _ claims); [|done].
    simpl. by rewrite list_lookup_insert_ne. }
  erewrite bind_run; last first.
  { apply (column_to_str_run _ _ _
             (with_column (astype_str float_repr) "npi" claims)); [|done].
    simpl. apply list_lookup_insert_eq. by rewrite length_insert. }
  simpl. rewrite list_insert_insert_eq.
  erewrite bind_run; last first.
  { apply deref_run. simpl. rewrite list_lookup_insert_ne by done.
    apply list_lookup_insert_eq. by eapply lookup_lt_Some. }
  erewrite bind_run; last first.
  { apply deref_run. simpl. apply list_lookup_insert_eq.
    by rewrite length_insert. }
  unfold mbind, M_bind, lift.
  destruct (grouped_chains _ _) as [e|grouped_data]; [reflexivity|].
  simpl. destruct (sort_values grouped_data); reflexivity.
Qed.

End TopChains.

(** ** Counting and ranking *)

Lemma dict_key_eqb_canonical (a b : value) :
  canonical a → canonical b → dict_key_eqb a b = bool_decide (a = b).
Proof.
  intros [x ->] [y ->]. unfold dict_key_eqb. simpl. rewrite orb_false_r.
  destruct (Qeq_bool (Qred x) (Qred y)) eqn:Heq; symmetry.
  - apply bool_decide_eq_true.
    apply Qeq_bool_eq in Heq. apply (proj1 (Qeq_Qred_iff x y)) in Heq.
    by rewrite (Qred_complete x y).
  - apply bool_decide_eq_false. intros [= Hxy].
    rewrite Hxy, Qeq_bool_refl in Heq. done.
Qed.

(** On a quantity that stands for a number, the conversion of the code
    gives the float of that number. *)
Lemma astype_float_number parse_float (v : value) :
  has_number parse_float v →
  astype_float parse_float v = inr (as_float parse_float v)
  ∧ canonical (as_float parse_float v).
Proof.
  unfold has_number, as_float. intros [q Hq].
  destruct v as [| |z|x|s]; simpl in *; try done.
  - injection Hq as <-. split; [done|by eexists].
  - injection Hq as <-. split; [done|by eexists].
  - rewrite Hq. split; [done|by eexists].
Qed.

Lemma to_float_number parse_float (v : value) :
  has_number parse_float v → to_float parse_float v = as_float parse_float v.
Proof.
  intros Hv. unfold to_float.
  by rewrite (proj1 (astype_float_number parse_float v Hv)).
Qed.

Lemma Counter_snoc (l : list value) (x : value) :
  Counter (l ++ [x]) = counter_add x (Counter l).
Proof. unfold Counter. by rewrite foldl_app. Qed.

Lemma first_occurrences_elem (l : list value) (x : value) :
  x ∈ first_occurrences l ↔ x ∈ l.
Proof.
  induction l as [|a l IH]; simpl; [done|].
  rewrite !elem_of_cons, filter_bool_elem, IH, negb_true_iff,
    bool_decide_eq_false.
  destruct (decide (x = a)); naive_solver.
Qed.

Lemma first_occurrences_NoDup (l : list value) : NoDup (first_occurrences l).
Proof.
  induction l as [|a l IH]; simpl; [constructor|].
  apply NoDup_cons. split.
  - rewrite filter_bool_elem, negb_true_iff, bool_decide_eq_false. naive_solver.
  - apply NoDup_ListNoDup, List.NoDup_filter. by apply NoDup_ListNoDup.
Qed.

Lemma first_occurrences_snoc (l : list value) (x : value) :
  first_occurrences (l ++ [x])
  = if bool_decide (x ∈ l) then first_occurrences l
    else first_occurrences l ++ [x].
Proof.
  induction l as [|a l IH]; simpl; [done|]. rewrite IH.
  destruct (decide (x = a)) as [->|Hne].
  - rewrite (bool_decide_eq_true_2 (a ∈ a :: l)) by left.
    case_bool_decide; [done|].
    rewrite List.filter_app. simpl. rewrite bool_decide_eq_true_2 by done.
    simpl. by rewrite app_nil_r.
  - rewrite (bool_decide_ext (x ∈ a :: l) (x ∈ l))
      by (rewrite elem_of_cons; naive_solver).
    case_bool_decide; [done|].
    rewrite List.filter_app. simpl. by rewrite bool_decide_eq_false_2.
Qed.

Lemma occurrences_snoc (k x : value) (l : list value) :
  occurrences k (l ++ [x])
  = if bool_decide (x = k) then S (occurrences k l) else occurrences k l.
Proof.
  unfold occurrences. rewrite List.filter_app, length_app. simpl.
  case_bool_decide; simpl; lia.
Qed.

Lemma occurrences_absent (x : value) (l : list value) :
  x ∉ l → occurrences x l = 0.
Proof.
  unfold occurrences. induction l as [|a l IH]; simpl; [done|].
  intros [Hne Hl]%not_elem_of_cons.
  rewrite bool_decide_eq_false_2 by done. by apply IH.
Qed.

(** One more occurrence in a counter whose keys are distinct. *)
Lemma counter_add_spec (x : value) (ks : list value) (f : value → nat) :
  NoDup ks →
  (∀ k, k ∈ ks → dict_key_eqb k x = bool_decide (k = x)) →
  counter_add x ((λ k, (k, f k)) <$> ks)
  = if bool_decide (x ∈ ks)
    then (λ k, (k, if bool_decide (x = k) then S (f k) else f k)) <$> ks
    else ((λ k, (k, f k)) <$> ks) ++ [(x, 1)].
Proof.
  induction ks as [|a ks IH]; intros Hnd Heqb; [done|].
  apply NoDup_cons in Hnd as [Ha Hnd]. csimpl.
  rewrite (Heqb a) by left.
  destruct (decide (a = x)) as [->|Hne].
  - rewrite !bool_decide_eq_true_2 by (done || left). f_equal.
    apply list_fmap_ext. intros i k Hk%list_elem_of_lookup_2.
    rewrite bool_decide_eq_false_2; [done|]. by intros ->.
  - rewrite (bool_decide_eq_false_2 (a = x)) by done.
    rewrite (bool_decide_eq_false_2 (x = a)) by done.
    rewrite IH by (done || intros; apply Heqb; by right).
    rewrite (bool_decide_ext (x ∈ a :: ks) (x ∈ ks))
      by (rewrite elem_of_cons; naive_solver).
    by case_bool_decide.
Qed.

(** [Counter]: the distinct values in order of first occurrence, each with
    the number of its occurrences. *)
Lemma Counter_spec (l : list value) :
  Forall canonical l →
  Counter l = (λ k, (k, occurrences k l)) <$> first_occurrences l.
Proof.
  induction l as [|x l IH] using rev_ind; intros Hl; [done|].
  apply Forall_app in Hl as [Hl Hx].
  apply (proj1 (Forall_singleton _ _)) in Hx.
  rewrite Counter_snoc, IH by done.
  rewrite counter_add_spec; [|apply first_occurrences_NoDup|]; last first.
  { intros k Hk. apply (proj1 (first_occurrences_elem _ _)) in Hk.
    apply dict_key_eqb_canonical; [|exact Hx].
    rewrite Forall_forall in Hl. by apply Hl. }
  rewrite first_occurrences_snoc.
  rewrite (bool_decide_ext (x ∈ first_occurrences l) (x ∈ l))
    by apply first_occurrences_elem.
  case_bool_decide as Hin.
  - apply list_fmap_ext. intros i k _. by rewrite occurrences_snoc.
  - rewrite fmap_app. csimpl. f_equal.
    + apply list_fmap_ext. intros i k Hk%list_elem_of_lookup_2.
      rewrite occurrences_snoc, bool_decide_eq_false_2; [done|].
      intros ->. by apply Hin, (proj1 (first_occurrences_elem _ _)).
    + rewrite occurrences_snoc, bool_decide_eq_true_2 by done.
      by rewrite occurrences_absent.
Qed.

Section StableSort.

Context {A : Type}.
Implicit Types (x y : A * nat) (c s : list (A * nat)).

Lemma insert_by_count_perm x s : insert_by_count x s ≡ₚ x :: s.
Proof.
  induction s as [|y s IH]; simpl; [done|].
  destruct (x.2 <? y.2)%nat; [|done]. rewrite IH. apply Permutation_swap.
Qed.

Lemma sort_by_count_perm c : sort_by_count c ≡ₚ c.
Proof.
  unfold sort_by_count. induction c as [|x c IH]; simpl; [done|].
  by rewrite insert_by_count_perm, IH.
Qed.

Lemma insert_by_count_sorted x s :
  StronglySorted (λ a b, b.2 ≤ a.2) s →
  StronglySorted (λ a b, b.2 ≤ a.2) (insert_by_count x s).
Proof.
  induction 1 as [|y s Hs IH Hy]; simpl.
  - repeat constructor.
  - destruct (Nat.ltb_spec x.2 y.2) as [Hlt|Hge].
    + constructor; [done|]. rewrite insert_by_count_perm.
      constructor; [lia|done].
    + constructor; [by constructor|]. constructor; [done|].
      eapply Forall_impl; [exact Hy|]. simpl. intros z Hz. lia.
Qed.

Lemma sort_by_count_sorted c :
  StronglySorted (λ a b, b.2 ≤ a.2) (sort_by_count c).
Proof.
  unfold sort_by_count. induction c as [|x c IH]; simpl; [constructor|].
  by apply insert_by_count_sorted.
Qed.

(** The sort is stable: entries of one count keep their order. *)
Lemma insert_by_count_stable (n : nat) x s :
  List.filter (λ y, y.2 =? n)%nat (insert_by_count x s)
  = List.filter (λ y, y.2 =? n)%nat (x :: s).
Proof.
  induction s as [|y s IH]; [done|]. cbn [insert_by_count].
  destruct (Nat.ltb_spec x.2 y.2) as [Hlt|Hge]; [|done].
  cbn [List.filter] in *. rewrite IH.
  destruct (Nat.eqb_spec x.2 n), (Nat.eqb_spec y.2 n); try done. lia.
Qed.

Lemma sort_by_count_stable (n : nat) c :
  List.filter (λ y, y.2 =? n)%nat (sort_by_count c)
  = List.filter (λ y, y.2 =? n)%nat c.
Proof.
  unfold sort_by_count. induction c as [|x c IH]; [done|]. cbn [foldr].
  rewrite insert_by_count_stable. cbn [List.filter]. by rewrite IH.
Qed.

(** From entries to their keys, where the count is a function of the key. *)
Lemma sorted_keys (g : A → nat) s :
  Forall (λ y, y.2 = g y.1) s →
  StronglySorted (λ a b, b.2 ≤ a.2) s →
  StronglySorted (λ a b, g b ≤ g a) s.*1.
Proof.
  intros Hg. induction 1 as [|y s Hs IH Hy]; csimpl; [constructor|].
  apply Forall_cons in Hg as [Hgy Hg]. constructor; [by apply IH|].
  apply Forall_fmap. rewrite Forall_forall in *. intros z Hz. simpl.
  rewrite <- Hgy, <- (Hg z Hz). by apply Hy.
Qed.

Lemma filter_keys (g : A → nat) (n : nat) s :
  Forall (λ y, y.2 = g y.1) s →
  (List.filter (λ y, y.2 =? n)%nat s).*1
  = List.filter (λ a, g a =? n)%nat s.*1.
Proof.
  induction 1 as [|y s Hy Hs IH]; csimpl; [done|].
  rewrite Hy. destruct (g y.1 =? n)%nat; csimpl; by rewrite IH.
Qed.

End StableSort.

(** ** The groups of top-quantities *)

Lemma insert_key_perm (k : list value) (ks : list (list value)) :
  insert_key k ks ≡ₚ k :: ks.
Proof.
  induction ks as [|k' ks IH]; simpl; [done|].
  destruct (key_leb k k'); [done|]. rewrite IH. apply Permutation_swap.
Qed.

Lemma sort_keys_perm (ks : list (list value)) : sort_keys ks ≡ₚ ks.
Proof.
  unfold sort_keys. induction ks as [|k ks IH]; simpl; [done|].
  by rewrite insert_key_perm, IH.
Qed.

Lemma key_eqb_str (a b : list value) :
  str_key a → str_key b → key_eqb a b = bool_decide (a = b).
Proof.
  intros [s ->] [t ->]. simpl. rewrite andb_true_r.
  apply bool_decide_ext. split; [by intros ->|by intros [= ->]].
Qed.

Lemma distinct_keys_str (ks : list (list value)) :
  Forall str_key ks →
  NoDup (distinct_keys ks) ∧ ∀ k, k ∈ distinct_keys ks ↔ k ∈ ks.
Proof.
  induction 1 as [|a ks Ha Hks [IHnd IHin]]; simpl.
  - split; [constructor|done].
  - assert (Hfilter : ∀ k, k ∈ List.filter (λ k', negb (key_eqb a k'))
                                           (distinct_keys ks)
                           ↔ k ∈ ks ∧ k ≠ a).
    { intros k. rewrite filter_bool_elem, IHin, negb_true_iff. split.
      - intros [Hk Hne]. split; [done|]. intros ->.
        rewrite key_eqb_str, bool_decide_eq_true_2 in Hne; done.
      - intros [Hk Hne]. split; [done|].
        rewrite key_eqb_str; [by apply bool_decide_eq_false_2| done |].
        rewrite Forall_forall in Hks. by apply Hks. }
    split.
    + apply NoDup_cons. split; [rewrite Hfilter; naive_solver|].
      apply NoDup_ListNoDup, List.NoDup_filter. by apply NoDup_ListNoDup.
    + intros k. rewrite !elem_of_cons, Hfilter.
      destruct (decide (k = a)); naive_solver.
Qed.

Lemma astype_str_is_str float_repr (v : value) :
  ∃ s, astype_str float_repr v = VStr s.
Proof. destruct v; simpl; eauto. Qed.

Section TopQuantities.

Variable float_repr : Q → string.
Variable parse_float : string → option Q.
Variable df : DataFrame.

#[local] Abbreviation normal := (normalised_claims float_repr parse_float df).

Lemma normalised_body :
  body normal
  = (λ ir, (ir.1, <["quantity" := to_float parse_float (cell ir.2 "quantity")]>
                    (<["npi" := astype_str float_repr (cell ir.2 "npi")]> ir.2)))
      <$> body df.
Proof.
  unfold normalised_claims, with_column. cbn [body].
  rewrite <- list_fmap_compose. apply list_fmap_ext. intros i [j r] _. simpl.
  do 2 f_equal. unfold cell at 1. by rewrite lookup_insert_ne.
Qed.

Lemma normalised_npi (r : row) :
  cell (<["quantity" := to_float parse_float (cell r "quantity")]>
          (<["npi" := astype_str float_repr (cell r "npi")]> r)) "npi"
  = astype_str float_repr (cell r "npi").
Proof.
  unfold cell at 1. rewrite lookup_insert_ne by done.
  by rewrite lookup_insert_eq.
Qed.

Lemma normalised_quantity (r : row) :
  cell (<["quantity" := to_float parse_float (cell r "quantity")]>
          (<["npi" := astype_str float_repr (cell r "npi")]> r)) "quantity"
  = to_float parse_float (cell r "quantity").
Proof. unfold cell at 1. by rewrite lookup_insert_eq. Qed.

(** The keys of the groups: the [npi] of every claim, as a string. *)
Lemma normalised_keys :
  key_of ["npi"] <$> List.filter (has_key ["npi"]) (records normal)
  = (λ ir, [astype_str float_repr (cell ir.2 "npi")]) <$> body df.
Proof.
  unfold records. rewrite normalised_body, <- list_fmap_compose.
  rewrite filter_bool_all.
  - rewrite <- list_fmap_compose. apply list_fmap_ext. intros i ir _. simpl.
    unfold key_of. csimpl. by rewrite normalised_npi.
  - intros r (ir & -> & _)%list_elem_of_fmap. simpl.
    unfold has_key, key_of. csimpl. rewrite normalised_npi.
    by destruct (astype_str_is_str float_repr (cell ir.2 "npi")) as [s ->].
Qed.

Lemma normalised_keys_str :
  Forall str_key ((λ ir : nat * row, [astype_str float_repr (cell ir.2 "npi")])
                    <$> body df).
Proof.
  apply Forall_fmap, Forall_forall. intros ir _. simpl.
  destruct (astype_str_is_str float_repr (cell ir.2 "npi")) as [s ->].
  by exists s.
Qed.

Lemma group_key_elem (k : list value) :
  k ∈ group_keys ["npi"] (records normal)
  ↔ ∃ ir, ir ∈ body df ∧ k = [astype_str float_repr (cell ir.2 "npi")].
Proof.
  unfold group_keys. rewrite sort_keys_perm, normalised_keys.
  rewrite (proj2 (distinct_keys_str _ normalised_keys_str)).
  rewrite list_elem_of_fmap. naive_solver.
Qed.

Lemma group_keys_NoDup : NoDup (group_keys ["npi"] (records normal)).
Proof.
  unfold group_keys. rewrite sort_keys_perm, normalised_keys.
  apply (distinct_keys_str _ normalised_keys_str).
Qed.

(** The quantities of the group of the key [[v]]. *)
Lemma group_quantities (v : value) :
  (∃ s, v = VStr s) →
  column_of "quantity" (group_rows ["npi"] snd [v] (body normal))
  = (λ ir, to_float parse_float (cell ir.2 "quantity"))
      <$> List.filter
            (λ ir, bool_decide (astype_str float_repr (cell ir.2 "npi") = v))
            (body df).
Proof.
  intros [s ->]. unfold group_rows, column_of.
  rewrite normalised_body, filter_bool_fmap, <- list_fmap_compose.
  rewrite (filter_bool_ext _
             (λ ir, bool_decide (astype_str float_repr (cell ir.2 "npi") = VStr s))).
  - apply list_fmap_ext. intros i ir _. simpl. apply normalised_quantity.
  - intros ir _. cbn [snd]. unfold has_key, key_of. csimpl.
    rewrite normalised_npi.
    destruct (astype_str_is_str float_repr (cell ir.2 "npi")) as [t ->].
    simpl. rewrite andb_true_r. apply bool_decide_ext.
    split; [by intros ->|by intros [= ->]].
Qed.

End TopQuantities.

(** The ranking [most_common] cuts: the distinct quantities, the most
    frequent first, equal frequencies in the order of first occurrence. *)
Lemma ranking_spec (qs : list value) :
  Forall canonical qs →
  let ranking := (sort_by_count (Counter qs)).*1 in
  (most_common 4 (Counter qs)).*1 = take 4 ranking
  ∧ ranking ≡ₚ first_occurrences qs
  ∧ StronglySorted (λ a b, occurrences b qs ≤ occurrences a qs) ranking
  ∧ ∀ n, List.filter (λ q, occurrences q qs =? n)%nat ranking
         = List.filter (λ q, occurrences q qs =? n)%nat (first_occurrences qs).
Proof.
  intros Hqs ranking. unfold ranking, most_common.
  rewrite Counter_spec by done.
  set (c := (λ k, (k, occurrences k qs)) <$> first_occurrences qs).
  assert (Hkeys : c.*1 = first_occurrences qs).
  { unfold c. rewrite <- list_fmap_compose. apply list_fmap_id. }
  assert (Hc : Forall (λ y : value * nat, y.2 = occurrences y.1 qs) c).
  { unfold c. apply Forall_fmap, Forall_forall. by intros. }
  assert (Hs : Forall (λ y : value * nat, y.2 = occurrences y.1 qs)
                      (sort_by_count c)).
  { eapply Permutation_Forall; [|exact Hc].
    symmetry. apply sort_by_count_perm. }
  split; [by rewrite fmap_take|]. split; [|split].
  - by rewrite sort_by_count_perm, Hkeys.
  - apply sorted_keys; [done|apply sort_by_count_sorted].
  - intros n.
    rewrite <- (filter_keys (λ q, occurrences q qs) n (sort_by_count c)) by done.
    rewrite sort_by_count_stable.
    rewrite (filter_keys (λ q, occurrences q qs) n c) by done.
    by rewrite Hkeys.
Qed.

Section TopQuantitiesRanking.

Variable float_repr : Q → string.
Variable parse_float : string → option Q.

Lemma astype_float_series_rejects (s : series) (iv : nat * value) :
  iv ∈ s → astype_float parse_float iv.2 = inl ValueError →
  astype_float_series parse_float s = inl ValueError.
Proof.
  unfold astype_float_series.
  induction s as [|[i v] s IH]; intros Hin Hbad; [by apply elem_of_nil in Hin|].
  cbn [map_res]. simpl.
  destruct (astype_float parse_float v) as [e|x] eqn:Hv; simpl.
  - destruct v as [| |z|q|t]; simpl in Hv; try done.
    destruct (parse_float t); by simplify_eq.
  - apply elem_of_cons in Hin as [->|Hin]; [simpl in Hbad; congruence|].
    by rewrite IH.
Qed.

(** Top-quantities on a table with a quantity that [float] rejects. *)
Lemma top_quantities_rejects (claims_data : ref) (save_path : string)
    (df : DataFrame) (w : world) (ir : nat * row) :
  heap w !! claims_data = Some df →
  "npi" ∈ columns df → "quantity" ∈ columns df →
  ir ∈ body df → astype_float parse_float (cell ir.2 "quantity") = inl ValueError →
  (calculate_top_prescribed_quantities float_repr parse_float claims_data
                                       save_path w).1
  = inl ValueError.
Proof.
  intros Hd Hn Hq Hir Hbad.
  unfold calculate_top_prescribed_quantities.
  rewrite (bind_run _ _ w w df) by by apply deref_run.
  rewrite find_present
    by (intros c [->|[->|[]%elem_of_nil]%elem_of_cons]%elem_of_cons; done).
  erewrite bind_run; [|by apply (column_to_str_run _ _ _ df)].
  erewrite bind_raise; [reflexivity|].
  unfold column_to_float.
  erewrite bind_run; last first.
  { apply deref_run. simpl. apply list_lookup_insert_eq.
    by eapply lookup_lt_Some. }
  unfold lift, getitem. rewrite bool_decide_eq_true_2 by done.
  unfold mbind, M_bind.
  rewrite (astype_float_series_rejects _ (ir.1, cell ir.2 "quantity"));
    [reflexivity| |done].
  rewrite with_column_other by done. unfold column_cells.
  by apply (list_elem_of_fmap_2 (λ ir : nat * row, (ir.1, cell ir.2 "quantity"))).
Qed.

(** C6, as the code has it.  On a claims table with the columns [npi]
    and [quantity] whose quantities all stand for a number (a number, or
    a string that [float] reads as one), top-quantities returns one entry
    for each distinct [npi] (as a string).  The list of an entry has at
    most four elements, all of them quantities of that [npi], as floats;
    it is the head of the ranking of the distinct quantities of that
    [npi] by decreasing number of occurrences, in which quantities of one
    frequency stand in the order of their first occurrence.  A quantity
    that [float] rejects makes top-quantities raise [ValueError]. *)
Theorem top_quantities_ranking (claims_data : ref) (save_path : string)
    (df : DataFrame) (w : world) :
  heap w !! claims_data = Some df →
  "npi" ∈ columns df → "quantity" ∈ columns df →
  ((∀ ir, ir ∈ body df → has_number parse_float (cell ir.2 "quantity")) →
   ∃ result w',
     calculate_top_prescribed_quantities float_repr parse_float claims_data
                                         save_path w
     = (inr result, w')
     ∧ NoDup (tq_id <$> result)
     ∧ (∀ v, v ∈ tq_id <$> result
             ↔ ∃ ir, ir ∈ body df ∧ v = astype_str float_repr (cell ir.2 "npi"))
     ∧ ∀ e, e ∈ result →
         let qs := quantities_of float_repr parse_float df (tq_id e) in
         length (most_prescribed_quantity e) ≤ 4
         ∧ (∀ q, q ∈ most_prescribed_quantity e → q ∈ qs)
         ∧ ∃ ranking,
             most_prescribed_quantity e = take 4 ranking
             ∧ ranking ≡ₚ first_occurrences qs
             ∧ StronglySorted (λ a b, occurrences b qs ≤ occurrences a qs) ranking
             ∧ ∀ n, List.filter (λ q, occurrences q qs =? n)%nat ranking
                    = List.filter (λ q, occurrences q qs =? n)%nat
                                  (first_occurrences qs))
  ∧ ((∃ ir s, ir ∈ body df ∧ cell ir.2 "quantity" = VStr s
              ∧ parse_float s = None) →
     (calculate_top_prescribed_quantities float_repr parse_float claims_data
                                          save_path w).1
     = inl ValueError).
Proof.
  intros Hd Hn Hq. split; last first.
  { intros (ir & s & Hir & Hs & Hnone).
    apply (top_quantities_rejects claims_data save_path df w ir); try done.
    rewrite Hs. simpl. by rewrite Hnone. }
  intros Hnum.
  assert (Hconv : ∀ ir, ir ∈ body df →
                        convertible parse_float (cell ir.2 "quantity")).
  { intros ir Hir. eexists. by apply astype_float_number, Hnum. }
  do 2 eexists. split.
  { by apply (top_quantities_run float_repr parse_float claims_data save_path
                df w). }
  set (normal := normalised_claims float_repr parse_float df).
  set (keys := group_keys ["npi"] (records normal)).
  set (result := top_quantity_entry <$> _).
  assert (Hstr : ∀ k, k ∈ keys → ∃ s, k = [VStr s]).
  { intros k (ir & _ & ->)%group_key_elem.
    destruct (astype_str_is_str float_repr (cell ir.2 "npi")) as [s ->]. eauto. }
  assert (Hids : (λ v, [v]) <$> (tq_id <$> result) = keys).
  { unfold result. rewrite <- !list_fmap_compose.
    transitivity (id <$> keys); [|apply list_fmap_id].
    apply list_fmap_ext. intros i k Hk%list_elem_of_lookup_2.
    by destruct (Hstr k Hk) as [s ->]. }
  split; [|split].
  - apply (NoDup_fmap_1 (λ v : value, [v])). rewrite Hids.
    apply group_keys_NoDup.
  - intros v. transitivity ([v] ∈ keys).
    { rewrite <- Hids. rewrite (list_elem_of_fmap (λ v, [v])). split.
      - intros Hv. by exists v.
      - by intros (v' & [= ->] & Hv'). }
    unfold keys, normal. rewrite group_key_elem. naive_solver.
  - unfold result. intros e Hin.
    apply list_elem_of_fmap in Hin as (g & -> & Hg).
    apply list_elem_of_fmap in Hg as (k & -> & Hk).
    destruct (Hstr k Hk) as [s ->].
    unfold top_quantity_entry. cbn [compose fst snd tq_id most_prescribed_quantity].
    change ([VStr s] !!! 0%nat) with (VStr s). unfold normal.
    rewrite (group_quantities float_repr parse_float df (VStr s)) by eauto.
    assert (Hsame :
      (λ ir : nat * row, to_float parse_float (cell ir.2 "quantity"))
        <$> List.filter
              (λ ir : nat * row,
                 bool_decide (astype_str float_repr (cell ir.2 "npi") = VStr s))
              (body df)
      = quantities_of float_repr parse_float df (VStr s)).
    { unfold quantities_of. apply list_fmap_ext.
      intros i ir [Hir _]%list_elem_of_lookup_2%filter_bool_elem.
      by apply to_float_number, Hnum. }
    rewrite Hsame.
    set (qs := quantities_of float_repr parse_float df (VStr s)).
    assert (Hqs : Forall canonical qs).
    { unfold qs, quantities_of. apply Forall_fmap, Forall_forall.
      intros ir [Hir _]%filter_bool_elem. simpl.
      by apply astype_float_number, Hnum. }
    destruct (ranking_spec qs Hqs) as (Htake & Hperm & Hsorted & Hstable).
    split; [|split].
    + rewrite Htake, length_take. lia.
    + intros q Hin. rewrite Htake in Hin.
      apply (subseteq_take 4) in Hin. rewrite Hperm in Hin.
      by apply (proj1 (first_occurrences_elem _ _)).
    + eexists. split; [exact Htake|]. done.
Qed.

End TopQuantitiesRanking.

(** Top-quantities on claims whose quantities repeat: the two quantities
    met twice come first, in the order met, then the first two of those met
    once. *)
Lemma top_quantities_ranking_witness :
  heap (Sample.loaded Sample.repeated_claims) !! 1 = Some Sample.repeated_claims
  ∧ (calculate_top_prescribed_quantities Sample.float_repr Sample.parse_float
       1 "out.json" (Sample.loaded Sample.repeated_claims)).1
    = inr [mkTopQ (VStr "123") [VFloat 30; VFloat 60; VFloat 10; VFloat 20]]
  ∧ ∃ result w',
      calculate_top_prescribed_quantities Sample.float_repr Sample.parse_float
        1 "out.json" (Sample.loaded Sample.repeated_claims)
      = (inr result, w')
      ∧ NoDup (tq_id <$> result)
      ∧ ∀ e, e ∈ result → length (most_prescribed_quantity e) ≤ 4.
Proof.
  split; [reflexivity|]. split; [vm_compute; reflexivity|].
  assert (Hin : ∀ c, bool_decide (c ∈ columns Sample.repeated_claims) = true →
                     c ∈ columns Sample.repeated_claims)
    by (intros c; apply bool_decide_eq_true_1).
  assert (Hnum : ∀ ir, ir ∈ body Sample.repeated_claims →
                       has_number Sample.parse_float (cell ir.2 "quantity")).
  { intros ir Hir.
    apply (proj1 (Forall_forall
                    (λ ir, has_number Sample.parse_float (cell ir.2 "quantity"))
                    (body Sample.repeated_claims))); [|exact Hir].
    repeat constructor; by eexists. }
  destruct (top_quantities_ranking Sample.float_repr Sample.parse_float 1
              "out.json" Sample.repeated_claims
              (Sample.loaded Sample.repeated_claims) eq_refl
              (Hin "npi" eq_refl) (Hin "quantity" eq_refl)) as [Hrank _].
  destruct (Hrank Hnum) as (result & w' & Hrun & Hnd & _ & Hentries).
  exists result, w'. split; [exact Hrun|]. split; [exact Hnd|].
  intros e He. apply (Hentries e He).
Defined.

(** C6 as the claim states it fails: the sample claims with the quantity
    "sixty" have the columns [npi] and [quantity], and top-quantities
    returns no entry for them: it raises [ValueError]. *)
Lemma worded_quantity_gives_no_entry :
  issubset ["npi"; "quantity"] (columns Tables.worded_quantity) = true
  ∧ (calculate_top_prescribed_quantities Sample.float_repr Sample.parse_float
       1 "out.json" (Sample.loaded Tables.worded_quantity)).1
    = inl ValueError.
Proof. split; vm_compute; reflexivity. Qed.

(** ** The loader, file by file *)

Section Loader.

Variable src : source.

Lemma validate_parts kind file_path required (data : DataFrame) w :
  ∃ w', validate kind file_path required data w
        = (inr (valid_part required data, Some (invalid_part required data)), w')
        ∧ heap w' = heap w ∧ sink w' = sink w.
Proof.
  unfold validate, valid_part, invalid_part.
  destruct (issubset required (columns data)); simpl;
    eexists; (split; [reflexivity|done]).
Qed.

Lemma load_csv_parts file_path required w :
  ∃ w', load_and_validate_csv src file_path required w
        = (inr (table_of (read_csv src file_path) ≫= valid_part required,
                invalid_part required <$> table_of (read_csv src file_path)), w')
        ∧ heap w' = heap w ∧ sink w' = sink w.
Proof.
  unfold load_and_validate_csv, mbind at 1, M_bind at 1, logging at 1.
  destruct (read_csv src file_path) as [[cols rs]|]; simpl.
  - match goal with |- context [validate ?k ?p ?r ?d ?w0] =>
      destruct (validate_parts k p r d w0) as (w' & -> & Hh & Hs) end.
    eexists. split; [reflexivity|]. done.
  - eexists. split; [reflexivity|]. done.
Qed.

Lemma load_json_parts file_path required w :
  ∃ w', load_and_validate_json src file_path required w
        = (inr (table_of (read_json src file_path) ≫= valid_part required,
                invalid_part required <$> table_of (read_json src file_path)), w')
        ∧ heap w' = heap w ∧ sink w' = sink w.
Proof.
  unfold load_and_validate_json, mbind at 1, M_bind at 1, logging at 1.
  destruct (read_json src file_path) as [[cols rs]|]; simpl.
  - match goal with |- context [validate ?k ?p ?r ?d ?w0] =>
      destruct (validate_parts k p r d w0) as (w' & -> & Hh & Hs) end.
    eexists. split; [reflexivity|]. done.
  - eexists. split; [reflexivity|]. done.
Qed.

(** The loop of the loader, as a map over the files it reads. *)
Lemma process_files_run folder required file_type names V I w :
  let tables := omap (parsed_file src folder file_type) names in
  ∃ w', process_files src folder required file_type names V I w
        = (inr (V ++ omap (valid_part required) tables,
                I ++ (invalid_part required <$> tables)), w')
        ∧ heap w' = heap w ∧ sink w' = sink w.
Proof.
  revert V I w. induction names as [|name names IH]; intros V I w tables.
  { eexists. simpl. rewrite !app_nil_r. split; [reflexivity|done]. }
  assert (Hstep : ∀ (t : option DataFrame) w1,
    parsed_file src folder file_type name = t →
    heap w1 = heap w → sink w1 = sink w →
    ∃ w', process_files src folder required file_type names
            (match t ≫= valid_part required with
             | Some v => V ++ [v] | None => V end)
            (match invalid_part required <$> t with
             | Some i => I ++ [i] | None => I end) w1
          = (inr (V ++ omap (valid_part required) tables,
                  I ++ (invalid_part required <$> tables)), w')
          ∧ heap w' = heap w ∧ sink w' = sink w).
  { intros t w1 Ht Hh Hs. subst tables. cbn [omap list_omap]. rewrite Ht.
    match goal with |- context [process_files _ _ _ _ _ ?V' ?I' w1] =>
      destruct (IH V' I' w1) as (w' & -> & Hh' & Hs') end.
    exists w'. split; [|split; congruence].
    destruct t as [df|]; simpl; [|done].
    destruct (valid_part required df); simpl; by rewrite <- !app_assoc. }
  cbn [process_files].
  destruct (String.eqb file_type "csv" && endswith name ".csv") eqn:Hcsv.
  { destruct (load_csv_parts (path_join folder name) required w)
      as (w1 & Hrun & Hh & Hs).
    rewrite (bind_run _ _ _ _ _ Hrun).
    apply Hstep; [|done|done]. unfold parsed_file. by rewrite Hcsv. }
  destruct (String.eqb file_type "json" && endswith name ".json") eqn:Hjson.
  { destruct (load_json_parts (path_join folder name) required w)
      as (w1 & Hrun & Hh & Hs).
    rewrite (bind_run _ _ _ _ _ Hrun).
    apply Hstep; [|done|done]. unfold parsed_file. by rewrite Hcsv, Hjson. }
  unfold mbind at 1, M_bind at 1, logging at 1.
  apply (Hstep None); [|done|done]. unfold parsed_file. by rewrite Hcsv, Hjson.
Qed.

Lemma process_folder_run folder required file_type quarantine w :
  let tables := parsed_files src folder file_type in
  ∃ w', process_folder src folder required file_type quarantine w
        = (inr (concat_or_empty (omap (valid_part required) tables)), w')
        ∧ heap w' = heap w
        ∧ sink w' = sink w ++ [(quarantine,
                                PFrame (concat_or_empty
                                          (invalid_part required <$> tables)))].
Proof.
  intros tables. unfold process_folder.
  erewrite bind_run; [|reflexivity].
  match goal with |- ∃ _, (_ ≫= _) ?w1 = _ ∧ _ =>
    destruct (process_files_run folder required file_type
                (listdir src folder) [] [] w1) as (w' & Hrun & Hh & Hs) end.
  rewrite (bind_run _ _ _ _ _ Hrun). simpl.
  eexists. split; [reflexivity|]. simpl. rewrite Hh, Hs. done.
Qed.


Lemma upcast_isna (v : value) : isna (upcast v) = isna v.
Proof. by destruct v. Qed.

Lemma upcast_idempotent (v : value) : upcast (upcast v) = upcast v.
Proof. by destruct v. Qed.

Lemma kept_refl (v : value) : kept v v.
Proof. by left. Qed.

Lemma kept_upcast (a b : value) : kept a b → kept a (upcast b).
Proof.
  intros [->| ->]; [by right|]. right. by rewrite upcast_idempotent.
Qed.

Lemma kept_isna (a b : value) : kept a b → isna b = isna a.
Proof. intros [->| ->]; [done|apply upcast_isna]. Qed.

Lemma row_kept_isna (r r' : row) (c : string) :
  row_kept r r' → isna (cell r' c) = isna (cell r c).
Proof. intros H. apply kept_isna, H. Qed.

Lemma alter_upcast_cell (c c' : string) (r : row) :
  cell (alter upcast c r) c'
  = if bool_decide (c = c') then upcast (cell r c') else cell r c'.
Proof.
  unfold cell. case_bool_decide as Hc.
  - subst. rewrite lookup_alter_eq. by destruct (r !! c').
  - by rewrite lookup_alter_ne.
Qed.

(** What [pd.concat] stores for a row: every cell as it was, or as the
    float of the integer it was. *)
Lemma unify_row_kept (frames : list DataFrame) (cols : list string) (r : row) :
  row_kept r (unify_row frames cols r).
Proof.
  intros c. induction cols as [|a cols IH]; simpl; [apply kept_refl|].
  destruct (float_column frames a); [|done].
  rewrite alter_upcast_cell. case_bool_decide; [|done]. by apply kept_upcast.
Qed.

Lemma records_concat (frames : list DataFrame) :
  records (concat frames)
  = unify_row frames (columns (concat frames)) <$> (frames ≫= records).
Proof. unfold concat, frame_of, records at 1. simpl. apply range_index_snd. Qed.

Lemma concat_kept (frames : list DataFrame) :
  Forall2 row_kept (frames ≫= records) (records (concat frames)).
Proof.
  rewrite records_concat. apply Forall2_fmap_r, Forall_Forall2_diag.
  apply Forall_forall. intros r _. apply unify_row_kept.
Qed.

Lemma concat_or_empty_kept (frames : list DataFrame) :
  Forall2 row_kept (frames ≫= records) (records (concat_or_empty frames)).
Proof. destruct frames; [constructor|]. apply concat_kept. Qed.

Lemma index_concat_or_empty (frames : list DataFrame) :
  index (concat_or_empty frames) = seq 0 (len (concat_or_empty frames)).
Proof.
  destruct frames as [|df frames]; [done|].
  unfold concat_or_empty, concat, frame_of, index, len. cbn [body].
  by rewrite range_index_fst, range_index_length.
Qed.

Lemma parsed_file_index folder file_type name df :
  parsed_file src folder file_type name = Some df → NoDup (index df).
Proof.
  unfold parsed_file, table_of. intros H.
  repeat case_match; simplify_option_eq; apply range_index_NoDup.
Qed.

Lemma tables_of_index folder file_type names :
  Forall (λ df, NoDup (index df)) (tables_of src folder file_type names).
Proof.
  apply Forall_forall. unfold tables_of.
  intros df (name & _ & H)%list_elem_of_omap. by eapply parsed_file_index.
Qed.

Lemma parsed_files_index folder file_type df :
  df ∈ parsed_files src folder file_type → NoDup (index df).
Proof.
  unfold parsed_files. intros (name & _ & H)%list_elem_of_omap.
  by eapply parsed_file_index.
Qed.

Lemma valid_part_records (required : list string) (tables : list DataFrame) :
  omap (valid_part required) tables ≫= records = tables ≫= valid_rows required.
Proof.
  induction tables as [|df tables IH]; [done|]. csimpl.
  unfold valid_part at 1, valid_rows at 1.
  destruct (issubset required (columns df)); csimpl; rewrite IH; [|done].
  f_equal. unfold dropna, select, records. cbn [body].
  rewrite select_rows_map. apply filter_bool_snd.
Qed.

Lemma invalid_part_records (required : list string) (df : DataFrame) :
  NoDup (index df) → records (invalid_part required df) = invalid_rows required df.
Proof.
  intros Hnd. unfold invalid_part, invalid_rows.
  destruct (issubset required (columns df)); [|done].
  unfold dropna, select, records, index in *. cbn [body].
  rewrite select_rows_map, complement_by_index by done.
  apply (filter_bool_snd (λ r, negb (complete required r))).
Qed.

Lemma invalid_parts_records (required : list string) (tables : list DataFrame) :
  Forall (λ df, NoDup (index df)) tables →
  (invalid_part required <$> tables) ≫= records
  = tables ≫= invalid_rows required.
Proof.
  induction 1 as [|df tables Hdf _ IH]; [done|]. csimpl.
  by rewrite IH, invalid_part_records.
Qed.

Lemma rows_split (required : list string) (tables : list DataFrame) :
  (tables ≫= valid_rows required) ++ (tables ≫= invalid_rows required)
  ≡ₚ tables ≫= records.
Proof.
  induction tables as [|df tables IH]; [done|]. csimpl.
  rewrite <- IH.
  assert (valid_rows required df ++ invalid_rows required df ≡ₚ records df)
    as <-.
  { unfold valid_rows, invalid_rows.
    destruct (issubset required (columns df)); [|done].
    apply filter_bool_split. }
  rewrite <- !app_assoc. f_equiv. rewrite !app_assoc. f_equiv.
  apply Permutation_app_comm.
Qed.

(** The two tables of [process_folder], row by row. *)
Lemma loaded_rows_kept (required : list string) (tables : list DataFrame) :
  Forall2 row_kept (tables ≫= valid_rows required)
          (records (concat_or_empty (omap (valid_part required) tables))).
Proof. rewrite <- valid_part_records. apply concat_or_empty_kept. Qed.

Lemma quarantined_rows_kept (required : list string) (tables : list DataFrame) :
  Forall (λ df, NoDup (index df)) tables →
  Forall2 row_kept (tables ≫= invalid_rows required)
          (records (concat_or_empty (invalid_part required <$> tables))).
Proof.
  intros Hnd. rewrite <- invalid_parts_records by done.
  apply concat_or_empty_kept.
Qed.

Lemma union_columns_fold (acc : list string) (headers : list (list string))
    (c : string) :
  c ∈ foldl union_columns acc headers
  ↔ c ∈ acc ∨ ∃ cols, cols ∈ headers ∧ c ∈ cols.
Proof.
  revert acc. induction headers as [|h headers IH]; intros acc; simpl.
  { split; [by left|]. intros [H|(cols & []%elem_of_nil & _)]; done. }
  rewrite IH. unfold union_columns. rewrite elem_of_app, filter_bool_elem.
  rewrite negb_true_iff, bool_decide_eq_false. split.
  - intros [[H|[H _]]|(cols & Hin & H)]; [by left| |].
    + right. exists h. split; [left|done].
    + right. exists cols. split; [by right|done].
  - intros [H|(cols & [->|Hin]%elem_of_cons & H)]; [by left;left| |].
    + left. destruct (decide (c ∈ acc)); [by left|by right].
    + right. by exists cols.
Qed.

Lemma concat_columns (frames : list DataFrame) (c : string) :
  c ∈ columns (concat frames) ↔ ∃ df, df ∈ frames ∧ c ∈ columns df.
Proof.
  unfold concat, frame_of. cbn [columns]. rewrite union_columns_fold. split.
  - intros [[]%elem_of_nil|(cols & (df & -> & Hdf)%list_elem_of_fmap & Hc)].
    by exists df.
  - intros (df & Hdf & Hc). right. exists (columns df). split; [|done].
    apply list_elem_of_fmap. by exists df.
Qed.

(** X1.  Given the listing of the directory, [process_folder] returns a
    table and leaves the store alone.  The table holds the rows that pass
    the validator, file after file in the order of the listing and row
    after row in the order of each file; the other rows of these files
    are handed, in the same order and in one table, to [save_file] under
    [invalid_file_name].  A row is stored as it was read, but for the
    integers of a column that the concatenation stores as floats.  Both
    tables are numbered from 0; no row of a file that was read is lost and
    none is in both tables; a file that is skipped for its name, or that
    the parser refuses, gives no row. *)
Theorem process_folder_conserves_rows (folder : string) (required : list string)
    (file_type invalid_file_name : string) (w : world) :
  let tables := parsed_files src folder file_type in
  ∃ valid invalid w',
    process_folder src folder required file_type invalid_file_name w
    = (inr valid, w')
    ∧ heap w' = heap w
    ∧ sink w' = sink w ++ [(invalid_file_name, PFrame invalid)]
    ∧ Forall2 row_kept (tables ≫= valid_rows required) (records valid)
    ∧ Forall2 row_kept (tables ≫= invalid_rows required) (records invalid)
    ∧ (tables ≫= valid_rows required) ++ (tables ≫= invalid_rows required)
      ≡ₚ tables ≫= records
    ∧ len valid + len invalid = length (tables ≫= records)
    ∧ index valid = seq 0 (len valid)
    ∧ index invalid = seq 0 (len invalid).
Proof.
  intros tables.
  destruct (process_folder_run folder required file_type invalid_file_name w)
    as (w' & Hrun & Hheap & Hsink).
  do 2 eexists. exists w'. split; [exact Hrun|]. split; [done|].
  split; [exact Hsink|]. fold tables.
  pose proof (loaded_rows_kept required tables) as Hv.
  pose proof (quarantined_rows_kept required tables
                (tables_of_index folder file_type (listdir src folder))) as Hi.
  split; [done|]. split; [done|]. split; [apply rows_split|].
  split; [|split; apply index_concat_or_empty].
  unfold len. rewrite <- (length_fmap snd (body (concat_or_empty (omap _ _)))).
  rewrite <- (length_fmap snd (body (concat_or_empty (_ <$> _)))).
  fold (records (concat_or_empty (omap (valid_part required) tables))).
  fold (records (concat_or_empty (invalid_part required <$> tables))).
  rewrite <- (Forall2_length _ _ _ Hv), <- (Forall2_length _ _ _ Hi).
  by rewrite <- length_app, rows_split.
Qed.

Lemma valid_rows_elem (required : list string) (df : DataFrame) (r : row) :
  r ∈ valid_rows required df
  ↔ required ⊆ columns df ∧ r ∈ records df
    ∧ ∀ c, c ∈ required → isna (cell r c) = false.
Proof.
  unfold valid_rows. destruct (issubset required (columns df)) eqn:Hsub.
  - apply issubset_spec in Hsub. rewrite filter_bool_elem, complete_spec. tauto.
  - split; [by intros []%elem_of_nil|]. intros (H%issubset_spec & _). congruence.
Qed.

Lemma invalid_rows_elem (required : list string) (df : DataFrame) (r : row) :
  r ∈ invalid_rows required df
  ↔ r ∈ records df
    ∧ (¬ required ⊆ columns df
       ∨ ∃ c, c ∈ required ∧ isna (cell r c) = true).
Proof.
  unfold invalid_rows. destruct (issubset required (columns df)) eqn:Hsub.
  - rewrite filter_bool_elem, negb_true_iff, incomplete_spec.
    apply issubset_spec in Hsub. tauto.
  - assert (¬ required ⊆ columns df)
      by (intros H%issubset_spec; congruence).
    tauto.
Qed.

Lemma Forall2_elem_l {A B} (P : A → B → Prop) (l : list A) (k : list B) (x : A) :
  Forall2 P l k → x ∈ l → ∃ y, y ∈ k ∧ P x y.
Proof.
  induction 1 as [|a b l k Hab _ IH]; [by intros []%elem_of_nil|].
  intros [->|Hx]%elem_of_cons.
  - exists b. split; [left|done].
  - destruct (IH Hx) as (y & Hy & Hxy). exists y. split; [by right|done].
Qed.

Lemma Forall2_elem_r {A B} (P : A → B → Prop) (l : list A) (k : list B) (y : B) :
  Forall2 P l k → y ∈ k → ∃ x, x ∈ l ∧ P x y.
Proof.
  induction 1 as [|a b l k Hab _ IH]; [by intros []%elem_of_nil|].
  intros [->|Hy]%elem_of_cons.
  - exists a. split; [left|done].
  - destruct (IH Hy) as (x & Hx & Hxy). exists x. split; [by right|done].
Qed.

(** X2.  A row [process_folder] returns is a row, of a file it read, that
    comes from a file with every required column and has no missing cell
    in a required column, and every such row is returned; a row it hands
    to [save_file] is a row of a file that lacks a required column, or a
    row with a missing required cell, and every such row is handed over.
    A row is stored as it was read, but for the integers of a column that
    the concatenation stores as floats. *)
Theorem process_folder_rows (folder : string) (required : list string)
    (file_type invalid_file_name : string) (w : world) :
  let tables := parsed_files src folder file_type in
  let passes df r :=
    df ∈ tables ∧ required ⊆ columns df ∧ r ∈ records df
    ∧ ∀ c, c ∈ required → isna (cell r c) = false in
  let fails df r :=
    df ∈ tables ∧ r ∈ records df
    ∧ (¬ required ⊆ columns df ∨ ∃ c, c ∈ required ∧ isna (cell r c) = true) in
  ∃ valid invalid w',
    process_folder src folder required file_type invalid_file_name w
    = (inr valid, w')
    ∧ sink w' = sink w ++ [(invalid_file_name, PFrame invalid)]
    ∧ (∀ r', r' ∈ records valid → ∃ df r, passes df r ∧ row_kept r r')
    ∧ (∀ df r, passes df r → ∃ r', r' ∈ records valid ∧ row_kept r r')
    ∧ (∀ r', r' ∈ records invalid → ∃ df r, fails df r ∧ row_kept r r')
    ∧ (∀ df r, fails df r → ∃ r', r' ∈ records invalid ∧ row_kept r r').
Proof.
  intros tables passes fails.
  destruct (process_folder_run folder required file_type invalid_file_name w)
    as (w' & Hrun & Hheap & Hsink).
  do 2 eexists. exists w'. split; [exact Hrun|]. split; [exact Hsink|].
  fold tables.
  pose proof (loaded_rows_kept required tables) as Hv.
  pose proof (quarantined_rows_kept required tables
                (tables_of_index folder file_type (listdir src folder))) as Hi.
  split; [|split; [|split]].
  - intros r' Hr'. destruct (Forall2_elem_r _ _ _ _ Hv Hr') as (r & Hr & Hk).
    apply list_elem_of_bind in Hr as (df & Hr & Hdf).
    apply valid_rows_elem in Hr. exists df, r. unfold passes. tauto.
  - intros df r (Hdf & Hsub & Hr & Hc).
    apply (Forall2_elem_l _ _ _ _ Hv). apply list_elem_of_bind. exists df.
    split; [|done]. by apply valid_rows_elem.
  - intros r' Hr'. destruct (Forall2_elem_r _ _ _ _ Hi Hr') as (r & Hr & Hk).
    apply list_elem_of_bind in Hr as (df & Hr & Hdf).
    apply invalid_rows_elem in Hr. exists df, r. unfold fails. tauto.
  - intros df r (Hdf & Hr & Hc).
    apply (Forall2_elem_l _ _ _ _ Hi). apply list_elem_of_bind. exists df.
    split; [|done]. by apply invalid_rows_elem.
Qed.




(** X3.  The header of the table [process_folder] returns holds every
    column of every file that has the required columns, so it holds the
    required columns as soon as there is one such file.  When there is
    none (an empty directory, files of another extension, files the parser
    refuses, files that lack a required column) the table returned is
    [pd.DataFrame()], which has no column at all. *)
Theorem process_folder_header (folder : string) (required : list string)
    (file_type invalid_file_name : string) (w : world) :
  let tables := parsed_files src folder file_type in
  ∃ valid w',
    process_folder src folder required file_type invalid_file_name w
    = (inr valid, w')
    ∧ (∀ df c, df ∈ tables → required ⊆ columns df → c ∈ columns df →
               c ∈ columns valid)
    ∧ ((∃ df, df ∈ tables ∧ required ⊆ columns df) → required ⊆ columns valid)
    ∧ ((∀ df, df ∈ tables → ¬ required ⊆ columns df) → valid = empty_frame).
Proof.
  intros tables.
  destruct (process_folder_run folder required file_type invalid_file_name w)
    as (w' & Hrun & _).
  eexists. exists w'. split; [exact Hrun|]. fold tables.
  assert (Hcol : ∀ df c, df ∈ tables → required ⊆ columns df → c ∈ columns df →
                 c ∈ columns (concat_or_empty (omap (valid_part required) tables))).
  { intros df c Hdf Hsub Hc.
    assert (Hin : dropna df required ∈ omap (valid_part required) tables).
    { apply list_elem_of_omap. exists df. split; [done|].
      unfold valid_part. by rewrite (proj2 (issubset_spec _ _) Hsub). }
    destruct (omap (valid_part required) tables) as [|v vs] eqn:Hvs;
      [by apply elem_of_nil in Hin|].
    apply concat_columns. by exists (dropna df required). }
  split; [exact Hcol|]. split.
  - intros (df & Hdf & Hsub) c Hc. apply (Hcol df); auto.
  - intros Hnone.
    assert (omap (valid_part required) tables = []) as ->; [|done].
    clear Hrun Hcol. clearbody tables. induction tables as [|df tables IH]; [done|]. csimpl.
    unfold valid_part at 1.
    destruct (issubset required (columns df)) eqn:Hsub.
    + destruct (Hnone df); [left|by apply issubset_spec].
    + apply IH. intros. apply Hnone. by right.
Qed.

End Loader.

(** ** The referential filter, row by row *)

Section ReferentialRows.

Variable float_repr : Q → string.

Lemma isin_cell_strings (values : list value) (v : value) :
  Forall (λ x, is_str x = true) values →
  isin_cell values v = true ↔ v ∈ values.
Proof.
  intros Hstr. unfold isin_cell. rewrite existsb_exists. split.
  - intros (x & Hx%list_elem_of_In & Heq).
    pose proof (proj1 (Forall_forall _ _) Hstr x Hx) as Hs.
    destruct x as [| | | |s]; try done. destruct v as [| | | |t]; try done.
    simpl in Heq. rewrite orb_false_r in Heq.
    apply bool_decide_eq_true in Heq. by subst.
  - intros Hv. exists v. split; [by apply list_elem_of_In|].
    pose proof (proj1 (Forall_forall _ _) Hstr v Hv) as Hs.
    destruct v as [| | | |s]; try done. simpl.
    by rewrite bool_decide_eq_true_2.
Qed.

Lemma npi_strings (company : DataFrame) :
  Forall (λ x, is_str x = true)
         ((λ ir : nat * row, astype_str float_repr (cell ir.2 "npi"))
            <$> body company).
Proof.
  apply Forall_fmap, Forall_forall. intros ir _. simpl.
  by destruct (astype_str_is_str float_repr (cell ir.2 "npi")) as [s ->].
Qed.

Lemma npi_string_elem (company : DataFrame) (v : value) :
  v ∈ (λ ir : nat * row, astype_str float_repr (cell ir.2 "npi")) <$> body company
  ↔ ∃ p, p ∈ records company ∧ v = astype_str float_repr (cell p "npi").
Proof.
  rewrite list_elem_of_fmap. unfold records. split.
  - intros (ir & -> & Hir). exists ir.2. split; [|done].
    apply list_elem_of_fmap. by exists ir.
  - intros (p & (ir & -> & Hir)%list_elem_of_fmap & ->). by exists ir.
Qed.

(** X4.  With an [npi] column in both tables, the claims the referential
    filter keeps are the claims whose [npi], read as a string, is the
    [npi] of some pharmacy row read as a string.  They stand in the order
    of the claims table, under the header and with the labels they had. *)
Theorem valid_claims_reference_a_pharmacy (company claims : DataFrame) :
  "npi" ∈ columns company → "npi" ∈ columns claims →
  ∃ valid invalid,
    filter_claims float_repr company claims = inr (valid, invalid)
    ∧ columns valid = columns claims
    ∧ body valid `sublist_of` body claims
    ∧ ∀ ir, ir ∈ body valid
            ↔ ir ∈ body claims ∧ references float_repr company ir.2.
Proof.
  intros Hc Hk. rewrite filter_claims_spec by done.
  do 2 eexists. split; [reflexivity|]. cbn [columns body fst snd].
  split; [done|]. split.
  - induction (body claims) as [|ir l IH]; simpl; [done|].
    destruct (isin_cell _ _); by constructor.
  - intros ir. rewrite filter_bool_elem.
    rewrite (isin_cell_strings _ _ (npi_strings company)), npi_string_elem.
    done.
Qed.

(** X5.  The table of orphaned claims holds the claims whose [npi], as it
    stands, is not the string of any pharmacy [npi].  No claim is lost:
    every claim is in one of the two tables.  A claim is in both exactly
    when its [npi] is not a string and its string form is the [npi] of a
    pharmacy; when every claim carries its [npi] as a string, no claim is
    in both. *)
Theorem orphaned_claims_and_overlap (company claims : DataFrame) :
  "npi" ∈ columns company → "npi" ∈ columns claims →
  ∃ valid invalid,
    filter_claims float_repr company claims = inr (valid, invalid)
    ∧ columns invalid = columns claims
    ∧ (∀ ir, ir ∈ body invalid
             ↔ ir ∈ body claims ∧ ¬ references_as_is float_repr company ir.2)
    ∧ (∀ ir, ir ∈ body claims → ir ∈ body valid ∨ ir ∈ body invalid)
    ∧ (∀ ir, ir ∈ body valid ∧ ir ∈ body invalid
             ↔ ir ∈ body claims ∧ is_str (cell ir.2 "npi") = false
               ∧ references float_repr company ir.2)
    ∧ ((∀ ir, ir ∈ body claims → is_str (cell ir.2 "npi") = true) →
       ∀ ir, ir ∈ body valid → ir ∉ body invalid).
Proof.
  intros Hc Hk. rewrite filter_claims_spec by done.
  do 2 eexists. split; [reflexivity|]. cbn [columns body fst snd].
  set (S := (λ ir : nat * row, astype_str float_repr (cell ir.2 "npi"))
              <$> body company).
  assert (Hvalid : ∀ ir : nat * row, isin_cell S (astype_str float_repr (cell ir.2 "npi")) = true
                         ↔ references float_repr company ir.2).
  { intros ir. unfold S.
    by rewrite (isin_cell_strings _ _ (npi_strings company)), npi_string_elem. }
  assert (Hraw : ∀ ir : nat * row, isin_cell S (cell ir.2 "npi") = true
                       ↔ references_as_is float_repr company ir.2).
  { intros ir. unfold S.
    by rewrite (isin_cell_strings _ _ (npi_strings company)), npi_string_elem. }
  assert (Hstr : ∀ ir : nat * row, is_str (cell ir.2 "npi") = true →
                 astype_str float_repr (cell ir.2 "npi") = cell ir.2 "npi").
  { intros ir. by destruct (cell ir.2 "npi"). }
  assert (Himp : ∀ ir : nat * row, references_as_is float_repr company ir.2 →
                 is_str (cell ir.2 "npi") = true
                 ∧ references float_repr company ir.2).
  { intros ir (p & Hp & Heq).
    destruct (astype_str_is_str float_repr (cell p "npi")) as [s Hs].
    assert (is_str (cell ir.2 "npi") = true) by (by rewrite Heq, Hs).
    split; [done|]. exists p. split; [done|]. rewrite Hstr by done. done. }
  split; [done|]. split; [|split; [|split]].
  - intros ir. rewrite filter_bool_elem, negb_true_iff, <- Hraw.
    by rewrite not_true_iff_false.
  - intros ir Hir. rewrite !filter_bool_elem, negb_true_iff.
    destruct (isin_cell S (cell ir.2 "npi")) eqn:Hin; [|by right].
    left. split; [done|]. apply Hvalid. by apply Himp, Hraw.
  - intros ir. rewrite !filter_bool_elem, negb_true_iff, Hvalid. split.
    + intros [[Hir Href] [_ Hno]]. split; [done|]. split; [|done].
      destruct (is_str (cell ir.2 "npi")) eqn:His; [|done].
      assert (isin_cell S (cell ir.2 "npi") = true); [|congruence].
      rewrite <- (Hstr ir His). by apply Hvalid.
    + intros (Hir & His & Href). split; [done|]. split; [done|].
      apply not_true_iff_false. intros [Hs _]%Hraw%Himp. congruence.
  - intros Hall ir [Hir Href]%filter_bool_elem [_ Hno]%filter_bool_elem.
    rewrite <- (Hstr ir (Hall ir Hir)), Href in Hno. done.
Qed.

End ReferentialRows.

Lemma valid_claims_reference_a_pharmacy_witness :
  ∃ valid invalid,
    filter_claims Sample.float_repr Sample.pharmacy Sample.claims
    = inr (valid, invalid)
    ∧ columns valid = columns Sample.claims
    ∧ body valid `sublist_of` body Sample.claims
    ∧ ∀ ir, ir ∈ body valid
            ↔ ir ∈ body Sample.claims
              ∧ references Sample.float_repr Sample.pharmacy ir.2.
Proof.
  apply (valid_claims_reference_a_pharmacy Sample.float_repr
           Sample.pharmacy Sample.claims);
    apply (bool_decide_unpack _); vm_compute; exact I.
Defined.

Lemma orphaned_claims_and_overlap_witness :
  ∃ valid invalid,
    filter_claims Sample.float_repr Sample.pharmacy Sample.numeric_claims
    = inr (valid, invalid)
    ∧ ∀ ir, ir ∈ body valid ∧ ir ∈ body invalid
            ↔ ir ∈ body Sample.numeric_claims
              ∧ is_str (cell ir.2 "npi") = false
              ∧ references Sample.float_repr Sample.pharmacy ir.2.
Proof.
  assert (Hc : "npi" ∈ columns Sample.pharmacy)
    by (apply (bool_decide_unpack _); vm_compute; exact I).
  assert (Hk : "npi" ∈ columns Sample.numeric_claims)
    by (apply (bool_decide_unpack _); vm_compute; exact I).
  destruct (orphaned_claims_and_overlap Sample.float_repr Sample.pharmacy
              Sample.numeric_claims Hc Hk)
    as (valid & invalid & Hrun & _ & _ & _ & Hboth & _).
  exists valid, invalid. split; [exact Hrun|exact Hboth].
Defined.

(** ** The three directories *)

Section Directories.

Variable float_repr : Q → string.
Variable src : source.
Variable base_path : string.

Abbreviation company_table :=
  (loaded_table src (company_dir base_path) pharmacies_required_columns "csv").
Abbreviation claims_table :=
  (loaded_table src (claims_dir base_path) claims_required_columns "json").
Abbreviation reverts_table :=
  (loaded_table src (rollback_dir base_path) reverts_required_columns "json").
Abbreviation company_quarantine :=
  (quarantined_table src (company_dir base_path) pharmacies_required_columns
                     "csv").
Abbreviation claims_quarantine :=
  (quarantined_table src (claims_dir base_path) claims_required_columns "json").
Abbreviation reverts_quarantine :=
  (quarantined_table src (rollback_dir base_path) reverts_required_columns
                     "json").

Lemma loaded_table_header folder required file_type :
  has_compliant_file src folder required file_type →
  required ⊆ columns (loaded_table src folder required file_type).
Proof.
  intros (df & Hdf & Hsub) c Hc. unfold loaded_table.
  assert (Hin : dropna df required
                ∈ omap (valid_part required) (parsed_files src folder file_type)).
  { apply list_elem_of_omap. exists df. split; [done|].
    unfold valid_part. by rewrite (proj2 (issubset_spec _ _) Hsub). }
  destruct (omap _ _) as [|v vs] eqn:Hvs; [by apply elem_of_nil in Hin|].
  apply concat_columns. exists (dropna df required). split; [done|].
  by apply Hsub.
Qed.

Lemma loaded_table_empty folder required file_type :
  ¬ has_compliant_file src folder required file_type →
  loaded_table src folder required file_type = empty_frame.
Proof.
  unfold has_compliant_file, loaded_table. intros Hnone.
  assert (omap (valid_part required) (parsed_files src folder file_type) = [])
    as ->; [|done].
  induction (parsed_files src folder file_type) as [|df tables IH]; [done|].
  csimpl. unfold valid_part at 1.
  destruct (issubset required (columns df)) eqn:Hsub.
  - destruct Hnone. exists df. split; [left|by apply issubset_spec].
  - apply IH. intros (df' & Hdf' & Hsub'). apply Hnone. exists df'.
    split; [by right|done].
Qed.

(** The two loads that come before the referential filter. *)
Lemma first_two_folders (w : world) :
  ∃ w2,
    (∀ A (k : DataFrame → DataFrame → M A),
       (company_data ← process_folder src (company_dir base_path)
                          pharmacies_required_columns "csv" "invalid_company.csv";
        claims_data ← process_folder src (claims_dir base_path)
                         claims_required_columns "json" "invalid_claims.json";
        k company_data claims_data) w
       = k company_table claims_table w2)
    ∧ heap w2 = heap w
    ∧ sink w2 = sink w ++ [("invalid_company.csv", PFrame company_quarantine);
                           ("invalid_claims.json", PFrame claims_quarantine)].
Proof.
  destruct (process_folder_run src (company_dir base_path)
              pharmacies_required_columns "csv" "invalid_company.csv" w)
    as (w1 & Hrun1 & Hh1 & Hs1).
  destruct (process_folder_run src (claims_dir base_path)
              claims_required_columns "json" "invalid_claims.json" w1)
    as (w2 & Hrun2 & Hh2 & Hs2).
  exists w2. split; [|split].
  - intros A k. rewrite (bind_run _ _ _ _ _ Hrun1).
    by rewrite (bind_run _ _ _ _ _ Hrun2).
  - congruence.
  - rewrite Hs2, Hs1, <- app_assoc. done.
Qed.

Lemma filter_claims_missing (company claims : DataFrame) :
  "npi" ∉ columns company ∨ "npi" ∉ columns claims →
  filter_claims float_repr company claims = inl (KeyError "npi").
Proof.
  intros H. unfold filter_claims, getitem.
  destruct (decide ("npi" ∈ columns company)) as [Hc|Hc].
  - rewrite (bool_decide_eq_true_2 _ Hc). simpl.
    destruct H as [H|H]; [done|]. by rewrite (bool_decide_eq_false_2 _ H).
  - by rewrite (bool_decide_eq_false_2 _ Hc).
Qed.

Lemma process_datasets_abort (w : world) :
  ¬ has_compliant_file src (company_dir base_path)
                       pharmacies_required_columns "csv"
  ∨ ¬ has_compliant_file src (claims_dir base_path)
                         claims_required_columns "json" →
  ∃ w', process_datasets float_repr src base_path w = (inl (KeyError "npi"), w')
        ∧ heap w' = heap w
        ∧ sink w' = sink w ++ [("invalid_company.csv", PFrame company_quarantine);
                               ("invalid_claims.json", PFrame claims_quarantine)].
Proof.
  intros Hnone. unfold process_datasets.
  erewrite bind_run; [|reflexivity].
  match goal with |- ∃ _, _ ?w0 = _ ∧ _ =>
    destruct (first_two_folders w0) as (w2 & Hrun & Hh & Hs) end.
  rewrite Hrun. unfold lift, mbind at 1, M_bind at 1.
  rewrite filter_claims_missing.
  - exists w2. split; [done|]. done.
  - destruct Hnone as [H|H]; [left|right];
      rewrite (loaded_table_empty _ _ _ H); apply not_elem_of_nil.
Qed.

Lemma process_datasets_run (w : world) :
  has_compliant_file src (company_dir base_path)
                     pharmacies_required_columns "csv" →
  has_compliant_file src (claims_dir base_path) claims_required_columns "json" →
  ∃ valid invalid,
    filter_claims float_repr company_table claims_table = inr (valid, invalid)
    ∧ columns valid = columns claims_table
    ∧ ∃ w',
        process_datasets float_repr src base_path w
        = (inr (length (heap w), S (length (heap w)), S (S (length (heap w)))), w')
        ∧ heap w' = heap w ++ [company_table; valid; reverts_table]
        ∧ sink w'
          = sink w ++ [("invalid_company.csv", PFrame company_quarantine);
                       ("invalid_claims.json", PFrame claims_quarantine);
                       (path_join (invalid_records_dir base_path)
                                  "invalid_claims.json", PFrame invalid);
                       ("data/invalid_records/invalid_rollback.json",
                        PFrame reverts_quarantine)].
Proof.
  intros Hcompany Hclaims.
  assert (Hc : "npi" ∈ columns company_table).
  { apply (loaded_table_header _ _ _ Hcompany). set_solver. }
  assert (Hk : "npi" ∈ columns claims_table).
  { apply (loaded_table_header _ _ _ Hclaims). set_solver. }
  pose proof (filter_claims_spec float_repr _ _ Hc Hk) as Hfilter.
  cbv zeta in Hfilter.
  do 2 eexists. split; [exact Hfilter|]. split; [done|].
  unfold process_datasets.
  erewrite bind_run; [|reflexivity].
  match goal with |- ∃ _, _ ?w0 = _ ∧ _ =>
    destruct (first_two_folders w0) as (w2 & Hrun & Hh & Hs) end.
  rewrite Hrun.
  eassert (Hlift : lift (filter_claims float_repr company_table claims_table) w2
                   = (inr _, w2))
    by (unfold lift; rewrite Hfilter; reflexivity).
  rewrite (bind_run _ _ _ _ _ Hlift).
  erewrite bind_run; [|reflexivity].
  match goal with |- ∃ _, (_ ≫= _) ?w3 = _ ∧ _ =>
    destruct (process_folder_run src (rollback_dir base_path)
                reverts_required_columns "json"
                "data/invalid_records/invalid_rollback.json" w3)
      as (w4 & Hrun4 & Hh4 & Hs4) end.
  rewrite (bind_run _ _ _ _ _ Hrun4).
  eexists. split; [|split].
  - unfold mbind, M_bind, logging, alloc. simpl.
    rewrite Hh4. simpl. rewrite Hh. simpl. rewrite !length_app. simpl.
    replace (length (heap w) + 1) with (S (length (heap w))) by lia.
    replace (S (length (heap w)) + 1) with (S (S (length (heap w)))) by lia.
    reflexivity.
  - simpl. by rewrite <- !app_assoc.
  - simpl. rewrite Hs4. simpl. rewrite Hs. simpl. by rewrite <- !app_assoc.
Qed.


Lemma loaded_table_rows folder required file_type (r : row) :
  r ∈ records (loaded_table src folder required file_type) →
  ∀ c, c ∈ required → isna (cell r c) = false.
Proof.
  unfold loaded_table. intros Hr c Hc.
  destruct (Forall2_elem_r _ _ _ _ (loaded_rows_kept required _) Hr)
    as (r0 & Hr0 & Hk).
  apply list_elem_of_bind in Hr0 as (df & Hr0 & _).
  apply valid_rows_elem in Hr0 as (_ & _ & Hr0).
  rewrite (row_kept_isna r0 r c Hk). by apply Hr0.
Qed.

(** X6.  When both the pharmacies and the claims directory hold a file
    with the required columns, [process_datasets] returns three tables
    that are three distinct new objects of the store.  The pharmacy and
    the claims table have their required columns and no missing cell in
    them; every claim of the claims table carries, as a string, the [npi]
    of a pharmacy of the pharmacy table.  Four tables have gone to the
    sink, in this order: the quarantine of the pharmacies, that of the
    claims, the orphaned claims under the invalid-records directory, and
    the quarantine of the reverts. *)
Theorem process_datasets_loads (w : world) :
  has_compliant_file src (company_dir base_path)
                     pharmacies_required_columns "csv" →
  has_compliant_file src (claims_dir base_path) claims_required_columns "json" →
  ∃ company claims reverts orphans w',
    process_datasets float_repr src base_path w
    = (inr (length (heap w), S (length (heap w)), S (S (length (heap w)))), w')
    ∧ heap w' = heap w ++ [company; claims; reverts]
    ∧ (sink w').*1
      = (sink w).*1 ++ ["invalid_company.csv"; "invalid_claims.json";
                        path_join (invalid_records_dir base_path)
                                  "invalid_claims.json";
                        "data/invalid_records/invalid_rollback.json"]
    ∧ (sink w').*2 !! (length (sink w) + 2) = Some (PFrame orphans)
    ∧ filter_claims float_repr company claims_table = inr (claims, orphans)
    ∧ pharmacies_required_columns ⊆ columns company
    ∧ claims_required_columns ⊆ columns claims
    ∧ (∀ r c, r ∈ records company → c ∈ pharmacies_required_columns →
              isna (cell r c) = false)
    ∧ (∀ r c, r ∈ records claims → c ∈ claims_required_columns →
              isna (cell r c) = false)
    ∧ (∀ r, r ∈ records claims → references float_repr company r).
Proof.
  intros Hcompany Hclaims.
  destruct (process_datasets_run w Hcompany Hclaims)
    as (valid & invalid & Hfilter & Hcols & w' & Hrun & Hh & Hs).
  exists company_table, valid, reverts_table, invalid, w'.
  split; [exact Hrun|]. split; [exact Hh|].
  assert (Hc : "npi" ∈ columns company_table).
  { apply (loaded_table_header _ _ _ Hcompany). set_solver. }
  assert (Hk : "npi" ∈ columns claims_table).
  { apply (loaded_table_header _ _ _ Hclaims). set_solver. }
  assert (Hbody : body valid
                  = List.filter
                      (λ ir : nat * row,
                         isin_cell
                           ((λ ir0 : nat * row,
                               astype_str float_repr (cell ir0.2 "npi"))
                              <$> body company_table)
                           (astype_str float_repr (cell ir.2 "npi")))
                      (body claims_table)).
  { pose proof (filter_claims_spec float_repr _ _ Hc Hk) as Hspec.
    cbv zeta in Hspec. rewrite Hfilter in Hspec. by injection Hspec as -> _. }
  split; [|split; [|split; [|split; [|split; [|split; [|split]]]]]].
  - rewrite Hs, fmap_app. done.
  - rewrite Hs, fmap_app, lookup_app_r by (rewrite length_fmap; lia).
    rewrite length_fmap.
    by replace (length (sink w) + 2 - length (sink w)) with 2 by lia.
  - exact Hfilter.
  - by apply loaded_table_header.
  - rewrite Hcols. by apply loaded_table_header.
  - intros r c Hr Hc'. by eapply loaded_table_rows.
  - intros r c Hr Hc'.
    apply (loaded_table_rows (claims_dir base_path) claims_required_columns
             "json" r); [|done].
    unfold records in *. rewrite Hbody in Hr.
    apply list_elem_of_fmap in Hr as (ir & -> & [Hir _]%filter_bool_elem).
    apply list_elem_of_fmap. by exists ir.
  - intros r Hr. unfold records in Hr. rewrite Hbody in Hr.
    apply list_elem_of_fmap in Hr as (ir & -> & [_ Hir]%filter_bool_elem).
    rewrite (isin_cell_strings _ _ (npi_strings float_repr company_table)) in Hir.
    by apply npi_string_elem in Hir.
Qed.

Section Run.

Variable parse_float : string → option Q.
Variable todays_date : string.

(** X7.  When the pharmacies directory or the claims directory holds no
    file that is read and has the required columns, [process_datasets]
    stops in the referential filter with [KeyError: 'npi'], and so does
    [run]: the table of that directory is [pd.DataFrame()], which has no
    [npi] column.  By then the two quarantine tables have been handed to
    the sink and nothing else has, and no table is put in the store. *)
Theorem pipeline_needs_pharmacies_and_claims (w : world) :
  ¬ has_compliant_file src (company_dir base_path)
                       pharmacies_required_columns "csv"
  ∨ ¬ has_compliant_file src (claims_dir base_path)
                         claims_required_columns "json" →
  (∃ w', process_datasets float_repr src base_path w = (inl (KeyError "npi"), w')
         ∧ heap w' = heap w
         ∧ sink w' = sink w ++ [("invalid_company.csv", PFrame company_quarantine);
                                ("invalid_claims.json", PFrame claims_quarantine)])
  ∧ (∃ w', run float_repr parse_float src todays_date base_path w
           = (inl (KeyError "npi"), w')
           ∧ heap w' = heap w
           ∧ sink w' = sink w ++ [("invalid_company.csv", PFrame company_quarantine);
                                  ("invalid_claims.json", PFrame claims_quarantine)]).
Proof.
  intros Hnone. split; [by apply process_datasets_abort|].
  unfold run. erewrite bind_run; [|reflexivity].
  match goal with |- ∃ _, _ ?w0 = _ ∧ _ =>
    destruct (process_datasets_abort w0 Hnone) as (w' & Hrun & Hh & Hs) end.
  exists w'. split; [|done].
  by rewrite (bind_raise _ _ _ _ _ Hrun).
Qed.

(** X8.  When the pharmacies and the claims directory hold a compliant
    file and the reverts directory holds none, [process_datasets]
    completes, and [run] stops in the summary aggregation with
    [KeyError: 'claim_id'], the key of the join that the empty reverts
    table lacks.  The three tables are in the store; nothing but the four
    quarantine tables has been handed to the sink: no result is saved. *)
Theorem run_needs_reverts (w : world) :
  has_compliant_file src (company_dir base_path)
                     pharmacies_required_columns "csv" →
  has_compliant_file src (claims_dir base_path) claims_required_columns "json" →
  ¬ has_compliant_file src (rollback_dir base_path)
                       reverts_required_columns "json" →
  ∃ claims w',
    run float_repr parse_float src todays_date base_path w
    = (inl (KeyError "claim_id"), w')
    ∧ heap w' = heap w ++ [company_table; claims; empty_frame]
    ∧ (sink w').*1
      = (sink w).*1 ++ ["invalid_company.csv"; "invalid_claims.json";
                        path_join (invalid_records_dir base_path)
                                  "invalid_claims.json";
                        "data/invalid_records/invalid_rollback.json"].
Proof.
  intros Hcompany Hclaims Hreverts. unfold run.
  erewrite bind_run; [|reflexivity].
  match goal with |- ∃ _ _, _ ?w0 = _ ∧ _ =>
    destruct (process_datasets_run w0 Hcompany Hclaims)
      as (valid & invalid & Hfilter & Hcols & w1 & Hrun & Hh & Hs) end.
  cbn [heap sink] in Hrun, Hh, Hs.
  rewrite (bind_run _ _ _ _ _ Hrun).
  rewrite (loaded_table_empty _ _ _ Hreverts) in Hh.
  assert (Hid : "id" ∈ columns valid).
  { rewrite Hcols. apply (loaded_table_header _ _ _ Hclaims). set_solver. }
  assert (Hanalysis : analysis valid empty_frame = inl (KeyError "claim_id")).
  { unfold analysis, merge. rewrite (bool_decide_eq_true_2 _ Hid). simpl.
    done. }
  exists valid, w1. split; [|split].
  - apply bind_raise. unfold perform_analysis.
    erewrite bind_run; last first.
    { apply deref_run. rewrite Hh.
      rewrite lookup_app_r by lia.
      by replace (S (length (heap w)) - length (heap w)) with 1 by lia. }
    erewrite bind_run; last first.
    { apply deref_run. rewrite Hh.
      rewrite lookup_app_r by lia.
      by replace (S (S (length (heap w))) - length (heap w)) with 2 by lia. }
    apply bind_raise. unfold lift. by rewrite Hanalysis.
  - exact Hh.
  - rewrite Hs, fmap_app. done.
Qed.

End Run.

End Directories.

(** The sample directories without the claims: the run stops with
    [KeyError: 'npi'] after the two quarantine tables. *)
Lemma pipeline_needs_pharmacies_and_claims_witness :
  ∃ w', run Sample.float_repr Sample.parse_float Sample.no_claims "today" "data"
            Sample.start
        = (inl (KeyError "npi"), w')
        ∧ heap w' = []
        ∧ (sink w').*1 = ["invalid_company.csv"; "invalid_claims.json"].
Proof.
  assert (Hnone : ¬ has_compliant_file Sample.no_claims (claims_dir "data")
                                       claims_required_columns "json").
  { intros (df & Hdf & _). vm_compute in Hdf. by apply elem_of_nil in Hdf. }
  destruct (pipeline_needs_pharmacies_and_claims Sample.float_repr
              Sample.no_claims "data" Sample.parse_float "today" Sample.start
              (or_intror Hnone))
    as (_ & w' & Hrun & Hh & Hs).
  exists w'. split; [exact Hrun|]. split; [exact Hh|]. by rewrite Hs.
Defined.

(** The sample directories: the three tables are loaded at the addresses
    0, 1 and 2. *)
Lemma process_datasets_loads_witness :
  ∃ company claims reverts orphans w',
    process_datasets Sample.float_repr Sample.files "data" Sample.start
    = (inr (0, 1, 2), w')
    ∧ heap w' = [company; claims; reverts]
    ∧ (sink w').*1
      = ["invalid_company.csv"; "invalid_claims.json";
         "data/invalid_records/invalid_claims.json";
         "data/invalid_records/invalid_rollback.json"]
    ∧ (sink w').*2 !! 2 = Some (PFrame orphans)
    ∧ (∀ r, r ∈ records claims → references Sample.float_repr company r).
Proof.
  assert (Hcompany : has_compliant_file Sample.files (company_dir "data")
                                        pharmacies_required_columns "csv").
  { exists Sample.pharmacy. split.
    - assert (parsed_files Sample.files (company_dir "data") "csv"
              = [Sample.pharmacy]) as -> by (vm_compute; reflexivity).
      left.
    - apply issubset_spec. reflexivity. }
  assert (Hclaims : has_compliant_file Sample.files (claims_dir "data")
                                       claims_required_columns "json").
  { exists Sample.claims. split.
    - assert (parsed_files Sample.files (claims_dir "data") "json"
              = [Sample.claims]) as -> by (vm_compute; reflexivity).
      left.
    - apply issubset_spec. reflexivity. }
  destruct (process_datasets_loads Sample.float_repr Sample.files "data"
              Sample.start Hcompany Hclaims)
    as (company & claims & reverts & orphans & w' & Hrun & Hh & Hs & Ho & _
        & _ & _ & _ & _ & Href).
  exists company, claims, reverts, orphans, w'.
  split; [exact Hrun|]. split; [exact Hh|]. split; [exact Hs|].
  split; [exact Ho|exact Href].
Defined.

(** The sample directories with an empty reverts directory. *)
Lemma run_needs_reverts_witness :
  ∃ claims w',
    run Sample.float_repr Sample.parse_float Cases.no_reverts "today" "data"
        Sample.start
    = (inl (KeyError "claim_id"), w')
    ∧ heap w' = [loaded_table Cases.no_reverts (company_dir "data")
                              pharmacies_required_columns "csv";
                 claims; empty_frame]
    ∧ (sink w').*1
      = ["invalid_company.csv"; "invalid_claims.json";
         "data/invalid_records/invalid_claims.json";
         "data/invalid_records/invalid_rollback.json"].
Proof.
  assert (Hcompany : has_compliant_file Cases.no_reverts (company_dir "data")
                                        pharmacies_required_columns "csv").
  { exists Sample.pharmacy. split.
    - assert (parsed_files Cases.no_reverts (company_dir "data") "csv"
              = [Sample.pharmacy]) as -> by (vm_compute; reflexivity).
      left.
    - apply issubset_spec. reflexivity. }
  assert (Hclaims : has_compliant_file Cases.no_reverts (claims_dir "data")
                                       claims_required_columns "json").
  { exists Sample.claims. split.
    - assert (parsed_files Cases.no_reverts (claims_dir "data") "json"
              = [Sample.claims]) as -> by (vm_compute; reflexivity).
      left.
    - apply issubset_spec. reflexivity. }
  assert (Hreverts : ¬ has_compliant_file Cases.no_reverts (rollback_dir "data")
                                          reverts_required_columns "json").
  { intros (df & Hdf & _). vm_compute in Hdf. by apply elem_of_nil in Hdf. }
  apply (run_needs_reverts Sample.float_repr Cases.no_reverts "data"
           Sample.parse_float "today" Sample.start Hcompany Hclaims Hreverts).
Defined.

(** ** Reversals that name no claim *)

Lemma matches_known_reversals (claims rollbacks : DataFrame) (l : row) :
  l ∈ records claims →
  matches (known_reversals claims rollbacks) "claim_id" (cell l "id")
  = matches rollbacks "claim_id" (cell l "id").
Proof.
  intros Hl. unfold matches, known_reversals, records. cbn [body].
  rewrite (filter_bool_snd (names_a_claim claims)).
  induction (body rollbacks).*2 as [|r rs IH]; simpl; [done|].
  destruct (names_a_claim claims r) eqn:Hr; simpl; rewrite IH; [done|].
  destruct (key_match (cell l "id") (cell r "claim_id")) eqn:Hm; [|done].
  exfalso. apply not_true_iff_false in Hr. apply Hr.
  unfold names_a_claim. apply existsb_exists. exists l.
  split; [by apply list_elem_of_In|done].
Qed.

Lemma key_cells_strings (df : DataFrame) (c : string) :
  (∀ r, r ∈ records df → is_str (cell r c) = true) →
  Forall (λ v, is_str v = true) (key_cells df c).
Proof.
  intros H. unfold key_cells. apply Forall_fmap, Forall_forall. intros r Hr.
  by apply H.
Qed.

Lemma known_reversals_records (claims rollbacks : DataFrame) (r : row) :
  r ∈ records (known_reversals claims rollbacks) → r ∈ records rollbacks.
Proof.
  unfold known_reversals, records. cbn [body].
  intros (ir & -> & [Hir _]%filter_bool_elem)%list_elem_of_fmap.
  apply list_elem_of_fmap. by exists ir.
Qed.

Lemma merge_known_reversals (claims rollbacks : DataFrame) :
  (∀ l, l ∈ records claims → is_str (cell l "id") = true) →
  (∀ r, r ∈ records rollbacks → is_str (cell r "claim_id") = true) →
  merge claims (known_reversals claims rollbacks) "id" "claim_id" LeftJoin
        ("", "_rollback")
  = merge claims rollbacks "id" "claim_id" LeftJoin ("", "_rollback").
Proof.
  intros Hid Hcid. unfold merge.
  change (plan_merge claims (known_reversals claims rollbacks) "id" "claim_id"
                     ("", "_rollback"))
    with (plan_merge claims rollbacks "id" "claim_id" ("", "_rollback")).
  change (columns (known_reversals claims rollbacks)) with (columns rollbacks).
  rewrite !string_keys_ok;
    try (apply key_cells_strings; auto).
  - repeat case_match; try done. f_equal. f_equal.
    apply bind_ext_elem. intros l Hl. unfold join_row.
    by rewrite matches_known_reversals.
  - intros r Hr. by apply Hcid, (known_reversals_records claims).
Qed.

(** X9.  Where the claims carry their [id] and the reversals their
    [claim_id] as strings, a reversal whose [claim_id] is the [id] of no
    claim has no part in the summary aggregation: the result is the one
    of the reversals table without these rows, errors included. *)
Theorem orphan_reversals_are_ignored (claims rollbacks : DataFrame) :
  (∀ l, l ∈ records claims → is_str (cell l "id") = true) →
  (∀ r, r ∈ records rollbacks → is_str (cell r "claim_id") = true) →
  analysis claims (known_reversals claims rollbacks) = analysis claims rollbacks
  ∧ ∀ pharmacy_data claims_data rollbacks_data save_path w w',
      heap w !! claims_data = Some claims →
      heap w !! rollbacks_data = Some rollbacks →
      heap w' !! claims_data = Some claims →
      heap w' !! rollbacks_data = Some (known_reversals claims rollbacks) →
      (perform_analysis (Some pharmacy_data) (Some claims_data)
                        (Some rollbacks_data) save_path w').1
      = (perform_analysis (Some pharmacy_data) (Some claims_data)
                          (Some rollbacks_data) save_path w).1.
Proof.
  intros Hid Hcid.
  assert (Heq : analysis claims (known_reversals claims rollbacks)
                = analysis claims rollbacks).
  { unfold analysis. by rewrite merge_known_reversals. }
  split; [exact Heq|].
  intros p c r path w w' Hc Hr Hc' Hr'.
  rewrite (perform_analysis_result p c r path claims rollbacks w) by done.
  rewrite (perform_analysis_result p c r path claims
             (known_reversals claims rollbacks) w') by done.
  exact Heq.
Qed.

(** The sample claims with a reversal of the claim 1 and a reversal that
    names the unknown claim 77: the second changes nothing. *)
Lemma orphan_reversals_are_ignored_witness :
  records (known_reversals Sample.claims Tables.stray_reverts)
  = [Sample.revert_row "r1" "1" "2023-01-02"]
  ∧ analysis Sample.claims (known_reversals Sample.claims Tables.stray_reverts)
    = analysis Sample.claims Tables.stray_reverts
  ∧ analysis Sample.claims Tables.stray_reverts
    = inr [mkAgg (VStr "123") (VStr "drug1") 30 1 (Some 50%Q) 1500;
           mkAgg (VStr "456") (VStr "drug2") 60 0 (Some 100%Q) 6000].
Proof.
  split; [vm_compute; reflexivity|]. split; [|vm_compute; reflexivity].
  apply (orphan_reversals_are_ignored Sample.claims Tables.stray_reverts).
  - intros l Hl.
    apply (proj1 (Forall_forall (λ l, is_str (cell l "id") = true)
                    (records Sample.claims))); [|exact Hl].
    repeat constructor.
  - intros r Hr.
    apply (proj1 (Forall_forall (λ r, is_str (cell r "claim_id") = true)
                    (records Tables.stray_reverts))); [|exact Hr].
    repeat constructor.
Defined.

(** ** Top-quantities, called twice and called on a bad quantity *)

Section TopQuantitiesCalls.

Variable float_repr : Q → string.
Variable parse_float : string → option Q.

Lemma astype_str_idempotent (v : value) :
  astype_str float_repr (astype_str float_repr v) = astype_str float_repr v.
Proof. by destruct v. Qed.

Lemma to_float_idempotent (v : value) :
  to_float parse_float (to_float parse_float v) = to_float parse_float v.
Proof.
  unfold to_float. destruct v as [| |z|q|s]; simpl;
    rewrite ?Qcanon.Qred_involutive; try done.
  destruct (parse_float s) as [q|] eqn:Hs; simpl.
  - by rewrite Qcanon.Qred_involutive.
  - by rewrite Hs.
Qed.

Lemma to_float_convertible (v : value) :
  convertible parse_float (to_float parse_float v) ∨ ¬ convertible parse_float v.
Proof.
  unfold convertible, to_float. destruct v as [| |z|q|s]; simpl;
    try (left; eexists; reflexivity).
  destruct (parse_float s) as [q|] eqn:Hs; simpl.
  - left. eexists. reflexivity.
  - right. by intros [x Hx].
Qed.

Lemma with_column_idempotent (f : value → value) (c : string) (df : DataFrame) :
  (∀ v, f (f v) = f v) → with_column f c (with_column f c df) = with_column f c df.
Proof.
  intros Hf. unfold with_column. cbn [columns body]. f_equal.
  rewrite <- list_fmap_compose. apply list_fmap_ext. intros i [l r] _. simpl.
  f_equal. unfold cell at 1. rewrite lookup_insert_eq. simpl.
  by rewrite Hf, insert_insert_eq.
Qed.

Lemma with_column_comm (f g : value → value) (c c' : string) (df : DataFrame) :
  c ≠ c' →
  with_column f c (with_column g c' df) = with_column g c' (with_column f c df).
Proof.
  intros Hne. unfold with_column. cbn [columns body]. f_equal.
  rewrite <- !list_fmap_compose. apply list_fmap_ext. intros i [l r] _. simpl.
  f_equal. unfold cell. rewrite !lookup_insert_ne by done.
  by apply insert_insert_ne.
Qed.

Lemma normalised_idempotent (df : DataFrame) :
  normalised_claims float_repr parse_float
    (normalised_claims float_repr parse_float df)
  = normalised_claims float_repr parse_float df.
Proof.
  unfold normalised_claims.
  rewrite (with_column_comm (astype_str float_repr) (to_float parse_float)
             "npi" "quantity") by done.
  rewrite (with_column_idempotent (to_float parse_float))
    by apply to_float_idempotent.
  by rewrite (with_column_idempotent (astype_str float_repr))
    by apply astype_str_idempotent.
Qed.

Lemma normalised_convertible (df : DataFrame) :
  (∀ ir, ir ∈ body df → convertible parse_float (cell ir.2 "quantity")) →
  ∀ ir, ir ∈ body (normalised_claims float_repr parse_float df) →
        convertible parse_float (cell ir.2 "quantity").
Proof.
  intros Hconv ir Hir. unfold normalised_claims, with_column in Hir.
  cbn [body] in Hir. rewrite <- list_fmap_compose in Hir.
  apply list_elem_of_fmap in Hir as (jr & -> & Hjr). simpl.
  unfold cell at 1. rewrite lookup_insert_eq. simpl.
  unfold cell at 1. rewrite lookup_insert_ne by done.
  fold (cell jr.2 "quantity").
  destruct (to_float_convertible (cell jr.2 "quantity")) as [H|H]; [done|].
  destruct H. by apply Hconv.
Qed.

(** X10.  Top-quantities called a second time on the same claims table
    returns what it returned the first time and leaves the table as the
    first call left it: the two conversions change nothing in a column
    that is already converted. *)
Theorem top_quantities_twice (claims_data : ref) (save_path : string)
    (df : DataFrame) (w : world) :
  heap w !! claims_data = Some df →
  "npi" ∈ columns df → "quantity" ∈ columns df →
  (∀ ir, ir ∈ body df → convertible parse_float (cell ir.2 "quantity")) →
  ∃ result w1 w2,
    calculate_top_prescribed_quantities float_repr parse_float claims_data
                                        save_path w
    = (inr result, w1)
    ∧ calculate_top_prescribed_quantities float_repr parse_float claims_data
                                          save_path w1
      = (inr result, w2)
    ∧ heap w2 = heap w1
    ∧ sink w2 = sink w ++ [(save_path, PTopQuantities result);
                           (save_path, PTopQuantities result)].
Proof.
  intros Hd Hn Hq Hconv.
  pose proof (top_quantities_run float_repr parse_float claims_data save_path
                df w Hd Hn Hq Hconv) as Hrun1.
  cbv zeta in Hrun1.
  set (df1 := normalised_claims float_repr parse_float df) in *.
  set (w1 := mkWorld (<[claims_data := df1]> (heap w)) _ _) in Hrun1.
  assert (Hd1 : heap w1 !! claims_data = Some df1).
  { apply list_lookup_insert_eq. by eapply lookup_lt_Some. }
  pose proof (top_quantities_run float_repr parse_float claims_data save_path
                df1 w1 Hd1 Hn Hq (normalised_convertible df Hconv)) as Hrun2.
  cbv zeta in Hrun2.
  assert (Hidem : normalised_claims float_repr parse_float df1 = df1)
    by apply normalised_idempotent.
  rewrite !Hidem in Hrun2.
  do 3 eexists. split; [exact Hrun1|]. split; [exact Hrun2|].
  cbn [heap sink w1]. split.
  - by rewrite list_insert_insert_eq.
  - by rewrite <- app_assoc.
Qed.

Lemma astype_float_series_fails (s : series) :
  Exists (λ iv, ¬ convertible parse_float iv.2) s →
  astype_float_series parse_float s = inl ValueError.
Proof.
  unfold astype_float_series.
  induction s as [|[i v] s IH]; intros Hex; [by apply Exists_nil in Hex|].
  cbn [map_res]. simpl.
  destruct (astype_float parse_float v) as [e|x] eqn:Hv; simpl.
  - destruct v as [| |z|q|t]; simpl in Hv; try done.
    destruct (parse_float t); by simplify_eq.
  - apply Exists_cons in Hex as [Hno|Hex].
    + destruct Hno. by exists x.
    + by rewrite IH.
Qed.

(** X11.  When a quantity cannot be converted to a float, top-quantities
    raises [ValueError] and saves nothing, but the [npi] column of the
    caller's table has been converted to strings by then: the table is
    left half converted. *)
Theorem top_quantities_bad_quantity (claims_data : ref) (save_path : string)
    (df : DataFrame) (w : world) :
  heap w !! claims_data = Some df →
  "npi" ∈ columns df → "quantity" ∈ columns df →
  (∃ ir, ir ∈ body df ∧ ¬ convertible parse_float (cell ir.2 "quantity")) →
  ∃ w',
    calculate_top_prescribed_quantities float_repr parse_float claims_data
                                        save_path w
    = (inl ValueError, w')
    ∧ heap w' = <[claims_data := with_column (astype_str float_repr) "npi" df]>
                  (heap w)
    ∧ sink w' = sink w.
Proof.
  intros Hd Hn Hq (ir & Hir & Hbad).
  unfold calculate_top_prescribed_quantities.
  rewrite (bind_run _ _ w w df) by by apply deref_run.
  rewrite find_present
    by (intros c [->|[->|[]%elem_of_nil]%elem_of_cons]%elem_of_cons; done).
  set (df1 := with_column (astype_str float_repr) "npi" df).
  erewrite bind_run; [|by apply (column_to_str_run _ _ _ df)].
  fold df1. exists (with_heap (<[claims_data := df1]> (heap w)) w).
  split; [|done].
  apply bind_raise. unfold column_to_float.
  erewrite bind_run; last first.
  { apply deref_run. simpl. apply list_lookup_insert_eq.
    by eapply lookup_lt_Some. }
  unfold lift, getitem. rewrite bool_decide_eq_true_2 by done.
  unfold mbind, M_bind. rewrite astype_float_series_fails; [done|].
  unfold df1. rewrite with_column_other by done.
  apply Exists_exists. exists (ir.1, cell ir.2 "quantity"). split; [|done].
  unfold column_cells.
  apply (list_elem_of_fmap_2 (λ ir : nat * row, (ir.1, cell ir.2 "quantity"))).
  done.
Qed.

End TopQuantitiesCalls.

Lemma top_quantities_twice_witness :
  ∃ result w1 w2,
    calculate_top_prescribed_quantities Sample.float_repr Sample.parse_float 1
      "out.json" (Sample.loaded Sample.claims)
    = (inr result, w1)
    ∧ calculate_top_prescribed_quantities Sample.float_repr Sample.parse_float 1
        "out.json" w1
      = (inr result, w2)
    ∧ heap w2 = heap w1.
Proof.
  assert (Hin : ∀ c, bool_decide (c ∈ columns Sample.claims) = true →
                     c ∈ columns Sample.claims)
    by (intros c; apply bool_decide_eq_true_1).
  assert (Hconv : ∀ ir, ir ∈ body Sample.claims →
                        convertible Sample.parse_float (cell ir.2 "quantity")).
  { intros ir Hir.
    apply (proj1 (Forall_forall
                    (λ ir, convertible Sample.parse_float (cell ir.2 "quantity"))
                    (body Sample.claims))); [|exact Hir].
    repeat constructor; eexists; reflexivity. }
  destruct (top_quantities_twice Sample.float_repr Sample.parse_float 1
              "out.json" Sample.claims (Sample.loaded Sample.claims) eq_refl
              (Hin "npi" eq_refl) (Hin "quantity" eq_refl) Hconv)
    as (result & w1 & w2 & H1 & H2 & Hh & _).
  exists result, w1, w2. split; [exact H1|]. split; [exact H2|exact Hh].
Defined.

(** The second quantity is the string "sixty": [ValueError], and the
    [npi] column of the table in the store holds strings. *)
Lemma top_quantities_bad_quantity_witness :
  ∃ w',
    calculate_top_prescribed_quantities Sample.float_repr Sample.parse_float 1
      "out.json" (Sample.loaded Tables.worded_quantity)
    = (inl ValueError, w')
    ∧ (λ df, (column_cells df "npi").*2) <$> heap w' !! 1
      = Some [VStr "123"; VStr "456"]
    ∧ sink w' = [].
Proof.
  assert (Hin : ∀ c, bool_decide (c ∈ columns Tables.worded_quantity) = true →
                     c ∈ columns Tables.worded_quantity)
    by (intros c; apply bool_decide_eq_true_1).
  assert (Hbad : ∃ ir, ir ∈ body Tables.worded_quantity
                       ∧ ¬ convertible Sample.parse_float (cell ir.2 "quantity")).
  { eexists. split; [right; left|]. by intros [x Hx]. }
  destruct (top_quantities_bad_quantity Sample.float_repr Sample.parse_float 1
              "out.json" Tables.worded_quantity
              (Sample.loaded Tables.worded_quantity) eq_refl
              (Hin "npi" eq_refl) (Hin "quantity" eq_refl) Hbad)
    as (w' & Hrun & Hh & Hs).
  exists w'. split; [exact Hrun|]. split; [|exact Hs].
  rewrite Hh. vm_compute. reflexivity.
Defined.

(** ** The ranking of top-chains *)

(** *** The order of strings *)

Lemma ascii_compare_refl (a : Ascii.ascii) : Ascii.compare a a = Eq.
Proof. unfold Ascii.compare. apply N.compare_refl. Qed.

Lemma ascii_compare_lt_trans (a b c : Ascii.ascii) :
  Ascii.compare a b = Lt → Ascii.compare b c = Lt → Ascii.compare a c = Lt.
Proof.
  unfold Ascii.compare. rewrite !N.compare_lt_iff. lia.
Qed.

Lemma string_compare_lt_trans (a b c : string) :
  String.compare a b = Lt → String.compare b c = Lt → String.compare a c = Lt.
Proof.
  revert b c. induction a as [|x a IH]; intros [|y b] [|z c]; simpl; try done.
  intros H1 H2.
  destruct (Ascii.compare x y) eqn:Hxy; try done;
    destruct (Ascii.compare y z) eqn:Hyz; try done.
  - apply Ascii.compare_eq_iff in Hxy as ->.
    apply Ascii.compare_eq_iff in Hyz as ->.
    rewrite ascii_compare_refl. by eapply IH.
  - apply Ascii.compare_eq_iff in Hxy as ->. by rewrite Hyz.
  - apply Ascii.compare_eq_iff in Hyz as <-. by rewrite Hxy.
  - by rewrite (ascii_compare_lt_trans x y z).
Qed.

Lemma string_leb_false (a b : string) :
  String.leb a b = false ↔ String.compare b a = Lt.
Proof.
  unfold String.leb. rewrite (String.compare_antisym b a).
  destruct (String.compare a b); simpl; split; congruence.
Qed.

Lemma string_leb_false_trans (a b c : string) :
  String.leb b a = false → String.leb c b = false → String.leb c a = false.
Proof.
  rewrite !string_leb_false. apply string_compare_lt_trans.
Qed.

Lemma string_leb_asym (a b : string) :
  a ≠ b → String.leb a b = true → String.leb b a = false.
Proof.
  intros Hne Hab. destruct (String.leb b a) eqn:Hba; [|done].
  destruct Hne. by apply String.leb_antisym.
Qed.

(** *** The order of the sorted frame *)

Lemma price_gtb_asym (a b : option Q) :
  price_gtb a b = true → price_gtb b a = false.
Proof.
  destruct a as [x|], b as [y|]; simpl; try done.
  rewrite negb_true_iff, negb_false_iff. intros Hxy.
  apply Qle_bool_iff. destruct (Qlt_le_dec x y) as [H|H].
  - apply Qlt_le_weak in H. apply Qle_bool_iff in H. congruence.
  - done.
Qed.

Lemma price_not_gtb_trans (a b c : option Q) :
  price_gtb b a = false → price_gtb c b = false → price_gtb c a = false.
Proof.
  destruct a as [x|], b as [y|], c as [z|]; simpl; try done.
  rewrite !negb_false_iff, !Qle_bool_iff. intros H1 H2.
  by apply (Qle_trans z y x).
Qed.

Lemma cell_eqb_str_l (s : string) (v : value) :
  cell_eqb (VStr s) v = bool_decide (VStr s = v).
Proof.
  destruct v as [| |z|q|t]; simpl; try done.
  case_bool_decide; subst; [by rewrite bool_decide_eq_true_2|].
  rewrite bool_decide_eq_false_2; [done|]. by intros [= ->].
Qed.

Lemma chain_before_str (a b : ChainGroup) (s t : string) :
  g_ndc a = VStr s → g_ndc b = VStr t →
  chain_before a b
  = if bool_decide (s = t)
    then price_gtb (g_avg_price a) (g_avg_price b)
    else String.leb s t.
Proof.
  intros Ha Hb. unfold chain_before. rewrite Ha, Hb. simpl.
  by destruct (bool_decide (s = t)).
Qed.

Lemma chain_before_asym (a b : ChainGroup) :
  str_ndc a → str_ndc b → chain_before a b = true → not_after a b.
Proof.
  intros [s Ha] [t Hb]. unfold not_after.
  rewrite (chain_before_str a b s t), (chain_before_str b a t s) by done.
  case_bool_decide as Hst.
  - subst. rewrite bool_decide_eq_true_2 by done. apply price_gtb_asym.
  - rewrite bool_decide_eq_false_2 by congruence. by apply string_leb_asym.
Qed.

Lemma not_after_trans (a b c : ChainGroup) :
  str_ndc a → str_ndc b → str_ndc c →
  not_after a b → not_after b c → not_after a c.
Proof.
  intros [s Ha] [t Hb] [u Hc]. unfold not_after.
  rewrite (chain_before_str b a t s), (chain_before_str c b u t),
    (chain_before_str c a u s) by done.
  destruct (decide (t = s)) as [Hts|Hts], (decide (u = t)) as [Hut|Hut].
  - subst. rewrite !bool_decide_eq_true_2 by done. apply price_not_gtb_trans.
  - subst. rewrite (bool_decide_eq_true_2 (s = s)) by done.
    rewrite !(bool_decide_eq_false_2 (u = s)) by done. auto.
  - subst. rewrite (bool_decide_eq_true_2 (t = t)) by done.
    rewrite !(bool_decide_eq_false_2 (t = s)) by done. auto.
  - rewrite (bool_decide_eq_false_2 (t = s)), (bool_decide_eq_false_2 (u = t))
      by done.
    intros H1 H2. destruct (decide (u = s)) as [->|Hus].
    + destruct (String.leb_total s t) as [H|H]; congruence.
    + rewrite (bool_decide_eq_false_2 (u = s)) by done.
      by apply (string_leb_false_trans s t u).
Qed.

(** *** The sorted frame *)

Lemma insert_chain_perm (x : ChainGroup) (s : list ChainGroup) :
  insert_chain x s ≡ₚ x :: s.
Proof.
  induction s as [|y s IH]; simpl; [done|].
  destruct (chain_before y x); [|done]. rewrite IH. apply Permutation_swap.
Qed.

Lemma sort_values_perm (rows : list ChainGroup) : sort_values rows ≡ₚ rows.
Proof.
  induction rows as [|x rows IH]; simpl; [done|].
  unfold sort_values in *. simpl. by rewrite insert_chain_perm, IH.
Qed.

Lemma insert_chain_sorted (x : ChainGroup) (s : list ChainGroup) :
  str_ndc x → Forall str_ndc s →
  StronglySorted not_after s → StronglySorted not_after (insert_chain x s).
Proof.
  intros Hx Hs Hsorted. induction Hsorted as [|y s Hsorted IH Hy]; simpl.
  - repeat constructor.
  - apply Forall_cons in Hs as [Hys Hs].
    destruct (chain_before y x) eqn:Hyx.
    + constructor; [by apply IH|].
      eapply Permutation_Forall; [symmetry; apply insert_chain_perm|].
      constructor; [by apply chain_before_asym|done].
    + constructor; [by constructor|].
      constructor; [done|].
      rewrite Forall_forall in Hy, Hs. apply Forall_forall. intros z Hz.
      apply (not_after_trans x y z); auto.
Qed.

Lemma sort_values_sorted (rows : list ChainGroup) :
  Forall str_ndc rows → StronglySorted not_after (sort_values rows).
Proof.
  unfold sort_values. induction 1 as [|x rows Hx Hrows IH]; simpl.
  - constructor.
  - apply insert_chain_sorted; [done| |done].
    eapply Permutation_Forall; [symmetry; apply sort_values_perm|done].
Qed.

Lemma StronglySorted_filter_bool {A} (R : A → A → Prop) (P : A → bool)
    (l : list A) :
  StronglySorted R l → StronglySorted R (List.filter P l).
Proof.
  induction 1 as [|x l Hl IH Hx]; simpl; [constructor|].
  destruct (P x); [|done]. constructor; [done|].
  apply Forall_forall. intros y [Hy _]%filter_bool_elem.
  rewrite Forall_forall in Hx. by apply Hx.
Qed.

Lemma StronglySorted_weaken {A} (R R' : A → A → Prop) (l : list A) :
  (∀ x y, x ∈ l → y ∈ l → R x y → R' x y) →
  StronglySorted R l → StronglySorted R' l.
Proof.
  intros HR. induction 1 as [|x l Hl IH Hx]; [constructor|].
  constructor.
  - apply IH. intros y z Hy Hz. apply HR; by right.
  - rewrite Forall_forall in Hx. apply Forall_forall. intros y Hy.
    apply HR; [left|by right|by apply Hx].
Qed.

Lemma StronglySorted_take_drop {A} (R : A → A → Prop) (n : nat) (l : list A) :
  StronglySorted R l →
  StronglySorted R (take n l) ∧ ∀ a b, a ∈ take n l → b ∈ drop n l → R a b.
Proof.
  intros Hl. revert n. induction Hl as [|x l Hl IH Hx]; intros [|n]; simpl.
  - split; [constructor|]. by intros a b []%elem_of_nil.
  - split; [constructor|]. by intros a b []%elem_of_nil.
  - split; [constructor|]. by intros a b []%elem_of_nil.
  - destruct (IH n) as [Hsorted Hcut]. rewrite Forall_forall in Hx. split.
    + constructor; [done|]. apply Forall_forall. intros y Hy.
      apply Hx. by apply (subseteq_take n).
    + intros a b [->|Ha]%elem_of_cons Hb; [|by apply Hcut].
      apply Hx. by apply (subseteq_drop n).
Qed.

(** *** The drugs of the sorted frame *)

Lemma ndc_keys_spec (rows : list ChainGroup) :
  Forall str_ndc rows →
  NoDup (ndc_keys rows) ∧ ∀ v, v ∈ ndc_keys rows ↔ ∃ g, g ∈ rows ∧ g_ndc g = v.
Proof.
  induction 1 as [|g rows [s Hg] Hrows [IHnd IHin]]; simpl.
  - split; [constructor|]. intros v. split; [by intros []%elem_of_nil|].
    by intros (g & []%elem_of_nil & _).
  - assert (Hfilter : ∀ v, v ∈ List.filter (λ k, negb (cell_eqb (g_ndc g) k))
                                           (ndc_keys rows)
                           ↔ (∃ g', g' ∈ rows ∧ g_ndc g' = v) ∧ v ≠ g_ndc g).
    { intros v. rewrite filter_bool_elem, IHin, negb_true_iff, Hg.
      rewrite cell_eqb_str_l, bool_decide_eq_false. naive_solver. }
    split.
    + apply NoDup_cons. split; [rewrite Hfilter; naive_solver|].
      apply NoDup_ListNoDup, List.NoDup_filter. by apply NoDup_ListNoDup.
    + intros v. rewrite elem_of_cons, Hfilter. split.
      * intros [->|[(g' & Hg' & <-) _]]; [exists g; split; [left|done]|].
        exists g'. split; [by right|done].
      * intros (g' & [->|Hg']%elem_of_cons & <-); [by left|].
        destruct (decide (g_ndc g' = g_ndc g)); [by left|right].
        split; [by exists g'|done].
Qed.

Lemma rows_of_ndc_str (s : string) (rows : list ChainGroup) :
  rows_of_ndc (VStr s) rows = groups_of (VStr s) rows.
Proof.
  unfold rows_of_ndc, groups_of. apply filter_bool_ext. intros g _.
  rewrite cell_eqb_str_l. apply bool_decide_ext. naive_solver.
Qed.

Lemma filter_bool_perm {A} (P : A → bool) (l l' : list A) :
  l ≡ₚ l' → List.filter P l ≡ₚ List.filter P l'.
Proof.
  induction 1 as [|x l l' _ IH|x y l|l l' l'' _ IH1 _ IH2]; simpl.
  - done.
  - destruct (P x); by rewrite IH.
  - destruct (P x), (P y); try done. apply Permutation_swap.
  - by rewrite IH1.
Qed.

(** *** The groups of the converted tables *)

Lemma map_res_elem {A B} (f : A → exn + B) (l : list A) (res : list B) (y : B) :
  map_res f l = inr res → y ∈ res → ∃ x, x ∈ l ∧ f x = inr y.
Proof.
  revert res. induction l as [|x l IH]; intros res; simpl.
  - intros [= <-] []%elem_of_nil.
  - destruct (f x) as [e|y'] eqn:Hx; simpl; [done|].
    destruct (map_res f l) as [e|ys]; simpl; [done|].
    intros [= <-] [->|Hy]%elem_of_cons.
    + exists x. split; [left|done].
    + destruct (IH ys eq_refl Hy) as (x' & Hx' & Hfx').
      exists x'. split; [by right|done].
Qed.

Lemma distinct_keys_subset (ks : list (list value)) (k : list value) :
  k ∈ distinct_keys ks → k ∈ ks.
Proof.
  induction ks as [|a ks IH]; simpl; [done|].
  intros [->|[Hk _]%filter_bool_elem]%elem_of_cons; [left|right; auto].
Qed.

(** Both [npi] columns are strings once top-chains has converted them, so
    that the join passes the check of its keys. *)
Lemma converted_keys_ok float_repr (pharmacy claims : DataFrame) :
  keys_clash (key_cells (converted_claims float_repr claims) "npi")
             (key_cells (converted_pharmacy float_repr pharmacy) "npi")
  = false.
Proof.
  apply string_keys_ok; apply key_cells_strings; intros r Hr;
    unfold converted_claims, converted_pharmacy, with_column, records in Hr;
    cbn [body] in Hr; rewrite <- ?list_fmap_compose in Hr;
    apply list_elem_of_fmap in Hr as (ir & -> & _); simpl; unfold cell at 1.
  - rewrite lookup_insert_ne by done. rewrite lookup_insert_eq. simpl.
    by destruct (astype_str_is_str float_repr (cell ir.2 "npi")) as [s ->].
  - rewrite lookup_insert_eq. simpl.
    by destruct (astype_str_is_str float_repr (cell ir.2 "npi")) as [s ->].
Qed.

Lemma grouped_chains_converted float_repr (pharmacy claims : DataFrame) :
  issubset ["npi"; "chain"] (columns pharmacy) = true →
  issubset ["npi"; "ndc"; "price"] (columns claims) = true →
  "chain" ∉ columns claims → NoDup (columns claims) →
  grouped_chains (converted_pharmacy float_repr pharmacy)
                 (converted_claims float_repr claims)
  = map_res (chain_average (converted_pharmacy float_repr pharmacy)
                           (converted_claims float_repr claims))
            (chain_keys (converted_pharmacy float_repr pharmacy)
                        (converted_claims float_repr claims)).
Proof.
  intros Hp Hc Hno Hnd. rewrite grouped_chains_by_pairs by done.
  by rewrite converted_keys_ok.
Qed.

Section ConvertedGroups.

Variable float_repr : Q → string.
Variables pharmacy claims : DataFrame.

Hypothesis pharmacy_columns : issubset ["npi"; "chain"] (columns pharmacy) = true.
Hypothesis claims_columns :
  issubset ["npi"; "ndc"; "price"] (columns claims) = true.
Hypothesis no_chain : "chain" ∉ columns claims.
Hypothesis claims_header : NoDup (columns claims).

Lemma converted_ndc (l : row) :
  l ∈ records (converted_claims float_repr claims) → ∃ s, cell l "ndc" = VStr s.
Proof.
  unfold converted_claims, with_column, records. cbn [body].
  rewrite <- !list_fmap_compose.
  intros (ir & -> & _)%list_elem_of_fmap. simpl.
  unfold cell at 1. rewrite lookup_insert_eq. simpl.
  apply astype_str_is_str.
Qed.

Lemma converted_groups (groups : list ChainGroup) :
  grouped_chains (converted_pharmacy float_repr pharmacy)
                 (converted_claims float_repr claims) = inr groups →
  Forall str_ndc groups.
Proof.
  intros Hgroups. rewrite grouped_chains_converted in Hgroups by done.
  apply Forall_forall. intros g Hg.
  destruct (map_res_elem _ _ _ g Hgroups Hg) as (k & Hk & Hav).
  unfold chain_average in Hav.
  destruct (mean_cells _) as [e|avg]; simpl in Hav; [done|].
  injection Hav as <-. unfold str_ndc. cbn [g_ndc].
  unfold chain_keys in Hk. rewrite sort_keys_perm in Hk.
  apply distinct_keys_subset in Hk.
  apply list_elem_of_fmap in Hk as ([l r] & -> & [Hlr _]%filter_bool_elem).
  unfold pairs in Hlr. apply list_elem_of_bind in Hlr as (l' & Hlr & Hl').
  apply list_elem_of_fmap in Hlr as (r' & [= -> ->] & _).
  unfold pair_key. cbn [fst snd]. change ([?a; ?b] !!! 0%nat) with a.
  by apply converted_ndc.
Qed.

End ConvertedGroups.

(** *** The two best chains of each drug *)

Lemma not_after_same_ndc (v : value) (a b : ChainGroup) :
  str_ndc a → g_ndc a = v → g_ndc b = v → not_after a b → price_not_above a b.
Proof.
  intros [s Ha] <- Hb. unfold not_after, price_not_above.
  rewrite (chain_before_str b a s s) by congruence.
  by rewrite bool_decide_eq_true_2.
Qed.

Lemma drop_nonempty_length {A} (n : nat) (l : list A) :
  drop n l ≠ [] → length (take n l) = n.
Proof.
  intros Hne. rewrite length_take.
  destruct (decide (n < length l)) as [Hlt|Hge]; [lia|].
  destruct Hne. apply drop_ge. lia.
Qed.

Section TopChainsRanking.

Variable float_repr : Q → string.

(** X12.  On tables with their columns in place, a result of top-chains
    has one entry for each drug of the grouped frame, no drug twice and
    at least one entry.  The chains of an entry are groups of that drug:
    two of them when the drug has two or more, the only one otherwise;
    they stand by decreasing average price, and no group of the drug that
    was left out has an average price above one that was kept. *)
Theorem top_chains_ranking (pharmacy_data claims_data : ref)
    (save_path : string) (pharmacy claims : DataFrame) (w : world)
    (result : list TopChainEntry) :
  pharmacy_data ≠ claims_data →
  heap w !! pharmacy_data = Some pharmacy →
  heap w !! claims_data = Some claims →
  issubset ["npi"; "chain"] (columns pharmacy) = true →
  issubset ["npi"; "ndc"; "price"] (columns claims) = true →
  "chain" ∉ columns claims → NoDup (columns claims) →
  (calculate_top_chains float_repr pharmacy_data claims_data save_path w).1
  = inr result →
  ∃ groups,
    grouped_chains (converted_pharmacy float_repr pharmacy)
                   (converted_claims float_repr claims) = inr groups
    ∧ result ≠ []
    ∧ NoDup (tc_ndc <$> result)
    ∧ (∀ v, v ∈ tc_ndc <$> result ↔ ∃ g, g ∈ groups ∧ g_ndc g = v)
    ∧ ∀ e, e ∈ result →
        ∃ kept rest,
          tc_chain e = chain_price <$> kept
          ∧ kept ++ rest ≡ₚ groups_of (tc_ndc e) groups
          ∧ 1 ≤ length kept ≤ 2
          ∧ (rest ≠ [] → length kept = 2)
          ∧ StronglySorted price_not_above kept
          ∧ ∀ a b, a ∈ kept → b ∈ rest → price_not_above a b.
Proof.
  intros Hne Hp Hc Hpcols Hccols Hno Hnd Hrun.
  rewrite (top_chains_result float_repr pharmacy_data claims_data save_path
             pharmacy claims w) in Hrun; try done;
    try (eapply issubset_elem; [eassumption|set_solver]).
  fold (converted_pharmacy float_repr pharmacy) in Hrun.
  fold (converted_claims float_repr claims) in Hrun.
  destruct (grouped_chains _ _) as [e|groups] eqn:Hgroups; [done|].
  exists groups. split; [done|]. cbn [bind_res] in Hrun.
  pose proof (converted_groups float_repr pharmacy claims Hpcols Hccols Hno Hnd
                groups Hgroups) as Hstr.
  pose proof (sort_values_perm groups) as Hperm.
  pose proof (sort_values_sorted groups Hstr) as Hsorted.
  assert (Hstr' : Forall str_ndc (sort_values groups))
    by (eapply Permutation_Forall; [symmetry; exact Hperm|done]).
  destruct (ndc_keys_spec (sort_values groups) Hstr') as [Hkeys_nd Hkeys].
  assert (Hresult : result = rank_chains (sort_values groups)).
  { destruct (sort_values groups); [done|]. by injection Hrun as <-. }
  assert (Hids : tc_ndc <$> result = ndc_keys (sort_values groups)).
  { rewrite Hresult. unfold rank_chains. rewrite <- list_fmap_compose.
    apply list_fmap_id. }
  split; [|split; [|split]].
  - destruct (sort_values groups) as [|g0 rest]; [done|].
    rewrite Hresult. done.
  - by rewrite Hids.
  - intros v. rewrite Hids, Hkeys. by setoid_rewrite Hperm.
  - intros e He. rewrite Hresult in He. unfold rank_chains in He.
    apply list_elem_of_fmap in He as (k & -> & Hk). cbn [tc_ndc tc_chain].
    apply Hkeys in Hk as (g & Hg & <-).
    pose proof (proj1 (Forall_forall _ _) Hstr' g Hg) as [s Hs].
    rewrite Hs, rows_of_ndc_str.
    set (mine := groups_of (VStr s) (sort_values groups)).
    assert (Hmine : g ∈ mine).
    { apply filter_bool_elem. split; [done|]. by apply bool_decide_eq_true_2. }
    assert (Hprices : StronglySorted price_not_above mine).
    { apply (StronglySorted_weaken not_after);
        [|by apply StronglySorted_filter_bool].
      intros x y [Hx Hxs%bool_decide_eq_true]%filter_bool_elem
                 [Hy Hys%bool_decide_eq_true]%filter_bool_elem.
      apply (not_after_same_ndc (VStr s)); [|done|done].
      by apply (proj1 (Forall_forall _ _) Hstr' x). }
    destruct (StronglySorted_take_drop _ 2 mine Hprices) as [Hkept Hcut].
    exists (take 2 mine), (drop 2 mine).
    split; [done|]. split; [|split; [|split; [|split]]].
    + rewrite take_drop. by apply filter_bool_perm.
    + rewrite length_take. destruct mine as [|a [|b l]];
        [by apply elem_of_nil in Hmine|simpl; lia|simpl; lia].
    + apply drop_nonempty_length.
    + done.
    + done.
Qed.

End TopChainsRanking.

(** Three pharmacies of three chains and a drug sold by all three, at the
    prices 50, 100 and 70: the entry of the drug keeps the chains at 100
    and 70, in this order. *)
Lemma top_chains_ranking_witness :
  (calculate_top_chains Sample.float_repr 0 1 "out.json"
     (mkWorld [Ranking.pharmacies; Ranking.claims] [] [])).1
  = inr [mkTopC (VStr "drug1")
           [mkChain (VStr "Walgreens") (Some 100%Q);
            mkChain (VStr "Rite Aid") (Some 70%Q)]]
  ∧ ∃ groups,
      grouped_chains (converted_pharmacy Sample.float_repr Ranking.pharmacies)
                     (converted_claims Sample.float_repr Ranking.claims)
      = inr groups
      ∧ ∃ kept rest,
          [mkChain (VStr "Walgreens") (Some 100%Q);
           mkChain (VStr "Rite Aid") (Some 70%Q)] = chain_price <$> kept
          ∧ kept ++ rest ≡ₚ groups_of (VStr "drug1") groups
          ∧ (rest ≠ [] → length kept = 2)
          ∧ ∀ a b, a ∈ kept → b ∈ rest → price_not_above a b.
Proof.
  assert (Hrun : (calculate_top_chains Sample.float_repr 0 1 "out.json"
                    (mkWorld [Ranking.pharmacies; Ranking.claims] [] [])).1
                 = inr [mkTopC (VStr "drug1")
                          [mkChain (VStr "Walgreens") (Some 100%Q);
                           mkChain (VStr "Rite Aid") (Some 70%Q)]])
    by (vm_compute; reflexivity).
  split; [exact Hrun|].
  assert (Hno : "chain" ∉ columns Ranking.claims)
    by (apply (bool_decide_unpack _); vm_compute; exact I).
  assert (Hnd : NoDup (columns Ranking.claims))
    by (apply (bool_decide_unpack _); vm_compute; exact I).
  destruct (top_chains_ranking Sample.float_repr 0 1 "out.json"
              Ranking.pharmacies Ranking.claims
              (mkWorld [Ranking.pharmacies; Ranking.claims] [] [])
              _ ltac:(discriminate) eq_refl eq_refl eq_refl eq_refl Hno Hnd Hrun)
    as (groups & Hgroups & _ & _ & _ & Hentries).
  exists groups. split; [exact Hgroups|].
  destruct (Hentries _ (list_elem_of_here _ _))
    as (kept & rest & Hchain & Hperm & _ & Hfull & _ & Hcut).
  exists kept, rest. split; [exact Hchain|]. split; [exact Hperm|].
  split; [exact Hfull|exact Hcut].
Defined.

(** ** Top-chains without a match *)

Section TopChainsRun.

Variable float_repr : Q → string.

(** A run of top-chains, from the two tables as the conversions leave
    them. *)
Lemma top_chains_run (pharmacy_data claims_data : ref) (save_path : string)
    (pharmacy claims : DataFrame) (w : world) :
  pharmacy_data ≠ claims_data →
  heap w !! pharmacy_data = Some pharmacy →
  heap w !! claims_data = Some claims →
  "npi" ∈ columns pharmacy → "npi" ∈ columns claims → "ndc" ∈ columns claims →
  let w3 :=
    with_heap (<[claims_data := converted_claims float_repr claims]>
                 (<[pharmacy_data := converted_pharmacy float_repr pharmacy]>
                    (heap w))) w in
  calculate_top_chains float_repr pharmacy_data claims_data save_path w
  = match grouped_chains (converted_pharmacy float_repr pharmacy)
                         (converted_claims float_repr claims) with
    | inl e => (inl e, w3)
    | inr groups =>
        match sort_values groups with
        | [] => (inl AttributeError, w3)
        | top =>
            (inr (rank_chains top),
             mkWorld (heap w3)
                     (sink w ++ [(save_path, PTopChains (rank_chains top))])
                     (logs w ++ [save_log (PTopChains (rank_chains top))
                                          save_path]))
        end
    end.
Proof.
  intros Hne Hp Hc Hpn Hcn Hcd w3. unfold calculate_top_chains.
  pose proof (lookup_lt_Some _ _ _ Hc) as Hlt.
  erewrite bind_run; [|by apply (column_to_str_run _ _ _ pharmacy)].
  erewrite bind_run; last first.
  { apply (column_to_str_run _ _ _ claims); [|done].
    simpl. by rewrite list_lookup_insert_ne. }
  erewrite bind_run; last first.
  { apply (column_to_str_run _ _ _
             (with_column (astype_str float_repr) "npi" claims)); [|done].
    simpl. apply list_lookup_insert_eq. by rewrite length_insert. }
  simpl. rewrite list_insert_insert_eq.
  erewrite bind_run; last first.
  { apply deref_run. simpl. rewrite list_lookup_insert_ne by done.
    apply list_lookup_insert_eq. by eapply lookup_lt_Some. }
  erewrite bind_run; last first.
  { apply deref_run. simpl. apply list_lookup_insert_eq.
    by rewrite length_insert. }
  unfold mbind, M_bind, lift.
  fold (converted_pharmacy float_repr pharmacy).
  fold (converted_claims float_repr claims).
  destruct (grouped_chains _ _) as [e|grouped_data]; [reflexivity|].
  destruct (sort_values grouped_data); [reflexivity|].
  by rewrite save_file_run.
Qed.

Lemma bind_empty {A B} (g : A → list B) (l : list A) :
  (∀ x, x ∈ l → g x = []) → l ≫= g = [].
Proof.
  induction l as [|x l IH]; csimpl; intros H; [done|].
  rewrite H by left. apply IH. intros y Hy. apply H. by right.
Qed.

Lemma key_match_str (s t : string) :
  key_match (VStr s) (VStr t) = bool_decide (s = t).
Proof. unfold key_match. simpl. by rewrite orb_false_r. Qed.

Lemma converted_partners (pharmacy claims : DataFrame) (l : row) :
  (∀ l0, l0 ∈ records claims → ¬ references float_repr pharmacy l0) →
  l ∈ records (converted_claims float_repr claims) →
  partners (converted_pharmacy float_repr pharmacy) l = [].
Proof.
  intros Hno Hl. unfold partners.
  unfold converted_claims, with_column, records in Hl. cbn [body] in Hl.
  rewrite <- !list_fmap_compose in Hl.
  apply list_elem_of_fmap in Hl as (ir & -> & Hir). simpl.
  assert (Hl0 : ir.2 ∈ records claims)
    by (apply list_elem_of_fmap; by exists ir).
  unfold cell at 1. rewrite lookup_insert_ne by done.
  rewrite lookup_insert_eq. simpl.
  destruct (astype_str_is_str float_repr (cell ir.2 "npi")) as [s Hs].
  rewrite Hs.
  match goal with |- List.filter ?P ?rows = [] =>
    assert (Hnone : ∀ r, r ∈ rows → P r = false) end.
  { intros r Hr. unfold converted_pharmacy, with_column, records in Hr.
    cbn [body] in Hr. rewrite <- list_fmap_compose in Hr.
    apply list_elem_of_fmap in Hr as (jr & -> & Hjr). simpl.
    unfold cell at 1. rewrite lookup_insert_eq. simpl.
    destruct (astype_str_is_str float_repr (cell jr.2 "npi")) as [t Ht].
    rewrite Ht, key_match_str. apply bool_decide_eq_false. intros ->.
    apply (Hno ir.2 Hl0). exists jr.2. split; [|congruence].
    apply list_elem_of_fmap. by exists jr. }
  induction (records (converted_pharmacy float_repr pharmacy)) as [|r rs IH];
    simpl; [done|].
  rewrite Hnone by left. apply IH. intros r' Hr'. apply Hnone. by right.
Qed.

(** X13.  When no claim carries, as a string, the [npi] of a pharmacy (a
    claims table without rows, a pharmacy table without rows, or tables
    of unrelated pharmacies) top-chains does not return the empty list:
    it raises [AttributeError], the inner join being empty.  By then the
    three columns of the caller's tables have been converted; nothing is
    saved. *)
Theorem top_chains_without_a_match (pharmacy_data claims_data : ref)
    (save_path : string) (pharmacy claims : DataFrame) (w : world) :
  pharmacy_data ≠ claims_data →
  heap w !! pharmacy_data = Some pharmacy →
  heap w !! claims_data = Some claims →
  issubset ["npi"; "chain"] (columns pharmacy) = true →
  issubset ["npi"; "ndc"; "price"] (columns claims) = true →
  "chain" ∉ columns claims → NoDup (columns claims) →
  (∀ l, l ∈ records claims → ¬ references float_repr pharmacy l) →
  ∃ w',
    calculate_top_chains float_repr pharmacy_data claims_data save_path w
    = (inl AttributeError, w')
    ∧ heap w' = <[claims_data := converted_claims float_repr claims]>
                  (<[pharmacy_data := converted_pharmacy float_repr pharmacy]>
                     (heap w))
    ∧ sink w' = sink w.
Proof.
  intros Hne Hp Hc Hpcols Hccols Hno Hnd Hnone.
  rewrite (top_chains_run pharmacy_data claims_data save_path pharmacy claims w);
    try done; try (eapply issubset_elem; [eassumption|set_solver]).
  rewrite grouped_chains_converted by done.
  assert (Hpairs : pairs (converted_pharmacy float_repr pharmacy)
                         (converted_claims float_repr claims) = []).
  { unfold pairs. apply bind_empty. intros l Hl.
    by rewrite (converted_partners pharmacy claims l Hnone). }
  unfold chain_keys. rewrite Hpairs. simpl.
  eexists. split; [reflexivity|]. done.
Qed.

End TopChainsRun.

(** The sample claims against a pharmacy they do not name. *)
Lemma top_chains_without_a_match_witness :
  ∃ w',
    calculate_top_chains Sample.float_repr 0 1 "out.json"
      (mkWorld [Unmatched.pharmacies; Sample.claims] [] [])
    = (inl AttributeError, w')
    ∧ heap w' = [converted_pharmacy Sample.float_repr Unmatched.pharmacies;
                 converted_claims Sample.float_repr Sample.claims]
    ∧ sink w' = [].
Proof.
  assert (Hno : "chain" ∉ columns Sample.claims)
    by (apply (bool_decide_unpack _); vm_compute; exact I).
  assert (Hnd : NoDup (columns Sample.claims))
    by (apply (bool_decide_unpack _); vm_compute; exact I).
  assert (Hnone : ∀ l, l ∈ records Sample.claims →
                       ¬ references Sample.float_repr Unmatched.pharmacies l).
  { intros l Hl (p & Hp & Heq).
    apply list_elem_of_singleton in Hp as ->.
    apply elem_of_cons in Hl as [->|Hl];
      [|apply list_elem_of_singleton in Hl as ->];
      vm_compute in Heq; discriminate. }
  apply (top_chains_without_a_match Sample.float_repr 0 1 "out.json"
           Unmatched.pharmacies Sample.claims
           (mkWorld [Unmatched.pharmacies; Sample.claims] [] [])
           ltac:(discriminate) eq_refl eq_refl eq_refl eq_refl Hno Hnd Hnone).
Defined.

(** ** What a completed run hands to the sink *)

Lemma bind_inr {A B} (m : M A) (f : A → M B) (w w' : world) (y : B) :
  (m ≫= f) w = (inr y, w') →
  ∃ x w1, m w = (inr x, w1) ∧ f x w1 = (inr y, w').
Proof.
  unfold mbind, M_bind. destruct (m w) as [[e|x] w1]; [done|]. eauto.
Qed.

Section RunOutputs.

Variable float_repr : Q → string.
Variable parse_float : string → option Q.

Lemma column_to_str_sink (data : ref) (c : string) (w w' : world) r :
  column_to_str float_repr data c w = (r, w') →
  sink w' = sink w ∧ length (heap w') = length (heap w).
Proof.
  unfold column_to_str, mbind, M_bind, deref, lift, assign.
  destruct (heap w !! data); [|by intros [= <- <-]].
  destruct (getitem _ _); intros [= <- <-]; [done|].
  simpl. by rewrite length_insert.
Qed.

Lemma column_to_float_sink (data : ref) (c : string) (w w' : world) r :
  column_to_float parse_float data c w = (r, w') →
  sink w' = sink w ∧ length (heap w') = length (heap w).
Proof.
  unfold column_to_float, mbind, M_bind, deref, lift, assign.
  destruct (heap w !! data); [|by intros [= <- <-]].
  destruct (getitem _ _); [by intros [= <- <-]|].
  destruct (astype_float_series _ _); intros [= <- <-]; [done|].
  simpl. by rewrite length_insert.
Qed.

Lemma perform_analysis_inr (p c r : ref) (save_path : string) (w w' : world)
    (res : list AggregateRow) :
  perform_analysis (Some p) (Some c) (Some r) save_path w = (inr res, w') →
  sink w' = sink w ++ [(save_path, PAnalysis res)] ∧ heap w' = heap w.
Proof.
  unfold perform_analysis, mbind, M_bind, deref, lift, save_file, hand_over,
    logging, mret, M_ret.
  destruct (heap w !! c); [|done]. destruct (heap w !! r); [|done].
  destruct (analysis _ _); [done|]. by intros [= <- <-].
Qed.

Lemma top_chains_inr (p c : ref) (save_path : string) (w w' : world)
    (res : list TopChainEntry) :
  calculate_top_chains float_repr p c save_path w = (inr res, w') →
  sink w' = sink w ++ [(save_path, PTopChains res)]
  ∧ length (heap w') = length (heap w).
Proof.
  unfold calculate_top_chains.
  intros ([] & w1 & H1 & Hrun)%bind_inr. apply column_to_str_sink in H1 as [Hs1 Hh1].
  apply bind_inr in Hrun as ([] & w2 & H2 & Hrun).
  apply column_to_str_sink in H2 as [Hs2 Hh2].
  apply bind_inr in Hrun as ([] & w3 & H3 & Hrun).
  apply column_to_str_sink in H3 as [Hs3 Hh3].
  revert Hrun.
  unfold mbind, M_bind, deref, lift, save_file, hand_over, logging, mret, M_ret,
    raise.
  destruct (heap w3 !! p); [|done]. destruct (heap w3 !! c); [|done].
  destruct (grouped_chains _ _) as [e|groups]; [done|].
  destruct (sort_values groups); [done|]. intros [= <- <-]. simpl.
  split; congruence.
Qed.

Lemma top_quantities_inr (c : ref) (save_path : string) (w w' : world)
    (res : list TopQuantityEntry) :
  calculate_top_prescribed_quantities float_repr parse_float c save_path w
  = (inr res, w') →
  sink w' = sink w ++ [(save_path, PTopQuantities res)]
  ∧ length (heap w') = length (heap w).
Proof.
  unfold calculate_top_prescribed_quantities.
  intros (df & w0 & H0 & Hrun)%bind_inr.
  assert (w0 = w) as ->.
  { unfold deref in H0. by destruct (heap w !! c); injection H0 as _ <-. }
  destruct (List.find _ _); [done|].
  apply bind_inr in Hrun as ([] & w1 & H1 & Hrun).
  apply column_to_str_sink in H1 as [Hs1 Hh1].
  apply bind_inr in Hrun as ([] & w2 & H2 & Hrun).
  apply column_to_float_sink in H2 as [Hs2 Hh2].
  revert Hrun.
  unfold mbind, M_bind, deref, lift, save_file, hand_over, logging, mret, M_ret.
  destruct (heap w2 !! c); [|done].
  destruct (groupby _ _); [done|]. intros [= <- <-]. simpl.
  split; congruence.
Qed.

Variable src : source.
Variable base_path : string.

Lemma process_datasets_inr (w w1 : world) (refs : ref * ref * ref) :
  process_datasets float_repr src base_path w = (inr refs, w1) →
  ∃ company claims orphans reverts,
    refs = (length (heap w), S (length (heap w)), S (S (length (heap w))))
    ∧ length (heap w1) = length (heap w) + 3
    ∧ sink w1
      = sink w ++ [("invalid_company.csv", PFrame company);
                   ("invalid_claims.json", PFrame claims);
                   (path_join (invalid_records_dir base_path)
                              "invalid_claims.json", PFrame orphans);
                   ("data/invalid_records/invalid_rollback.json",
                    PFrame reverts)].
Proof.
  unfold process_datasets. erewrite bind_run; [|reflexivity].
  match goal with |- _ ?w0 = _ → _ =>
    destruct (first_two_folders src base_path w0) as (w2 & Hrun & Hh & Hs) end.
  rewrite Hrun. clear Hrun.
  intros ([valid invalid] & w2' & Hfilter & Hrun)%bind_inr.
  assert (w2' = w2) as ->.
  { unfold lift in Hfilter. by injection Hfilter as _ <-. }
  erewrite bind_run in Hrun; [|reflexivity].
  match type of Hrun with (_ ≫= _) ?w3 = _ =>
    destruct (process_folder_run src (rollback_dir base_path)
                reverts_required_columns "json"
                "data/invalid_records/invalid_rollback.json" w3)
      as (w4 & Hrun4 & Hh4 & Hs4) end.
  rewrite (bind_run _ _ _ _ _ Hrun4) in Hrun.
  unfold mbind, M_bind, logging, alloc, mret, M_ret in Hrun. simpl in Hrun.
  injection Hrun as <- <-. simpl in *.
  do 4 eexists. rewrite Hh4, Hh, Hs4, Hs, !length_app. simpl.
  split; [|split].
  - repeat f_equal; lia.
  - lia.
  - by rewrite <- !app_assoc.
Qed.

Variable todays_date : string.

(** X14.  A run that completes has handed seven payloads to the sink, in
    this order: the quarantine of the pharmacies under
    [invalid_company.csv], the quarantine of the claims under
    [invalid_claims.json], the orphaned claims under
    [invalid_claims.json] of the invalid-records directory, the
    quarantine of the reverts under
    [data/invalid_records/invalid_rollback.json], then the results of the
    summary aggregation, of top-chains and of top-quantities under their
    dated paths.  It has put three tables in the store. *)
Theorem run_outputs (w w' : world) :
  run float_repr parse_float src todays_date base_path w = (inr (), w') →
  ∃ company claims orphans reverts analysis_result top_chains top_quantities,
    sink w'
    = sink w ++ [("invalid_company.csv", PFrame company);
                 ("invalid_claims.json", PFrame claims);
                 (path_join (invalid_records_dir base_path)
                            "invalid_claims.json", PFrame orphans);
                 ("data/invalid_records/invalid_rollback.json", PFrame reverts);
                 (analysis_path todays_date, PAnalysis analysis_result);
                 (top_chains_path todays_date, PTopChains top_chains);
                 (top_quantities_path todays_date,
                  PTopQuantities top_quantities)]
    ∧ length (heap w') = length (heap w) + 3.
Proof.
  unfold run. erewrite bind_run; [|reflexivity].
  intros ([[company_data claims_data] revert_data] & w1 & Hload & Hrun)%bind_inr.
  apply process_datasets_inr in Hload
    as (company & claims & orphans & reverts & _ & Hh1 & Hs1).
  apply bind_inr in Hrun as (analysis_result & w2 & Hanalysis & Hrun).
  apply perform_analysis_inr in Hanalysis as [Hs2 Hh2].
  apply bind_inr in Hrun as (top_chains & w3 & Hchains & Hrun).
  apply top_chains_inr in Hchains as [Hs3 Hh3].
  apply bind_inr in Hrun as (top_quantities & w4 & Hquantities & Hrun).
  apply top_quantities_inr in Hquantities as [Hs4 Hh4].
  unfold logging in Hrun. injection Hrun as <-. simpl in *.
  exists company, claims, orphans, reverts, analysis_result, top_chains,
    top_quantities.
  split.
  - rewrite Hs4, Hs3, Hs2, Hs1, <- !app_assoc. done.
  - rewrite Hh4, Hh3, Hh2, Hh1. done.
Qed.

End RunOutputs.

(** The run on the sample directories. *)
Lemma run_outputs_witness :
  ∃ w',
    run Sample.float_repr Sample.parse_float Sample.files "today" "data"
        Sample.start
    = (inr (), w')
    ∧ (sink w').*1
      = ["invalid_company.csv"; "invalid_claims.json";
         "data/invalid_records/invalid_claims.json";
         "data/invalid_records/invalid_rollback.json";
         "results/analysis_result_today.json";
         "results/top_chains_today.json";
         "results/top_prescribed_quantities_today.json"]
    ∧ length (heap w') = 3.
Proof.
  destruct (run Sample.float_repr Sample.parse_float Sample.files "today" "data"
                Sample.start) as [[e|[]] w'] eqn:Hrun.
  { exfalso. vm_compute in Hrun. discriminate. }
  exists w'. split; [reflexivity|].
  destruct (run_outputs Sample.float_repr Sample.parse_float Sample.files "data"
              "today" Sample.start w' Hrun)
    as (company & claims & orphans & reverts & a & c & q & Hs & Hh).
  split; [by rewrite Hs|exact Hh].
Defined.

(** ** One row for each (npi, ndc) pair *)

Lemma cell_eqb_sym (a b : value) : cell_eqb a b = cell_eqb b a.
Proof.
  destruct a, b; simpl; try done; try apply Qeq_bool_comm.
  apply bool_decide_ext. naive_solver.
Qed.

Lemma cell_eqb_trans (a b c : value) :
  cell_eqb a b = true → cell_eqb b c = true → cell_eqb a c = true.
Proof.
  destruct a, b, c; simpl; try done; try apply Qeq_bool_trans.
  rewrite !bool_decide_eq_true. congruence.
Qed.

Lemma key_eqb_sym (a b : list value) : key_eqb a b = key_eqb b a.
Proof.
  revert b. induction a as [|x a IH]; intros [|y b]; simpl; try done.
  by rewrite cell_eqb_sym, IH.
Qed.

Lemma key_eqb_trans (a b c : list value) :
  key_eqb a b = true → key_eqb b c = true → key_eqb a c = true.
Proof.
  revert b c. induction a as [|x a IH]; intros [|y b] [|z c]; simpl; try done.
  rewrite !andb_true_iff. intros [H1 H2] [H3 H4]. split.
  - by apply (cell_eqb_trans x y z).
  - by apply (IH b c).
Qed.

(** The distinct keys: no two of them are equal, and every key is equal
    to one of them. *)
Lemma distinct_keys_apart (ks : list (list value)) :
  StronglySorted (λ a b, key_eqb a b = false) (distinct_keys ks).
Proof.
  induction ks as [|k ks IH]; simpl; [constructor|].
  constructor.
  - by apply StronglySorted_filter_bool.
  - apply Forall_forall. intros k' [_ Hk']%filter_bool_elem.
    by apply negb_true_iff.
Qed.

Lemma distinct_keys_cover (ks : list (list value)) (k : list value) :
  Forall (λ k, forallb notna k = true) ks → k ∈ ks →
  ∃ k', k' ∈ distinct_keys ks ∧ key_eqb k' k = true.
Proof.
  induction 1 as [|a ks Ha Hks IH]; [by intros []%elem_of_nil|].
  intros [->|Hk]%elem_of_cons; simpl.
  - exists a. split; [left|by apply key_eqb_refl].
  - destruct (IH Hk) as (k' & Hk' & Heq).
    destruct (key_eqb a k') eqn:Ha'.
    + exists a. split; [left|]. by apply (key_eqb_trans a k' k).
    + exists k'. split; [|done]. right. apply filter_bool_elem.
      by rewrite Ha'.
Qed.

Lemma StronglySorted_perm_sym {A} (R : A → A → Prop) (l l' : list A) :
  (∀ x y, R x y → R y x) → l ≡ₚ l' →
  StronglySorted R l → StronglySorted R l'.
Proof.
  intros Hsym Hperm. induction Hperm as [|x l l' Hp IH|x y l|l l' l'' _ IH1 _ IH2].
  - done.
  - intros [Hl Hx]%StronglySorted_inv. constructor; [by apply IH|].
    by rewrite <- Hp.
  - intros [[Hl Hx]%StronglySorted_inv Hy]%StronglySorted_inv.
    apply Forall_cons in Hy as [Hyx Hy].
    constructor; [by constructor|]. constructor; [by apply Hsym|done].
  - auto.
Qed.

Lemma StronglySorted_lookup {A} (R : A → A → Prop) (l : list A) (i j : nat) a b :
  StronglySorted R l → i < j → l !! i = Some a → l !! j = Some b → R a b.
Proof.
  intros Hl. revert i j. induction Hl as [|x l Hl IH Hx]; intros i j Hij Hi Hj.
  - done.
  - destruct j as [|j]; [lia|]. destruct i as [|i]; simpl in *.
    + injection Hi as ->. rewrite Forall_forall in Hx. apply Hx.
      by eapply list_elem_of_lookup_2.
    + apply (IH i j); [lia|done|done].
Qed.

Lemma group_keys_apart (keys : list string) (rows : list row) :
  StronglySorted (λ a b, key_eqb a b = false) (group_keys keys rows).
Proof.
  unfold group_keys.
  eapply (StronglySorted_perm_sym _ (distinct_keys _));
    [|symmetry; apply sort_keys_perm|apply distinct_keys_apart].
  intros x y. by rewrite key_eqb_sym.
Qed.

Lemma group_keys_rows (keys : list string) (rows : list row) (k : list value) :
  k ∈ group_keys keys rows →
  ∃ l, l ∈ rows ∧ has_key keys l = true ∧ k = key_of keys l.
Proof.
  unfold group_keys. rewrite sort_keys_perm.
  intros Hk%distinct_keys_subset.
  apply list_elem_of_fmap in Hk as (l & -> & [Hl Hkey]%filter_bool_elem).
  by exists l.
Qed.

Lemma group_keys_cover (keys : list string) (rows : list row) (l : row) :
  l ∈ rows → has_key keys l = true →
  ∃ k, k ∈ group_keys keys rows ∧ key_eqb k (key_of keys l) = true.
Proof.
  intros Hl Hkey.
  destruct (distinct_keys_cover
              (key_of keys <$> List.filter (has_key keys) rows)
              (key_of keys l)) as (k & Hk & Heq).
  - apply Forall_fmap, Forall_forall.
    by intros r [_ Hr]%filter_bool_elem.
  - apply list_elem_of_fmap. exists l. split; [done|].
    by apply filter_bool_elem.
  - exists k. split; [|done]. unfold group_keys. by rewrite sort_keys_perm.
Qed.

Lemma map_res_Forall2 {A B} (f : A → exn + B) (l : list A) (res : list B) :
  map_res f l = inr res → Forall2 (λ x y, f x = inr y) l res.
Proof.
  revert res. induction l as [|x l IH]; intros res; simpl.
  - intros [= <-]. constructor.
  - destruct (f x) as [e|y] eqn:Hx; simpl; [done|].
    destruct (map_res f l) as [e|ys]; simpl; [done|].
    intros [= <-]. constructor; [done|]. by apply IH.
Qed.

Lemma joined_aggregate_key (claims rollbacks : DataFrame) (k : list value)
    (a : AggregateRow) :
  length k = 2 → joined_aggregate claims rollbacks k = inr a → agg_key a = k.
Proof.
  intros Hlen. unfold joined_aggregate.
  repeat (match goal with |- bind_res ?r _ = _ → _ =>
            destruct r; simpl; [done|] end).
  intros [= <-]. unfold agg_key. simpl.
  destruct k as [|x [|y [|z k]]]; simpl in *; try lia. done.
Qed.

Lemma key_eqb_notna (a b : list value) :
  key_eqb a b = true → forallb notna b = true.
Proof.
  revert b. induction a as [|x a IH]; intros [|y b]; simpl; try done.
  rewrite !andb_true_iff. intros [Hxy Hab]. split; [|by apply IH].
  by destruct x, y.
Qed.

(** X15.  On success the summary aggregation has one row for each
    (npi, ndc) pair of the claims table: every row carries the pair of
    a claim whose [npi] and [ndc] are both present, every such claim has
    its pair (up to Python equality) on a row, and no two rows carry
    equal pairs.  The pair of a claim with a missing [npi] or [ndc] is on
    no row. *)
Theorem analysis_one_row_per_pair (claims rollbacks : DataFrame)
    (result : list AggregateRow) :
  NoDup (merged_header
           (plan_merge claims rollbacks "id" "claim_id" ("", "_rollback"))) →
  issubset ["id"; "npi"; "ndc"; "quantity"; "price"] (columns claims) = true →
  "claim_id" ∈ columns rollbacks →
  "claim_id" ∉ columns claims →
  analysis claims rollbacks = inr result →
  (∀ a, a ∈ result →
        ∃ l, l ∈ records claims ∧ has_key ["npi"; "ndc"] l = true
             ∧ agg_key a = key_of ["npi"; "ndc"] l)
  ∧ (∀ l, l ∈ records claims → has_key ["npi"; "ndc"] l = true →
          ∃ a, a ∈ result ∧ same_key (agg_key a) (key_of ["npi"; "ndc"] l))
  ∧ (∀ i j a b, i ≠ j → result !! i = Some a → result !! j = Some b →
                ¬ same_key (agg_key a) (agg_key b))
  ∧ (∀ l a, has_key ["npi"; "ndc"] l = false →
            ¬ same_key (agg_key a) (key_of ["npi"; "ndc"] l)).
Proof.
  intros Hnd Hcols Hr Hl Hrun.
  pose proof (analysis_keys_ok _ _ _ Hrun) as Hkeys_ok.
  rewrite analysis_fanned in Hrun by done.
  apply map_res_Forall2 in Hrun.
  set (keys := group_keys ["npi"; "ndc"] (records claims)) in *.
  assert (Hkeys : agg_key <$> result = keys).
  { assert (Hlen : Forall (λ k, length k = 2) keys).
    { apply Forall_forall. intros k (l & _ & _ & ->)%group_keys_rows. done. }
    clearbody keys. induction Hrun as [|k a ks res Hk _ IH]; [done|].
    apply Forall_cons in Hlen as [Hk2 Hlen]. csimpl.
    rewrite (joined_aggregate_key claims rollbacks k a Hk2 Hk). f_equal. auto. }
  split; [|split; [|split]].
  - intros a Ha. apply (group_keys_rows ["npi"; "ndc"]). fold keys.
    rewrite <- Hkeys. by apply list_elem_of_fmap_2.
  - intros l Hin Hkey.
    destruct (group_keys_cover ["npi"; "ndc"] (records claims) l Hin Hkey)
      as (k & Hk & Heq).
    fold keys in Hk. rewrite <- Hkeys in Hk.
    apply list_elem_of_fmap in Hk as (a & -> & Ha). by exists a.
  - intros i j a b Hij Hi Hj. unfold same_key. apply not_true_iff_false.
    pose proof (group_keys_apart ["npi"; "ndc"] (records claims)) as Hapart.
    fold keys in Hapart. rewrite <- Hkeys in Hapart.
    assert (Hi' : (agg_key <$> result) !! i = Some (agg_key a))
      by by rewrite list_lookup_fmap, Hi.
    assert (Hj' : (agg_key <$> result) !! j = Some (agg_key b))
      by by rewrite list_lookup_fmap, Hj.
    destruct (decide (i < j)) as [Hlt|Hge].
    + apply (StronglySorted_lookup _ _ i j _ _ Hapart Hlt Hi' Hj').
    + rewrite key_eqb_sym.
      apply (StronglySorted_lookup _ _ j i _ _ Hapart ltac:(lia) Hj' Hi').
  - intros l a Hmissing Hsame%key_eqb_notna. unfold has_key in Hmissing.
    congruence.
Qed.

(** The sample tables: the two rows of the result carry the pairs of the
    two claims. *)
Lemma analysis_one_row_per_pair_witness :
  analysis Sample.claims Sample.reverts
  = inr [mkAgg (VStr "123") (VStr "drug1") 30 1 (Some 50%Q) 1500;
         mkAgg (VStr "456") (VStr "drug2") 60 0 (Some 100%Q) 6000]
  ∧ ∀ l, l ∈ records Sample.claims → has_key ["npi"; "ndc"] l = true →
         ∃ a, a ∈ [mkAgg (VStr "123") (VStr "drug1") 30 1 (Some 50%Q) 1500;
                   mkAgg (VStr "456") (VStr "drug2") 60 0 (Some 100%Q) 6000]
              ∧ same_key (agg_key a) (key_of ["npi"; "ndc"] l).
Proof.
  assert (Hrun : analysis Sample.claims Sample.reverts
                 = inr [mkAgg (VStr "123") (VStr "drug1") 30 1 (Some 50%Q) 1500;
                        mkAgg (VStr "456") (VStr "drug2") 60 0 (Some 100%Q) 6000])
    by (vm_compute; reflexivity).
  split; [exact Hrun|].
  assert (Hnd : NoDup (merged_header
                         (plan_merge Sample.claims Sample.reverts
                                     "id" "claim_id" ("", "_rollback"))))
    by (apply (bool_decide_unpack _); vm_compute; exact I).
  assert (Hin : "claim_id" ∈ columns Sample.reverts)
    by (apply (bool_decide_unpack _); vm_compute; exact I).
  assert (Hout : "claim_id" ∉ columns Sample.claims)
    by (apply (bool_decide_unpack _); vm_compute; exact I).
  destruct (analysis_one_row_per_pair Sample.claims Sample.reverts _
              Hnd eq_refl Hin Hout Hrun) as (_ & Hcover & _ & _).
  exact Hcover.
Defined.

(** ** What the analyses save, and which tables they touch *)

Section AnalysesEffects.

Variable float_repr : Q → string.
Variable parse_float : string → option Q.

Lemma column_to_str_effect (data : ref) (c : string) (w w' : world) r :
  column_to_str float_repr data c w = (r, w') →
  sink w' = sink w ∧ ∀ i, i ≠ data → heap w' !! i = heap w !! i.
Proof.
  unfold column_to_str, mbind, M_bind, deref, lift, assign.
  destruct (heap w !! data); [|by intros [= <- <-]].
  destruct (getitem _ _); intros [= <- <-]; [done|].
  simpl. split; [done|]. intros i Hi. by apply list_lookup_insert_ne.
Qed.

Lemma column_to_float_effect (data : ref) (c : string) (w w' : world) r :
  column_to_float parse_float data c w = (r, w') →
  sink w' = sink w ∧ ∀ i, i ≠ data → heap w' !! i = heap w !! i.
Proof.
  unfold column_to_float, mbind, M_bind, deref, lift, assign.
  destruct (heap w !! data); [|by intros [= <- <-]].
  destruct (getitem _ _); [by intros [= <- <-]|].
  destruct (astype_float_series _ _); intros [= <- <-]; [done|].
  simpl. split; [done|]. intros i Hi. by apply list_lookup_insert_ne.
Qed.

Lemma top_chains_effect (p c : ref) (save_path : string) (w w' : world) r :
  calculate_top_chains float_repr p c save_path w = (r, w') →
  sink w' = saved PTopChains save_path r (sink w)
  ∧ ∀ i, i ≠ p → i ≠ c → heap w' !! i = heap w !! i.
Proof.
  unfold calculate_top_chains. unfold mbind at 1, M_bind at 1.
  destruct (column_to_str float_repr p "npi" w) as [[e1|[]] w1] eqn:H1;
    apply column_to_str_effect in H1 as [Hs1 Hh1].
  { intros [= <- <-]. split; [done|]. auto. }
  unfold mbind at 1, M_bind at 1.
  destruct (column_to_str float_repr c "npi" w1) as [[e2|[]] w2] eqn:H2;
    apply column_to_str_effect in H2 as [Hs2 Hh2].
  { intros [= <- <-]. split; [simpl; congruence|].
    intros i Hp Hc. rewrite Hh2, Hh1; done. }
  unfold mbind at 1, M_bind at 1.
  destruct (column_to_str float_repr c "ndc" w2) as [[e3|[]] w3] eqn:H3;
    apply column_to_str_effect in H3 as [Hs3 Hh3].
  { intros [= <- <-]. split; [simpl; congruence|].
    intros i Hp Hc. rewrite Hh3, Hh2, Hh1; done. }
  assert (Hh : ∀ i, i ≠ p → i ≠ c → heap w3 !! i = heap w !! i)
    by (intros i Hp Hc; rewrite Hh3, Hh2, Hh1; done).
  assert (Hs : sink w3 = sink w) by congruence.
  unfold mbind, M_bind, deref, lift, save_file, hand_over, logging, mret, M_ret,
    raise.
  destruct (heap w3 !! p); [|by intros [= <- <-]].
  destruct (heap w3 !! c); [|by intros [= <- <-]].
  destruct (grouped_chains _ _) as [e|groups]; [by intros [= <- <-]|].
  destruct (sort_values groups); intros [= <- <-]; [done|].
  simpl. by rewrite Hs.
Qed.

Lemma top_quantities_effect (c : ref) (save_path : string) (w w' : world) r :
  calculate_top_prescribed_quantities float_repr parse_float c save_path w
  = (r, w') →
  sink w' = saved PTopQuantities save_path r (sink w)
  ∧ ∀ i, i ≠ c → heap w' !! i = heap w !! i.
Proof.
  unfold calculate_top_prescribed_quantities.
  unfold mbind at 1, M_bind at 1, deref at 1.
  destruct (heap w !! c) as [df|]; [|by intros [= <- <-]].
  destruct (List.find _ _); [by intros [= <- <-]|].
  unfold mbind at 1, M_bind at 1.
  destruct (column_to_str float_repr c "npi" w) as [[e1|[]] w1] eqn:H1;
    apply column_to_str_effect in H1 as [Hs1 Hh1].
  { intros [= <- <-]. split; [done|]. auto. }
  unfold mbind at 1, M_bind at 1.
  destruct (column_to_float parse_float c "quantity" w1) as [[e2|[]] w2] eqn:H2;
    apply column_to_float_effect in H2 as [Hs2 Hh2].
  { intros [= <- <-]. split; [simpl; congruence|].
    intros i Hc. rewrite Hh2, Hh1; done. }
  unfold mbind, M_bind, deref, lift, save_file, hand_over, logging, mret, M_ret.
  destruct (heap w2 !! c); [|intros [= <- <-]; split; [simpl; congruence|]].
  - destruct (groupby _ _); intros [= <- <-]; simpl.
    + split; [congruence|]. intros i Hc. rewrite Hh2, Hh1; done.
    + split; [congruence|]. intros i Hc. rewrite Hh2, Hh1; done.
  - intros i Hc. rewrite Hh2, Hh1; done.
Qed.

Lemma perform_analysis_effect (p c r : ref) (save_path : string)
    (w w' : world) res :
  perform_analysis (Some p) (Some c) (Some r) save_path w = (res, w') →
  sink w' = saved PAnalysis save_path res (sink w).
Proof.
  unfold perform_analysis, mbind, M_bind, deref, lift, save_file, hand_over,
    logging, mret, M_ret.
  destruct (heap w !! c); [|by intros [= <- <-]].
  destruct (heap w !! r); [|by intros [= <- <-]].
  destruct (analysis _ _); by intros [= <- <-].
Qed.

(** X16.  The summary aggregation called with its three tables, top-chains
    and top-quantities each hand to the sink exactly what they return,
    once, under [save_path], and hand nothing when they raise.  The
    summary aggregation called with a table missing returns the empty
    list and hands nothing.  The summary aggregation leaves the store as
    it is, top-quantities touches no table of the store but its argument,
    top-chains none but its two arguments, whatever the outcome. *)
Theorem analyses_save_what_they_return (save_path : string) (w : world) :
  (∀ p c r : option ref,
     let out := perform_analysis p c r save_path w in
     match p, c, r with
     | Some _, Some _, Some _ =>
         sink out.2 = saved PAnalysis save_path out.1 (sink w)
     | _, _, _ => out.1 = inr [] ∧ sink out.2 = sink w
     end
     ∧ heap out.2 = heap w)
  ∧ (∀ p c,
       let out := calculate_top_chains float_repr p c save_path w in
       sink out.2 = saved PTopChains save_path out.1 (sink w)
       ∧ ∀ i, i ≠ p → i ≠ c → heap out.2 !! i = heap w !! i)
  ∧ (∀ c,
       let out := calculate_top_prescribed_quantities float_repr parse_float
                    c save_path w in
       sink out.2 = saved PTopQuantities save_path out.1 (sink w)
       ∧ ∀ i, i ≠ c → heap out.2 !! i = heap w !! i).
Proof.
  split; [|split].
  - intros p c r. cbv zeta. split; [|apply perform_analysis_heap].
    destruct p as [p|], c as [c|], r as [r|]; try done.
    destruct (perform_analysis _ _ _ _ _) as [res w'] eqn:Hrun.
    by apply (perform_analysis_effect p c r save_path w).
  - intros p c. cbv zeta.
    destruct (calculate_top_chains _ _ _ _ _) as [res w'] eqn:Hrun.
    by apply (top_chains_effect p c save_path w).
  - intros c. cbv zeta.
    destruct (calculate_top_prescribed_quantities _ _ _ _ _) as [res w']
      eqn:Hrun.
    by apply (top_quantities_effect c save_path w).
Qed.

End AnalysesEffects.

(** ** The two rankings, one after the other *)

Lemma with_cell_other (f : value → value) (c c' : string) (r : row) :
  c ≠ c' → cell (with_cell f c r) c' = cell r c'.
Proof. intros Hne. unfold with_cell, cell. by rewrite lookup_insert_ne. Qed.

Lemma records_with_column (f : value → value) (c : string) (df : DataFrame) :
  records (with_column f c df) = with_cell f c <$> records df.
Proof.
  unfold records, with_column. cbn [body]. rewrite <- !list_fmap_compose.
  by apply list_fmap_ext.
Qed.

Lemma body_with_column (f : value → value) (c : string) (df : DataFrame) :
  body (with_column f c df) = prod_map id (with_cell f c) <$> body df.
Proof. unfold with_column. cbn [body]. apply list_fmap_ext. by intros i [l r] _. Qed.

Lemma key_of_with_cell (f : value → value) (c : string) (keys : list string)
    (r : row) :
  c ∉ keys → key_of keys (with_cell f c r) = key_of keys r.
Proof.
  intros Hc. unfold key_of. apply list_fmap_ext. intros i k Hk.
  apply with_cell_other. intros ->. apply Hc. by eapply list_elem_of_lookup_2.
Qed.

Lemma group_keys_with_column (f : value → value) (c : string)
    (keys : list string) (df : DataFrame) :
  c ∉ keys →
  group_keys keys (records (with_column f c df)) = group_keys keys (records df).
Proof.
  intros Hc. unfold group_keys. do 2 f_equal.
  rewrite records_with_column, filter_bool_fmap, <- list_fmap_compose.
  rewrite (filter_bool_ext _ (has_key keys)); last first.
  { intros r _. unfold has_key. by rewrite key_of_with_cell. }
  apply list_fmap_ext. intros i r _. simpl. by apply key_of_with_cell.
Qed.

Lemma group_column_with_column (f : value → value) (c c' : string)
    (keys : list string) (k : list value) (df : DataFrame) :
  c ∉ keys → c ≠ c' →
  column_of c' (group_rows keys snd k (body (with_column f c df)))
  = column_of c' (group_rows keys snd k (body df)).
Proof.
  intros Hc Hne. unfold group_rows, column_of.
  rewrite body_with_column, filter_bool_fmap, <- list_fmap_compose.
  rewrite (filter_bool_ext _ (λ x : nat * row,
             has_key keys x.2 && key_eqb k (key_of keys x.2))); last first.
  { intros [i r] _. simpl. unfold has_key. by rewrite key_of_with_cell. }
  apply list_fmap_ext. intros i [l r] _. simpl. by apply with_cell_other.
Qed.

(** Top-quantities reads the columns [npi] and [quantity] only. *)
Lemma top_quantities_of_other_column (f : value → value) (c : string)
    (df : DataFrame) :
  c ≠ "npi" → c ≠ "quantity" →
  top_quantities_of (with_column f c df) = top_quantities_of df.
Proof.
  intros Hn Hq. unfold top_quantities_of.
  rewrite group_keys_with_column by set_solver.
  rewrite <- !list_fmap_compose. apply list_fmap_ext. intros i k _.
  unfold compose, top_quantity_entry. cbn [fst snd].
  by rewrite group_column_with_column by set_solver.
Qed.

Lemma partners_with_cell (f : value → value) (c : string) (pharmacy : DataFrame)
    (l : row) :
  c ≠ "npi" → partners pharmacy (with_cell f c l) = partners pharmacy l.
Proof.
  intros Hc. unfold partners. apply filter_bool_ext. intros r _.
  by rewrite with_cell_other.
Qed.

Lemma pair_key_with_cell (f : value → value) (c : string) (l r : row) :
  c ≠ "ndc" → pair_key (with_cell f c l, r) = pair_key (l, r).
Proof. intros Hc. unfold pair_key. simpl. by rewrite with_cell_other. Qed.

Lemma pairs_with_column (f : value → value) (c : string)
    (pharmacy claims : DataFrame) :
  c ≠ "npi" →
  pairs pharmacy (with_column f c claims)
  = prod_map (with_cell f c) id <$> pairs pharmacy claims.
Proof.
  intros Hc. unfold pairs. rewrite records_with_column.
  induction (records claims) as [|l ls IH]; [done|]. csimpl.
  rewrite fmap_app, IH, partners_with_cell by done. f_equal.
  rewrite <- list_fmap_compose. by apply list_fmap_ext.
Qed.

(** Top-chains reads the columns [npi], [ndc] and [price] of the claims
    only. *)
Lemma chain_keys_other_column (f : value → value) (c : string)
    (pharmacy claims : DataFrame) :
  c ≠ "npi" → c ≠ "ndc" →
  chain_keys pharmacy (with_column f c claims) = chain_keys pharmacy claims.
Proof.
  intros Hn Hd. unfold chain_keys. do 2 f_equal.
  rewrite pairs_with_column, filter_bool_fmap, <- list_fmap_compose by done.
  rewrite (filter_bool_ext _ pair_has_key); last first.
  { intros [l r] _. unfold pair_has_key.
    change (prod_map (with_cell f c) id (l, r)) with (with_cell f c l, r).
    by rewrite pair_key_with_cell. }
  apply list_fmap_ext. intros i [l r] _. unfold compose.
  change (prod_map (with_cell f c) id (l, r)) with (with_cell f c l, r).
  by apply pair_key_with_cell.
Qed.

Lemma chain_average_other_column (f : value → value) (c : string)
    (pharmacy claims : DataFrame) (k : list value) :
  c ≠ "npi" → c ≠ "ndc" → c ≠ "price" →
  chain_average pharmacy (with_column f c claims) k
  = chain_average pharmacy claims k.
Proof.
  intros Hn Hd Hp. unfold chain_average. do 2 f_equal.
  rewrite records_with_column.
  induction (records claims) as [|l ls IH]; [done|]. csimpl.
  rewrite IH. f_equal. rewrite with_cell_other by done. f_equal.
  unfold times. rewrite partners_with_cell by done. f_equal.
  apply filter_bool_ext. intros r _. unfold in_chain_group, pair_has_key.
  by rewrite pair_key_with_cell.
Qed.

Lemma grouped_chains_other_column (f : value → value) (c : string)
    (pharmacy claims : DataFrame) :
  issubset ["npi"; "chain"] (columns pharmacy) = true →
  issubset ["npi"; "ndc"; "price"] (columns claims) = true →
  "chain" ∉ columns claims → NoDup (columns claims) →
  c ≠ "npi" → c ≠ "ndc" → c ≠ "price" →
  grouped_chains pharmacy (with_column f c claims)
  = grouped_chains pharmacy claims.
Proof.
  intros Hp Hc Hno Hnd Hn Hd Hpr.
  rewrite !grouped_chains_by_pairs by done.
  assert (key_cells (with_column f c claims) "npi" = key_cells claims "npi")
    as ->.
  { unfold key_cells. rewrite records_with_column, <- list_fmap_compose.
    apply list_fmap_ext. intros i l _. simpl. by apply with_cell_other. }
  destruct (keys_clash _ _); [done|].
  rewrite chain_keys_other_column by done.
  apply map_res_ext. intros k _. by apply chain_average_other_column.
Qed.

Section CallOrder.

Variable float_repr : Q → string.
Variable parse_float : string → option Q.

#[local] Abbreviation S_npi := (with_column (astype_str float_repr) "npi").
#[local] Abbreviation S_ndc := (with_column (astype_str float_repr) "ndc").
#[local] Abbreviation F_quantity := (with_column (to_float parse_float) "quantity").

Lemma normalised_converted (df : DataFrame) :
  normalised_claims float_repr parse_float (converted_claims float_repr df)
  = S_ndc (normalised_claims float_repr parse_float df).
Proof.
  unfold normalised_claims, converted_claims.
  rewrite (with_column_comm (astype_str float_repr) (astype_str float_repr)
             "npi" "ndc") by done.
  rewrite (with_column_idempotent (astype_str float_repr) "npi")
    by apply astype_str_idempotent.
  by rewrite (with_column_comm (to_float parse_float) (astype_str float_repr)
                "quantity" "ndc") by done.
Qed.

Lemma converted_normalised (df : DataFrame) :
  converted_claims float_repr (normalised_claims float_repr parse_float df)
  = F_quantity (converted_claims float_repr df).
Proof.
  unfold normalised_claims, converted_claims.
  rewrite (with_column_comm (astype_str float_repr) (to_float parse_float)
             "npi" "quantity") by done.
  rewrite (with_column_idempotent (astype_str float_repr) "npi")
    by apply astype_str_idempotent.
  by rewrite (with_column_comm (astype_str float_repr) (to_float parse_float)
                "ndc" "quantity") by done.
Qed.

Lemma converted_quantities (df : DataFrame) :
  (∀ ir, ir ∈ body df → convertible parse_float (cell ir.2 "quantity")) →
  ∀ ir, ir ∈ body (converted_claims float_repr df) →
        convertible parse_float (cell ir.2 "quantity").
Proof.
  intros Hconv ir. unfold converted_claims. rewrite !body_with_column.
  rewrite <- list_fmap_compose.
  intros ([i r] & -> & Hir)%list_elem_of_fmap. simpl.
  rewrite !with_cell_other by done. by apply (Hconv (i, r)).
Qed.

(** X17.  The two rankings may be called in either order on the same
    tables: top-quantities returns the same after top-chains as before
    it, top-chains returns the same after top-quantities as before it,
    whether it returns or raises, and the tables are left the same.  The
    columns one of them converts are not read by the other, or are
    converted by it in the same way. *)
Theorem rankings_in_either_order (pharmacy_data claims_data : ref)
    (quantities_path chains_path : string) (pharmacy claims : DataFrame)
    (w : world) :
  pharmacy_data ≠ claims_data →
  heap w !! pharmacy_data = Some pharmacy →
  heap w !! claims_data = Some claims →
  issubset ["npi"; "chain"] (columns pharmacy) = true →
  issubset ["npi"; "ndc"; "price"; "quantity"] (columns claims) = true →
  "chain" ∉ columns claims → NoDup (columns claims) →
  (∀ ir, ir ∈ body claims → convertible parse_float (cell ir.2 "quantity")) →
  let chains := calculate_top_chains float_repr pharmacy_data claims_data
                                     chains_path in
  let quantities := calculate_top_prescribed_quantities float_repr parse_float
                      claims_data quantities_path in
  (quantities (chains w).2).1 = (quantities w).1
  ∧ (chains (quantities w).2).1 = (chains w).1
  ∧ heap (quantities (chains w).2).2 = heap (chains (quantities w).2).2.
Proof.
  intros Hne Hp Hc Hpcols Hccols Hno Hnd Hconv chains quantities.
  assert (Hcol : ∀ c, c ∈ ["npi"; "ndc"; "price"; "quantity"] →
                      c ∈ columns claims)
    by (intros c; by apply issubset_elem).
  assert (Hpn : "npi" ∈ columns pharmacy)
    by (eapply issubset_elem; [eassumption|set_solver]).
  assert (Hccols' : issubset ["npi"; "ndc"; "price"] (columns claims) = true).
  { apply issubset_spec. intros c Hc'. apply Hcol. set_solver. }
  assert (Hcn : "npi" ∈ columns claims) by (apply Hcol; set_solver).
  assert (Hcd : "ndc" ∈ columns claims) by (apply Hcol; set_solver).
  assert (Hcq : "quantity" ∈ columns claims) by (apply Hcol; set_solver).
  pose proof (lookup_lt_Some _ _ _ Hc) as Hlt.
  pose proof (lookup_lt_Some _ _ _ Hp) as Hlt'.
  (* top-quantities first *)
  pose proof (top_quantities_run float_repr parse_float claims_data
                quantities_path claims w Hc Hcn Hcq Hconv) as Hq.
  cbv zeta in Hq. fold (quantities w) in Hq.
  fold (top_quantities_of (normalised_claims float_repr parse_float claims)) in Hq.
  (* top-chains first *)
  pose proof (top_chains_heap float_repr pharmacy_data claims_data chains_path
                pharmacy claims w Hne Hp Hc Hpn Hcn Hcd) as Hch.
  fold (chains w) in Hch.
  fold (converted_claims float_repr claims) in Hch.
  fold (converted_pharmacy float_repr pharmacy) in Hch.
  assert (Hc1 : heap (chains w).2 !! claims_data
                = Some (converted_claims float_repr claims)).
  { rewrite Hch. apply list_lookup_insert_eq. by rewrite length_insert. }
  pose proof (top_quantities_run float_repr parse_float claims_data
                quantities_path (converted_claims float_repr claims)
                (chains w).2 Hc1 Hcn Hcq (converted_quantities claims Hconv))
    as Hq1.
  cbv zeta in Hq1. fold (quantities (chains w).2) in Hq1.
  rewrite !normalised_converted in Hq1.
  fold (top_quantities_of
          (S_ndc (normalised_claims float_repr parse_float claims))) in Hq1.
  rewrite top_quantities_of_other_column in Hq1 by done.
  (* top-chains after top-quantities *)
  assert (Hp2 : heap (quantities w).2 !! pharmacy_data = Some pharmacy).
  { rewrite Hq. simpl. by rewrite list_lookup_insert_ne. }
  assert (Hc2 : heap (quantities w).2 !! claims_data
                = Some (normalised_claims float_repr parse_float claims)).
  { rewrite Hq. simpl. by apply list_lookup_insert_eq. }
  split; [by rewrite Hq1, Hq|]. split.
  - unfold chains.
    rewrite (top_chains_result float_repr pharmacy_data claims_data chains_path
               pharmacy (normalised_claims float_repr parse_float claims)
               (quantities w).2 Hne Hp2 Hc2 Hpn Hcn Hcd).
    rewrite (top_chains_result float_repr pharmacy_data claims_data chains_path
               pharmacy claims w Hne Hp Hc Hpn Hcn Hcd).
    fold (converted_pharmacy float_repr pharmacy).
    fold (converted_claims float_repr
            (normalised_claims float_repr parse_float claims)).
    fold (converted_claims float_repr claims).
    rewrite converted_normalised.
    by rewrite grouped_chains_other_column.
  - rewrite Hq1. cbn [snd heap]. rewrite Hch, list_insert_insert_eq.
    unfold chains.
    rewrite (top_chains_heap float_repr pharmacy_data claims_data chains_path
               pharmacy (normalised_claims float_repr parse_float claims)
               (quantities w).2 Hne Hp2 Hc2 Hpn Hcn Hcd).
    fold (converted_pharmacy float_repr pharmacy).
    fold (converted_claims float_repr
            (normalised_claims float_repr parse_float claims)).
    rewrite Hq. cbn [snd heap].
    rewrite (list_insert_insert_ne _ pharmacy_data claims_data) by done.
    rewrite list_insert_insert_eq, converted_normalised.
    unfold normalised_claims, converted_claims.
    by rewrite (with_column_comm (to_float parse_float) (astype_str float_repr)
                  "quantity" "ndc") by done.
Qed.

End CallOrder.

(** The sample tables: the two orders of call give the same results. *)
Lemma rankings_in_either_order_witness :
  let chains := calculate_top_chains Sample.float_repr 0 1 "chains.json" in
  let quantities := calculate_top_prescribed_quantities Sample.float_repr
                      Sample.parse_float 1 "quantities.json" in
  (quantities (chains (Sample.loaded Sample.claims)).2).1
  = (quantities (Sample.loaded Sample.claims)).1
  ∧ (chains (quantities (Sample.loaded Sample.claims)).2).1
    = (chains (Sample.loaded Sample.claims)).1
  ∧ (chains (Sample.loaded Sample.claims)).1
    = inr [mkTopC (VStr "drug1") [mkChain (VStr "CVS") (Some 50%Q)];
           mkTopC (VStr "drug2") [mkChain (VStr "Walgreens") (Some 100%Q)]].
Proof.
  assert (Hno : "chain" ∉ columns Sample.claims)
    by (apply (bool_decide_unpack _); vm_compute; exact I).
  assert (Hnd : NoDup (columns Sample.claims))
    by (apply (bool_decide_unpack _); vm_compute; exact I).
  assert (Hconv : ∀ ir, ir ∈ body Sample.claims →
                        convertible Sample.parse_float (cell ir.2 "quantity")).
  { intros ir Hir.
    apply (proj1 (Forall_forall
                    (λ ir, convertible Sample.parse_float (cell ir.2 "quantity"))
                    (body Sample.claims))); [|exact Hir].
    repeat constructor; eexists; reflexivity. }
  destruct (rankings_in_either_order Sample.float_repr Sample.parse_float 0 1
              "quantities.json" "chains.json" Sample.pharmacy Sample.claims
              (Sample.loaded Sample.claims) ltac:(discriminate) eq_refl eq_refl
              eq_refl eq_refl Hno Hnd Hconv) as (H1 & H2 & _).
  split; [exact H1|]. split; [exact H2|]. vm_compute. reflexivity.
Defined.

(** ** The summary aggregation after top-chains *)

Lemma key_eqb_strings (a b : list value) :
  Forall (λ v, is_str v = true) a → key_eqb a b = true → a = b.
Proof.
  intros Ha. revert b. induction Ha as [|x a Hx Ha IH]; intros [|y b]; simpl;
    try done.
  rewrite andb_true_iff. intros [Hxy Hab].
  destruct x as [| | | |s]; try done.
  rewrite cell_eqb_str_l in Hxy. apply bool_decide_eq_true in Hxy as <-.
  f_equal. by apply IH.
Qed.

(** The keys of the rows of the result are the keys of the groups. *)
Lemma analysis_keys (claims rollbacks : DataFrame) (result : list AggregateRow) :
  NoDup (merged_header
           (plan_merge claims rollbacks "id" "claim_id" ("", "_rollback"))) →
  issubset ["id"; "npi"; "ndc"; "quantity"; "price"] (columns claims) = true →
  "claim_id" ∈ columns rollbacks →
  "claim_id" ∉ columns claims →
  analysis claims rollbacks = inr result →
  agg_key <$> result = group_keys ["npi"; "ndc"] (records claims).
Proof.
  intros Hnd Hcols Hr Hl Hrun.
  pose proof (analysis_keys_ok _ _ _ Hrun) as Hkeys_ok.
  rewrite analysis_fanned in Hrun by done.
  apply map_res_Forall2 in Hrun.
  assert (Hlen : Forall (λ k, length k = 2)
                        (group_keys ["npi"; "ndc"] (records claims))).
  { apply Forall_forall. intros k (l & _ & _ & ->)%group_keys_rows. done. }
  induction Hrun as [|k a ks res Hk _ IH]; [done|].
  apply Forall_cons in Hlen as [Hk2 Hlen]. csimpl.
  rewrite (joined_aggregate_key claims rollbacks k a Hk2 Hk). f_equal. auto.
Qed.

Section AfterTopChains.

Variable float_repr : Q → string.

Lemma converted_row_key (l : row) :
  key_of ["npi"; "ndc"]
         (with_cell (astype_str float_repr) "ndc"
                    (with_cell (astype_str float_repr) "npi" l))
  = str_pair float_repr l.
Proof.
  unfold key_of, str_pair. csimpl. f_equal; [|f_equal].
  - rewrite with_cell_other by done. unfold with_cell, cell.
    by rewrite lookup_insert_eq.
  - unfold with_cell at 1, cell at 1. rewrite lookup_insert_eq. simpl.
    by rewrite with_cell_other.
Qed.

Lemma str_pair_strings (l : row) :
  Forall (λ v, is_str v = true) (str_pair float_repr l).
Proof.
  unfold str_pair. repeat constructor.
  - by destruct (astype_str_is_str float_repr (cell l "npi")) as [s ->].
  - by destruct (astype_str_is_str float_repr (cell l "ndc")) as [s ->].
Qed.

Lemma str_pair_has_key (l : row) :
  forallb notna (str_pair float_repr l) = true.
Proof.
  unfold str_pair. simpl.
  destruct (astype_str_is_str float_repr (cell l "npi")) as [s ->].
  by destruct (astype_str_is_str float_repr (cell l "ndc")) as [t ->].
Qed.

(** X18.  The summary aggregation is not indifferent to a call of
    top-chains before it on the same claims table: on the converted table
    every row of its result carries the [npi] and the [ndc] of a claim as
    strings, and every claim has its pair on a row, the claims with a
    missing [npi] or [ndc] included, which stand under the strings
    top-chains made of the missing cells. *)
Theorem analysis_after_top_chains (claims rollbacks : DataFrame)
    (result : list AggregateRow) :
  NoDup (merged_header
           (plan_merge claims rollbacks "id" "claim_id" ("", "_rollback"))) →
  issubset ["id"; "npi"; "ndc"; "quantity"; "price"] (columns claims) = true →
  "claim_id" ∈ columns rollbacks →
  "claim_id" ∉ columns claims →
  analysis (converted_claims float_repr claims) rollbacks = inr result →
  (∀ a, a ∈ result →
        ∃ l, l ∈ records claims ∧ agg_key a = str_pair float_repr l)
  ∧ (∀ l, l ∈ records claims →
          ∃ a, a ∈ result ∧ agg_key a = str_pair float_repr l)
  ∧ NoDup (agg_key <$> result).
Proof.
  intros Hnd Hcols Hr Hl Hrun.
  pose proof (analysis_keys (converted_claims float_repr claims) rollbacks
                result Hnd Hcols Hr Hl Hrun) as Hkeys.
  assert (Hrows : records (converted_claims float_repr claims)
                  = (λ l, with_cell (astype_str float_repr) "ndc"
                            (with_cell (astype_str float_repr) "npi" l))
                      <$> records claims).
  { unfold converted_claims. rewrite !records_with_column.
    by rewrite <- list_fmap_compose. }
  assert (Hstr : ∀ k, k ∈ agg_key <$> result →
                      ∃ l, l ∈ records claims ∧ k = str_pair float_repr l).
  { intros k Hk. rewrite Hkeys in Hk.
    apply group_keys_rows in Hk as (l' & Hl' & _ & ->).
    rewrite Hrows in Hl'. apply list_elem_of_fmap in Hl' as (l & -> & Hin).
    exists l. split; [done|]. apply converted_row_key. }
  split; [|split].
  - intros a Ha. apply Hstr. by apply list_elem_of_fmap_2.
  - intros l Hin.
    destruct (group_keys_cover ["npi"; "ndc"]
                (records (converted_claims float_repr claims))
                (with_cell (astype_str float_repr) "ndc"
                   (with_cell (astype_str float_repr) "npi" l)))
      as (k & Hk & Heq).
    + rewrite Hrows.
      by apply (list_elem_of_fmap_2
                  (λ l, with_cell (astype_str float_repr) "ndc"
                          (with_cell (astype_str float_repr) "npi" l))).
    + unfold has_key. rewrite converted_row_key. apply str_pair_has_key.
    + rewrite <- Hkeys in Hk. pose proof Hk as Hk'.
      apply list_elem_of_fmap in Hk as (a & -> & Ha). exists a.
      split; [done|]. rewrite converted_row_key in Heq.
      destruct (Hstr _ Hk') as (l0 & _ & Hl0).
      apply key_eqb_strings; [|done]. rewrite Hl0. apply str_pair_strings.
  - assert (Hgen : ∀ ks : list (list value),
              (∀ k, k ∈ ks → ∃ l, k = str_pair float_repr l) →
              StronglySorted (λ a b, key_eqb a b = false) ks → NoDup ks).
    { intros ks Hks Hapart.
      induction Hapart as [|k ks' Hks' IH Hk]; [constructor|].
      apply NoDup_cons. split.
      - intros Hin. rewrite Forall_forall in Hk. specialize (Hk k Hin).
        destruct (Hks k ltac:(left)) as (l & ->).
        rewrite key_eqb_refl in Hk; [done|apply str_pair_has_key].
      - apply IH. intros k' Hk'. apply Hks. by right. }
    apply Hgen.
    + intros k Hk. destruct (Hstr k Hk) as (l & _ & ->). by exists l.
    + rewrite Hkeys. apply group_keys_apart.
Qed.

End AfterTopChains.

(** Two claims, the second without [ndc]: before top-chains the summary
    aggregation has one row, under the number 123; after it, two rows,
    under strings, the second under the string "nan". *)
Lemma analysis_after_top_chains_witness :
  analysis Gaps.claims Sample.reverts
  = inr [mkAgg (VInt 123) (VStr "drug1") 30 1 (Some 50%Q) 1500]
  ∧ analysis (converted_claims Sample.float_repr Gaps.claims) Sample.reverts
    = inr [mkAgg (VStr "123") (VStr "drug1") 30 1 (Some 50%Q) 1500;
           mkAgg (VStr "456") (VStr "nan") 60 0 (Some 100%Q) 6000]
  ∧ ∀ l, l ∈ records Gaps.claims →
         ∃ a, a ∈ [mkAgg (VStr "123") (VStr "drug1") 30 1 (Some 50%Q) 1500;
                   mkAgg (VStr "456") (VStr "nan") 60 0 (Some 100%Q) 6000]
              ∧ agg_key a = str_pair Sample.float_repr l.
Proof.
  split; [vm_compute; reflexivity|].
  assert (Hrun : analysis (converted_claims Sample.float_repr Gaps.claims)
                          Sample.reverts
                 = inr [mkAgg (VStr "123") (VStr "drug1") 30 1 (Some 50%Q) 1500;
                        mkAgg (VStr "456") (VStr "nan") 60 0 (Some 100%Q) 6000])
    by (vm_compute; reflexivity).
  split; [exact Hrun|].
  assert (Hnd : NoDup (merged_header
                         (plan_merge Gaps.claims Sample.reverts
                                     "id" "claim_id" ("", "_rollback"))))
    by (apply (bool_decide_unpack _); vm_compute; exact I).
  assert (Hin : "claim_id" ∈ columns Sample.reverts)
    by (apply (bool_decide_unpack _); vm_compute; exact I).
  assert (Hout : "claim_id" ∉ columns Gaps.claims)
    by (apply (bool_decide_unpack _); vm_compute; exact I).
  destruct (analysis_after_top_chains Sample.float_repr Gaps.claims
              Sample.reverts _ Hnd eq_refl Hin Hout Hrun) as (_ & Hcover & _).
  exact Hcover.
Defined.


(** ** The fan-out, claim by claim *)




Lemma map_res_all {A B} (f : A → exn + B) (g : A → B) (l : list A) :
  (∀ x, x ∈ l → f x = inr (g x)) → map_res f l = inr (g <$> l).
Proof.
  induction l as [|x l IH]; intros H; [done|]. simpl.
  rewrite H by left. simpl. rewrite IH by (intros; apply H; by right). done.
Qed.


Lemma existsb_false {A} (P : A → bool) (l : list A) :
  (∀ x, x ∈ l → P x = false) → existsb P l = false.
Proof.
  induction l as [|x l IH]; intros H; [done|]. simpl.
  rewrite H by left. apply IH. intros. apply H. by right.
Qed.


Section FanOutSums.

Variables claims rollbacks : DataFrame.

Hypothesis header_ok :
  NoDup (merged_header
           (plan_merge claims rollbacks "id" "claim_id" ("", "_rollback"))).
Hypothesis claims_columns :
  issubset ["id"; "npi"; "ndc"; "quantity"; "price"] (columns claims) = true.
Hypothesis claim_id_right : "claim_id" ∈ columns rollbacks.
Hypothesis claim_id_not_left : "claim_id" ∉ columns claims.
Hypothesis string_ids : ∀ l, l ∈ records claims → is_str (cell l "id") = true.
Hypothesis string_claim_ids :
  ∀ r, r ∈ records rollbacks → is_str (cell r "claim_id") = true.
Hypothesis numbers :
  ∀ l, l ∈ records claims →
       is_str (cell l "quantity") = false ∧ is_str (cell l "price") = false.








End FanOutSums.



(** ** The average price of a chain, claim by claim *)

Lemma with_cell_same (f : value → value) (c : string) (r : row) :
  cell (with_cell f c r) c = f (cell r c).
Proof. unfold with_cell, cell at 1. by rewrite lookup_insert_eq. Qed.

Section ChainMeans.

Variable float_repr : Q → string.
Variables pharmacy claims : DataFrame.

Hypothesis pharmacy_columns : issubset ["npi"; "chain"] (columns pharmacy) = true.
Hypothesis claims_columns :
  issubset ["npi"; "ndc"; "price"] (columns claims) = true.
Hypothesis no_chain : "chain" ∉ columns claims.
Hypothesis claims_header : NoDup (columns claims).
Hypothesis chain_names :
  ∀ r, r ∈ records pharmacy → is_str (cell r "chain") = true.
Hypothesis prices : ∀ l, l ∈ records claims → is_str (cell l "price") = false.

#[local] Abbreviation str := (astype_str float_repr).
#[local] Abbreviation cp := (converted_pharmacy float_repr pharmacy).
#[local] Abbreviation cc := (converted_claims float_repr claims).

(** A claim and a pharmacy row as top-chains converts them. *)
#[local] Abbreviation claim_as_converted :=
  (λ l : row, with_cell str "ndc" (with_cell str "npi" l)).
#[local] Abbreviation pharmacy_as_converted := (with_cell str "npi").

Lemma converted_claims_records :
  records cc = claim_as_converted <$> records claims.
Proof.
  unfold converted_claims. rewrite !records_with_column.
  by rewrite <- list_fmap_compose.
Qed.

Lemma converted_pharmacy_records :
  records cp = pharmacy_as_converted <$> records pharmacy.
Proof. unfold converted_pharmacy. by rewrite records_with_column. Qed.

Lemma converted_claim_cells (l : row) :
  cell (claim_as_converted l) "npi" = str (cell l "npi")
  ∧ cell (claim_as_converted l) "ndc" = str (cell l "ndc")
  ∧ cell (claim_as_converted l) "price" = cell l "price".
Proof.
  split; [|split].
  - rewrite with_cell_other by done. apply with_cell_same.
  - rewrite with_cell_same. by rewrite with_cell_other.
  - by rewrite !with_cell_other.
Qed.

Lemma converted_pharmacy_cells (r : row) :
  cell (pharmacy_as_converted r) "npi" = str (cell r "npi")
  ∧ cell (pharmacy_as_converted r) "chain" = cell r "chain".
Proof. split; [apply with_cell_same|by rewrite with_cell_other]. Qed.

(** The pharmacy rows the join gives a claim are the rows of its [npi]. *)
Lemma partners_converted (l : row) :
  partners cp (claim_as_converted l)
  = pharmacy_as_converted <$> pharmacies_of float_repr pharmacy l.
Proof.
  unfold partners, pharmacies_of.
  rewrite converted_pharmacy_records, filter_bool_fmap. f_equal.
  apply filter_bool_ext. intros r _.
  rewrite (proj1 (converted_claim_cells l)).
  rewrite (proj1 (converted_pharmacy_cells r)).
  destruct (astype_str_is_str float_repr (cell l "npi")) as [s ->].
  destruct (astype_str_is_str float_repr (cell r "npi")) as [t ->].
  rewrite key_match_str. apply bool_decide_ext.
  split; [by intros ->|by intros [= ->]].
Qed.

Lemma in_group_converted (d c : string) (l r : row) :
  r ∈ records pharmacy →
  in_chain_group [VStr d; VStr c]
                 (claim_as_converted l, pharmacy_as_converted r)
  = bool_decide (str (cell l "ndc") = VStr d)
    && bool_decide (cell r "chain" = VStr c).
Proof.
  intros Hr. unfold in_chain_group, pair_has_key, pair_key. cbn [fst snd].
  rewrite (proj1 (proj2 (converted_claim_cells l))).
  rewrite (proj2 (converted_pharmacy_cells r)).
  pose proof (chain_names r Hr) as Hc.
  destruct (astype_str_is_str float_repr (cell l "ndc")) as [s ->].
  destruct (cell r "chain") as [| | | |t]; try done.
  simpl. rewrite !andb_true_r.
  f_equal; apply bool_decide_ext; split; congruence.
Qed.

Lemma filter_bool_and {A} (b : bool) (P : A → bool) (l : list A) :
  List.filter (λ x, b && P x) l = if b then List.filter P l else [].
Proof.
  destruct b; [done|]. induction l as [|x l IH]; [done|]. simpl. exact IH.
Qed.

(** The number of times the join puts a claim in a group. *)
Lemma times_converted (d c : string) (l : row) :
  times cp [VStr d; VStr c] (claim_as_converted l)
  = stands float_repr pharmacy (VStr d) (VStr c) l.
Proof.
  unfold times, stands. rewrite partners_converted, filter_bool_fmap, length_fmap.
  rewrite (filter_bool_ext _
             (λ r, bool_decide (str (cell l "ndc") = VStr d)
                   && bool_decide (cell r "chain" = VStr c))).
  - rewrite filter_bool_and. by case_bool_decide.
  - intros r [Hr _]%filter_bool_elem. by apply in_group_converted.
Qed.

Lemma omap_num_replicate (n : nat) (v : value) :
  omap num_of (replicate n v)
  = match num_of v with Some q => replicate n q | None => [] end.
Proof.
  induction n as [|n IH]; [by destruct (num_of v)|]. csimpl.
  rewrite IH. by destruct (num_of v).
Qed.

Lemma count_cells_numbers (vs : list value) :
  existsb is_str vs = false → count_cells vs = length (omap num_of vs).
Proof.
  unfold count_cells. induction vs as [|v vs IH]; [done|]. simpl.
  intros [Hv Hvs]%orb_false_iff. specialize (IH Hvs).
  destruct v; simpl in *; try done; by rewrite IH.
Qed.

(** The mean of the code on cells that are no strings. *)
Lemma mean_cells_numbers (vs : list value) :
  existsb is_str vs = false → mean_cells vs = inr (mean_of (omap num_of vs)).
Proof.
  intros Hvs. unfold mean_cells, mean_of. rewrite Hvs.
  rewrite count_cells_numbers by done.
  by destruct (omap num_of vs).
Qed.

(** The average of a group, as the mean of its prices. *)
Lemma chain_average_mean (d c : string) :
  chain_average cp cc [VStr d; VStr c]
  = inr (mkGroup (VStr d) (VStr c)
           (mean_of (prices_of float_repr pharmacy claims (VStr d) (VStr c)))).
Proof.
  unfold chain_average.
  assert (Hlist :
    (records cc ≫= λ l, replicate (times cp [VStr d; VStr c] l) (cell l "price"))
    = (records claims
         ≫= λ l, replicate (stands float_repr pharmacy (VStr d) (VStr c) l)
                           (cell l "price"))).
  { rewrite converted_claims_records.
    generalize (records claims). intros ls.
    induction ls as [|l ls IH]; [done|]. csimpl.
    rewrite IH, times_converted.
    by rewrite (proj2 (proj2 (converted_claim_cells l))). }
  rewrite Hlist. rewrite mean_cells_numbers; last first.
  { apply existsb_false. intros v (l & Hv & Hl)%list_elem_of_bind.
    apply elem_of_replicate in Hv as [-> _]. by apply prices. }
  cbn [bind_res]. do 3 f_equal.
  unfold prices_of. generalize (records claims). intros ls.
  induction ls as [|l ls IH]; [done|]. csimpl.
  by rewrite omap_app, IH, omap_num_replicate.
Qed.

(** The keys of the groups are pairs of strings. *)
Lemma chain_keys_strings (k : list value) :
  k ∈ chain_keys cp cc →
  ∃ (d c : string) (l r : row),
    k = [VStr d; VStr c] ∧ l ∈ records claims
    ∧ r ∈ pharmacies_of float_repr pharmacy l
    ∧ str (cell l "ndc") = VStr d ∧ cell r "chain" = VStr c.
Proof.
  unfold chain_keys. rewrite sort_keys_perm. intros Hk%distinct_keys_subset.
  apply list_elem_of_fmap in Hk as ([l' r'] & -> & [Hlr _]%filter_bool_elem).
  unfold pairs in Hlr. apply list_elem_of_bind in Hlr as (l0 & Hlr & Hl0).
  apply list_elem_of_fmap in Hlr as (r0 & [= -> ->] & Hr0).
  rewrite converted_claims_records in Hl0.
  apply list_elem_of_fmap in Hl0 as (l & -> & Hl).
  rewrite partners_converted in Hr0.
  apply list_elem_of_fmap in Hr0 as (r & -> & Hr).
  unfold pair_key. cbn [fst snd].
  rewrite (proj1 (proj2 (converted_claim_cells l))).
  rewrite (proj2 (converted_pharmacy_cells r)).
  assert (Hrp : r ∈ records pharmacy).
  { unfold pharmacies_of in Hr. by apply filter_bool_elem in Hr as [? _]. }
  pose proof (chain_names r Hrp) as Hc.
  destruct (astype_str_is_str float_repr (cell l "ndc")) as [d Hd].
  destruct (cell r "chain") as [| | | |c] eqn:Hchain; try done.
  exists d, c, l, r. rewrite Hd. done.
Qed.

(** Every claim is in the group of its drug and of the chain of each
    pharmacy row of its [npi]. *)
Lemma chain_keys_cover (l r : row) :
  l ∈ records claims → r ∈ pharmacies_of float_repr pharmacy l →
  [str (cell l "ndc"); cell r "chain"] ∈ chain_keys cp cc.
Proof.
  intros Hl Hr.
  assert (Hrp : r ∈ records pharmacy).
  { unfold pharmacies_of in Hr. by apply filter_bool_elem in Hr as [? _]. }
  pose proof (chain_names r Hrp) as Hc.
  destruct (astype_str_is_str float_repr (cell l "ndc")) as [d Hd].
  destruct (cell r "chain") as [| | | |c] eqn:Hchain; try done.
  rewrite Hd.
  set (lr := (claim_as_converted l, pharmacy_as_converted r)).
  assert (Hkey : pair_key lr = [VStr d; VStr c]).
  { unfold pair_key, lr. cbn [fst snd].
    rewrite (proj1 (proj2 (converted_claim_cells l))), Hd.
    by rewrite (proj2 (converted_pharmacy_cells r)), Hchain. }
  assert (Hin : lr ∈ List.filter pair_has_key (pairs cp cc)).
  { apply filter_bool_elem. split.
    - unfold pairs. apply list_elem_of_bind. exists (claim_as_converted l).
      split.
      + unfold lr.
        apply (list_elem_of_fmap_2 (λ r0 : row, (claim_as_converted l, r0))).
        rewrite partners_converted.
        by apply (list_elem_of_fmap_2 pharmacy_as_converted).
      + rewrite converted_claims_records.
        by apply (list_elem_of_fmap_2 claim_as_converted).
    - unfold pair_has_key. by rewrite Hkey. }
  destruct (distinct_keys_cover
              (pair_key <$> List.filter pair_has_key (pairs cp cc))
              [VStr d; VStr c]) as (k' & Hk' & Heq).
  - apply Forall_fmap, Forall_forall. intros x [_ Hx]%filter_bool_elem.
    exact Hx.
  - rewrite <- Hkey. by apply list_elem_of_fmap_2.
  - unfold chain_keys. rewrite sort_keys_perm.
    rewrite key_eqb_sym in Heq.
    apply key_eqb_strings in Heq; [by subst|repeat constructor].
Qed.

(** The frame grouped by [ndc] and [chain], group by group. *)
Lemma grouped_chains_means :
  grouped_chains cp cc
  = inr ((λ k, mkGroup (k !!! 0%nat) (k !!! 1%nat)
                 (mean_of (prices_of float_repr pharmacy claims
                                     (k !!! 0%nat) (k !!! 1%nat))))
           <$> chain_keys cp cc).
Proof.
  rewrite grouped_chains_converted by done. apply map_res_all.
  intros k (d & c & _ & _ & -> & _)%chain_keys_strings.
  apply chain_average_mean.
Qed.

(** The rows of the inner join, claim by claim. *)
Lemma merged_blocks :
  ∃ merged blocks,
    merge cc (mkDF ["npi"; "chain"]
                (prod_map id (λ r, row_of id (cell r) ["npi"; "chain"])
                   <$> body cp))
          "npi" "npi" InnerJoin ("_x", "_y") = inr merged
    ∧ records merged = mjoin blocks
    ∧ Forall2
        (λ l block,
           Forall2 (λ r y, cell y "chain" = cell r "chain"
                           ∧ cell y "ndc" = str (cell l "ndc")
                           ∧ cell y "price" = cell l "price")
                   (pharmacies_of float_repr pharmacy l) block)
        (records claims) blocks.
Proof.
  clear chain_names prices.
  exists (frame_of (columns cc ++ ["chain"]) (chain_row cp cc <$> pairs cp cc)).
  exists ((λ l, (λ r, chain_row cp cc (claim_as_converted l,
                                        pharmacy_as_converted r))
                  <$> pharmacies_of float_repr pharmacy l)
            <$> records claims).
  split; [|split].
  - rewrite merge_chain by done. by rewrite converted_keys_ok.
  - unfold records at 1, frame_of. cbn [body]. rewrite range_index_snd.
    unfold pairs. rewrite converted_claims_records.
    generalize (records claims). intros ls.
    induction ls as [|l ls IH]; [done|]. csimpl.
    rewrite fmap_app, IH. f_equal.
    rewrite partners_converted, <- !list_fmap_compose. done.
  - apply Forall2_fmap_r, Forall_Forall2_diag, Forall_forall. intros l _.
    apply Forall2_fmap_r, Forall_Forall2_diag, Forall_forall. intros r _.
    assert (Hcol : ∀ c, c ∈ ["npi"; "ndc"; "price"] → c ∈ columns cc)
      by (intros c; by apply issubset_elem).
    split; [|split].
    + rewrite (merged_chain_cell cp cc) by done.
      apply converted_pharmacy_cells.
    + rewrite (merged_claim_cell cp cc) by (done || (apply Hcol; set_solver)).
      apply converted_claim_cells.
    + rewrite (merged_claim_cell cp cc) by (done || (apply Hcol; set_solver)).
      apply converted_claim_cells.
Qed.

End ChainMeans.

(** C10.  On tables with their columns in place, chain names that are
    strings and no string among the prices, the inner join of top-chains
    gives every claim one row for each pharmacy row that carries its
    [npi] (both read as strings), with the chain of that row.  The average
    price of an (ndc, chain) group is the arithmetic mean of the prices of
    the claims of that drug, the price of a claim standing once for each
    pharmacy row of its [npi] that is of that chain: a claim whose [npi]
    is under two chains is in the group of both.  Every chain that
    top-chains lists carries this average. *)
Theorem duplicate_npi_joins_every_pharmacy_row (float_repr : Q → string)
    (pharmacy_data claims_data : ref) (save_path : string)
    (pharmacy claims : DataFrame) (w : world) :
  pharmacy_data ≠ claims_data →
  heap w !! pharmacy_data = Some pharmacy →
  heap w !! claims_data = Some claims →
  issubset ["npi"; "chain"] (columns pharmacy) = true →
  issubset ["npi"; "ndc"; "price"] (columns claims) = true →
  "chain" ∉ columns claims → NoDup (columns claims) →
  (∀ r, r ∈ records pharmacy → is_str (cell r "chain") = true) →
  (∀ l, l ∈ records claims → is_str (cell l "price") = false) →
  (∃ sub merged blocks,
     project (converted_pharmacy float_repr pharmacy) ["npi"; "chain"] = inr sub
     ∧ merge (converted_claims float_repr claims) sub "npi" "npi" InnerJoin
             ("_x", "_y") = inr merged
     ∧ records merged = mjoin blocks
     ∧ Forall2
         (λ l block,
            Forall2 (λ r y, cell y "chain" = cell r "chain"
                            ∧ cell y "ndc" = astype_str float_repr (cell l "ndc")
                            ∧ cell y "price" = cell l "price")
                    (pharmacies_of float_repr pharmacy l) block)
         (records claims) blocks)
  ∧ (∃ grouped,
       grouped_chains (converted_pharmacy float_repr pharmacy)
                      (converted_claims float_repr claims) = inr grouped
       ∧ (∀ g, g ∈ grouped →
            g_avg_price g
            = mean_of (prices_of float_repr pharmacy claims
                                 (g_ndc g) (g_chain g)))
       ∧ (∀ l r, l ∈ records claims →
            r ∈ pharmacies_of float_repr pharmacy l →
            1 ≤ stands float_repr pharmacy
                       (astype_str float_repr (cell l "ndc")) (cell r "chain") l
            ∧ ∃ g, g ∈ grouped
                   ∧ g_ndc g = astype_str float_repr (cell l "ndc")
                   ∧ g_chain g = cell r "chain")
       ∧ (calculate_top_chains float_repr pharmacy_data claims_data
                               save_path w).1
         = match sort_values grouped with
           | [] => inl AttributeError
           | top => inr (rank_chains top)
           end)
  ∧ ∀ result e c,
      (calculate_top_chains float_repr pharmacy_data claims_data
                            save_path w).1 = inr result →
      e ∈ result → c ∈ tc_chain e →
      chain_avg_price c
      = mean_of (prices_of float_repr pharmacy claims (tc_ndc e) (name c)).
Proof.
  intros Hne Hp Hc Hpcols Hccols Hno Hnd Hnames Hprices.
  pose proof (grouped_chains_means float_repr pharmacy claims Hpcols Hccols
                Hno Hnd Hnames Hprices) as Hgrouped.
  set (grouped := _ <$> chain_keys _ _) in Hgrouped.
  assert (Hmeans : ∀ g, g ∈ grouped →
            g_avg_price g
            = mean_of (prices_of float_repr pharmacy claims
                                 (g_ndc g) (g_chain g))).
  { intros g (k & -> & _)%list_elem_of_fmap. done. }
  assert (Hrun : (calculate_top_chains float_repr pharmacy_data claims_data
                                       save_path w).1
                 = match sort_values grouped with
                   | [] => inl AttributeError
                   | top => inr (rank_chains top)
                   end).
  { rewrite (top_chains_result float_repr pharmacy_data claims_data save_path
               pharmacy claims w);
      try done; try (eapply issubset_elem; [eassumption|set_solver]).
    fold (converted_pharmacy float_repr pharmacy).
    fold (converted_claims float_repr claims).
    by rewrite Hgrouped. }
  split; [|split].
  - destruct (merged_blocks float_repr pharmacy claims Hpcols Hccols Hno Hnd)
      as (merged & blocks & Hmerge & Hrec & Hblocks).
    eexists. exists merged, blocks. split; [|done].
    by apply project_pharmacy.
  - exists grouped. split; [done|]. split; [done|]. split; [|done].
    intros l r Hl Hr. split.
    + unfold stands. rewrite bool_decide_eq_true_2 by done.
      assert (Hin : r ∈ List.filter (λ r0, bool_decide (cell r0 "chain"
                                                        = cell r "chain"))
                                    (pharmacies_of float_repr pharmacy l)).
      { apply filter_bool_elem. split; [done|]. by apply bool_decide_eq_true. }
      destruct (List.filter _ _); [by apply elem_of_nil in Hin|simpl; lia].
    + pose proof (chain_keys_cover float_repr pharmacy claims Hnames l r Hl Hr)
        as Hk.
      eexists. split; [by apply (list_elem_of_fmap_2 _ _ _ Hk)|]. done.
  - intros result e c Hres He Hcin. rewrite Hrun in Hres.
    assert (Hsorted : ∀ g, g ∈ sort_values grouped → g ∈ grouped).
    { intros g. by rewrite sort_values_perm. }
    destruct (sort_values grouped) as [|g0 top] eqn:Htop; [done|].
    injection Hres as <-. unfold rank_chains in He.
    apply list_elem_of_fmap in He as (k & -> & Hk). cbn [tc_chain tc_ndc] in *.
    apply list_elem_of_fmap in Hcin as (g & -> & Hg).
    apply (subseteq_take 2) in Hg.
    apply filter_bool_elem in Hg as [Hg Heq]. cbn [chain_avg_price name].
    rewrite (Hmeans g (Hsorted g Hg)).
    assert (Hstr : ∃ s, g_ndc g = VStr s).
    { apply Hsorted in Hg. apply list_elem_of_fmap in Hg as (k' & -> & Hk').
      apply (chain_keys_strings float_repr pharmacy claims Hnames) in Hk'
        as (d & c & _ & _ & -> & _). by exists d. }
    destruct Hstr as [s Hs]. rewrite Hs in Heq |- *.
    rewrite cell_eqb_sym, cell_eqb_str_l in Heq.
    apply bool_decide_eq_true in Heq. by rewrite <- Heq.
Qed.

(** The [npi] 123 under CVS and under Walgreens: the claim of drug1 at
    the price 50 stands in the group of both chains, and both are listed
    with the average 50. *)
Lemma duplicate_npi_joins_every_pharmacy_row_witness :
  length (pharmacies_of Sample.float_repr Sample.shared_npi
            (Sample.claim_row "1" "drug1" (VStr "123") 30 50 "2023-01-01")) = 2
  ∧ prices_of Sample.float_repr Sample.shared_npi Sample.claims
              (VStr "drug1") (VStr "CVS") = [50%Q]
  ∧ prices_of Sample.float_repr Sample.shared_npi Sample.claims
              (VStr "drug1") (VStr "Walgreens") = [50%Q]
  ∧ (calculate_top_chains Sample.float_repr 0 1 "results/out.json"
       (mkWorld [Sample.shared_npi; Sample.claims; Sample.reverts] [] [])).1
    = inr [mkTopC (VStr "drug1")
             [mkChain (VStr "CVS") (Some 50%Q);
              mkChain (VStr "Walgreens") (Some 50%Q)];
           mkTopC (VStr "drug2") [mkChain (VStr "Rite Aid") (Some 100%Q)]]
  ∧ ∀ result e c,
      (calculate_top_chains Sample.float_repr 0 1 "results/out.json"
         (mkWorld [Sample.shared_npi; Sample.claims; Sample.reverts] [] [])).1
      = inr result →
      e ∈ result → c ∈ tc_chain e →
      chain_avg_price c
      = mean_of (prices_of Sample.float_repr Sample.shared_npi Sample.claims
                           (tc_ndc e) (name c)).
Proof.
  split; [reflexivity|]. split; [vm_compute; reflexivity|].
  split; [vm_compute; reflexivity|]. split; [vm_compute; reflexivity|].
  assert (Hno : "chain" ∉ columns Sample.claims)
    by (apply (bool_decide_unpack _); vm_compute; exact I).
  assert (Hnd : NoDup (columns Sample.claims))
    by (apply (bool_decide_unpack _); vm_compute; exact I).
  assert (Hnames : ∀ r, r ∈ records Sample.shared_npi →
                        is_str (cell r "chain") = true).
  { intros r Hr.
    apply (proj1 (Forall_forall (λ r, is_str (cell r "chain") = true)
                    (records Sample.shared_npi))); [|exact Hr].
    repeat constructor. }
  assert (Hprices : ∀ l, l ∈ records Sample.claims →
                         is_str (cell l "price") = false).
  { intros l Hl.
    apply (proj1 (Forall_forall (λ l, is_str (cell l "price") = false)
                    (records Sample.claims))); [|exact Hl].
    repeat constructor. }
  apply (duplicate_npi_joins_every_pharmacy_row Sample.float_repr 0 1
           "results/out.json" Sample.shared_npi Sample.claims
           (mkWorld [Sample.shared_npi; Sample.claims; Sample.reverts] [] [])
           ltac:(discriminate) eq_refl eq_refl eq_refl eq_refl Hno Hnd
           Hnames Hprices).
Defined.
